(** * EvenniaPlugin: the JSON handle bridge and the TCP client

    A shallow embedding of [UEvenniaPluginBPLibrary] (EvenniaPlugin.cpp and
    EvenniaPluginBPLibrary.h).  The Blueprint library is a set of static
    functions over four handle classes ([UJSONValue], [UJSONHandle],
    [UJSONHandleArray], [USocket]).  Handles are passed as raw pointers, so
    every handle argument is an [option] here ([None] is [nullptr]); output
    parameters ([FString&], [bool&], ...) are read-write references, so each
    function takes the value the caller's variable holds on entry and returns
    the value it holds on exit.

    The JSON objects themselves ([FJsonObject]) live behind shared pointers;
    they are kept in an explicit heap indexed by addresses so that two
    handles (or a handle and an array element) can point to the same object. *)

From Stdlib Require Import ZArith String Ascii List Bool Lia.
From Stdlib Require Import Floats.PrimFloat Floats.SpecFloat Floats.FloatOps Strings.Byte.
From Stdlib Require Import DecimalString DecimalZ.
From stdpp Require Import gmap strings list.
From Equations Require Import Equations.

#[global] Set Warnings "-register-all".
#[local] Open Scope string_scope.
#[local] Open Scope list_scope.

(** ** Engine types the plugin is written against *)

(** [FString].  Keys of [FJsonObject::Values] are compared by the map as the
    spec describes them: exact match. *)
Abbreviation FString := string.

(** C++ [double] and [float].  A [float] is represented by the binary64 value
    it denotes, which makes the widening conversion [(double)Value] exact. *)
Abbreviation double := PrimFloat.float.
Abbreviation float32 := PrimFloat.float.

Definition double_of_float (Value : float32) : double := Value.

(** Modelled from the spec: the engine enumeration [EJson] (declared in the
    engine's Json module, not in this repository), with its enumerators in the order
    in which the spec lists the value tags and in which
    [EvenniaPrintJSONValue] switches over them; [value] is the integer behind
    each enumerator. *)
Module EJson.
Inductive t := None | Null | String | Number | Boolean | Array | Object.

Definition value (e : t) : Z :=
  match e with
  | None => 0 | Null => 1 | String => 2 | Number => 3
  | Boolean => 4 | Array => 5 | Object => 6
  end%Z.

#[global] Instance eq_dec : EqDecision t.
Proof. solve_decision. Defined.
End EJson.

(** [enum class EJsonType : uint8] of EvenniaPluginBPLibrary.h. *)
Module EJsonType.
Inductive t := None | Null | String | Number | Boolean | Array | Object.

Definition value (e : t) : Z :=
  match e with
  | None => 0 | Null => 1 | String => 2 | Number => 3
  | Boolean => 4 | Array => 5 | Object => 6
  end%Z.

(** The enumerator behind an 8-bit value, when it has a name. *)
Definition of_value (z : Z) : option t :=
  if (z =? 0)%Z then Some None
  else if (z =? 1)%Z then Some Null
  else if (z =? 2)%Z then Some String
  else if (z =? 3)%Z then Some Number
  else if (z =? 4)%Z then Some Boolean
  else if (z =? 5)%Z then Some Array
  else if (z =? 6)%Z then Some Object
  else Datatypes.None.

Definition all : list t := [None; Null; String; Number; Boolean; Array; Object].

#[global] Instance eq_dec : EqDecision t.
Proof. solve_decision. Defined.

#[global] Instance countable : Countable t.
Proof.
  refine (inj_countable' (fun e => Z.to_nat (value e))
            (fun n => default None (of_value (Z.of_nat n))) _).
  intros []; reflexivity.
Defined.
End EJsonType.

(** [static_cast<EJsonType>(EType)]: the integer value is kept, narrowed to
    the 8 bits of the target's underlying type.  Every [EJson] value is below
    7, so the fallback branch is never taken. *)
Definition static_cast_EJsonType (EType : EJson.t) : EJsonType.t :=
  match EJsonType.of_value (EJson.value EType mod 256) with
  | Some e => e
  | None => EJsonType.None
  end.

(** Address of an [FJsonObject] on the heap; a [TSharedPtr<FJsonObject>] is an
    [option oid], the null pointer being [None]. *)
Abbreviation oid := positive.

(** [FJsonValue] and its subclasses.  Values are immutable once built; only
    objects are mutated in place, which is why [FJsonValueObject] holds the
    address of its object rather than a copy of the fields.
    [FJsonValueArray] holds its [TArray] by value.  [FJsonValueNone] stands for
    a value whose [Type] was left at the base class default [EJson::None]. *)
Inductive FJsonValue :=
| FJsonValueNone
| FJsonValueNull
| FJsonValueString (Value : FString)
| FJsonValueNumber (Value : double)
| FJsonValueBoolean (Value : bool)
| FJsonValueArray (Value : list FJsonValue)
| FJsonValueObject (Value : option oid).

(** The [Type] member of a value. *)
Definition FJsonValue_Type (v : FJsonValue) : EJson.t :=
  match v with
  | FJsonValueNone => EJson.None
  | FJsonValueNull => EJson.Null
  | FJsonValueString _ => EJson.String
  | FJsonValueNumber _ => EJson.Number
  | FJsonValueBoolean _ => EJson.Boolean
  | FJsonValueArray _ => EJson.Array
  | FJsonValueObject _ => EJson.Object
  end.

(** [FJsonObject::Values], and the heap of all live objects. *)
Abbreviation FJsonObject := (gmap string FJsonValue).
Abbreviation Heap := (gmap positive (gmap string FJsonValue)).

(** A finished JSON document: what a traversal that starts at a value and
    follows object pointers sees.  An object whose pointer is null has no
    field list. *)
Inductive JsonDoc :=
| DNone
| DNull
| DString (s : FString)
| DNumber (d : double)
| DBoolean (b : bool)
| DArray (elems : list JsonDoc)
| DObject (fields : option (list (string * JsonDoc))).

(** Whether a string contains a backslash, the character every escape
    sequence starts with. *)
Definition backslash : ascii := ascii_of_nat 92.

Definition has_backslash (s : string) : bool :=
  existsb (Ascii.eqb backslash) (list_ascii_of_string s).

(** What the plugin takes from the engine without the repository defining it.
    - [EMPTY_OBJECT]: the pointer [FJsonValue::AsObject] hands out for a value
      that is not an object;
    - [SanitizeFloat]: the text [TryGetString] produces for a number;
    - [TryGetNumber]: [FJsonValue::TryGetNumber], [None] when it returns
      false; [float_of_double]: the narrowing conversion [(float)Temp];
    - [ReplaceEscapedCharWithChar]: the [FString] member that turns escape
      sequences back into the characters they stand for; all that is used of
      it is that a string without a backslash has no escape sequence;
    - [GenerateKeyArray]: the keys of the object at an address in the order
      in which its [TMap] hands them out.  The order is the engine's (keys
      come in the order in which they were first added); all that is used of
      it is that every key is listed once;
    - [Writer]: the text the engine's writer produces for a document, its
      members written in the order the document lists them;
    - [Deserialize], [DeserializeArray]: [FJsonSerializer::Deserialize] into
      an object pointer and into an array; the tree read is created on the
      heap, [None] when the text is rejected. *)
Class JsonEngine := {
  EMPTY_OBJECT : option positive;
  SanitizeFloat : double -> FString;
  TryGetNumber : FJsonValue -> option double;
  float_of_double : double -> float32;
  ReplaceEscapedCharWithChar : FString -> FString;
  GenerateKeyArray : positive -> gmap string FJsonValue -> list FString;
  Writer : JsonDoc -> FString;
  Deserialize : FString -> Heap -> option (Heap * positive);
  DeserializeArray : FString -> Heap -> option (Heap * list FJsonValue);
  ReplaceEscapedCharWithChar_plain :
    forall s, has_backslash s = false -> ReplaceEscapedCharWithChar s = s;
  GenerateKeyArray_keys :
    forall o (Values : gmap string FJsonValue),
      GenerateKeyArray o Values ≡ₚ (map_to_list Values).*1
}.

(** What a call can end in besides returning: the engine checks that abort
    the process.  [UnrecognizedJsonType] is the serializer's fatal error for a
    value whose type is [EJson::None].  None of them is a C++ exception, so
    the [catch (...)] blocks of the plugin do not intercept them. *)
Inductive Fault := ArrayIndexOutOfBounds | NullSharedPtrDereference | UnrecognizedJsonType.

Inductive Outcome (A : Type) :=
| Returns (a : A)
| Aborts (f : Fault).
Arguments Returns {A} a.
Arguments Aborts {A} f.

(** A call that may also not come back at all: [None] is a call that is still
    running at the depth it was given. *)
Definition Run (A : Type) : Type := option (Outcome A).

Definition Run_bind {A B} (m : Run A) (f : A -> Run B) : Run B :=
  match m with
  | Some (Returns a) => f a
  | Some (Aborts fault) => Some (Aborts fault)
  | None => None
  end.

(** A loop that handles the elements in order and ends with the first call
    that aborts or does not come back. *)
Fixpoint in_order {A B} (f : A -> Run B) (l : list A) : Run (list B) :=
  match l with
  | [] => Some (Returns [])
  | x :: rest =>
      Run_bind (f x) (fun y =>
      Run_bind (in_order f rest) (fun ys => Some (Returns (y :: ys))))
  end.

(** [TArray::operator[]]: range-checked element access. *)
Definition TArray_at {A} (Array : list A) (Index : Z) : Outcome A :=
  if (0 <=? Index)%Z then
    match Array !! Z.to_nat Index with
    | Some x => Returns x
    | None => Aborts ArrayIndexOutOfBounds
    end
  else Aborts ArrayIndexOutOfBounds.

(** [TArray::Num]. *)
Definition Num {A} (Array : list A) : Z := Z.of_nat (length Array).

(** ** The handle classes of EvenniaPluginBPLibrary.h *)

(** [UJSONValue]: a shared pointer to one value. *)
Record UJSONValue := { JSONValue : option FJsonValue }.

(** [UJSONHandle]: a shared pointer to an object. *)
Record UJSONHandle := { JSONObject : option positive }.

(** [UJSONHandleArray]: an array of values, held by value. *)
Record UJSONHandleArray := { JSONObjectArray : list FJsonValue }.

(** [UJSONValue::IsValid], [UJSONHandle::IsValid]: the pointer is not null. *)
Definition UJSONValue_IsValid (h : UJSONValue) : bool :=
  match JSONValue h with Some _ => true | None => false end.

Definition UJSONHandle_IsValid (h : UJSONHandle) : bool :=
  match JSONObject h with Some _ => true | None => false end.

(** ** [FJsonObject] and [FJsonValue] members the plugin calls *)

Section Engine.
Context {engine : JsonEngine}.

(** [SetField]: [Values.Add(FieldName, Value)] on the object at [o]. *)
Definition SetField (heap : Heap) (o : oid) (FieldName : FString) (Value : FJsonValue) : Heap :=
  alter (fun Values : gmap string FJsonValue => <[FieldName := Value]> Values) o heap.

Definition SetStringField (heap : Heap) (o : oid) (FieldName StringValue : FString) : Heap :=
  SetField heap o FieldName (FJsonValueString StringValue).

Definition SetNumberField (heap : Heap) (o : oid) (FieldName : FString) (Number : double) : Heap :=
  SetField heap o FieldName (FJsonValueNumber Number).

(** A null [JsonObject] is stored as a JSON null. *)
Definition SetObjectField (heap : Heap) (o : oid) (FieldName : FString) (JsonObject : option oid) : Heap :=
  match JsonObject with
  | Some _ => SetField heap o FieldName (FJsonValueObject JsonObject)
  | None => SetField heap o FieldName FJsonValueNull
  end.

(** The array is copied into a new [FJsonValueArray]. *)
Definition SetArrayField (heap : Heap) (o : oid) (FieldName : FString) (Array : list FJsonValue) : Heap :=
  SetField heap o FieldName (FJsonValueArray Array).

(** [Values.Find(FieldName)]. *)
Definition FindField (heap : Heap) (o : oid) (FieldName : FString) : option FJsonValue :=
  heap !! o ≫= fun Values : gmap string FJsonValue => Values !! FieldName.

(** [FJsonValue::TryGetString]: writes [OutString] only when it returns true. *)
Definition TryGetString (v : FJsonValue) (OutString : FString) : bool * FString :=
  match v with
  | FJsonValueString s => (true, s)
  | FJsonValueNumber d => (true, SanitizeFloat d)
  | FJsonValueBoolean b => (true, if b then "true" else "false")
  | _ => (false, OutString)
  end.

(** [FJsonValue::AsString]: the string of the value, empty when it has none. *)
Definition AsString (v : FJsonValue) : FString := snd (TryGetString v "").

(** [FJsonValue::AsObject]. *)
Definition AsObject (v : FJsonValue) : option oid :=
  match v with
  | FJsonValueObject p => p
  | _ => EMPTY_OBJECT
  end.

(** [FJsonValue::AsArray]: a value that is not an array gives the empty array. *)
Definition AsArray (v : FJsonValue) : list FJsonValue :=
  match v with
  | FJsonValueArray a => a
  | _ => []
  end.

(** [FJsonObject::TryGetStringField]. *)
Definition TryGetStringField (heap : Heap) (o : oid) (FieldName : FString) (OutString : FString)
  : bool * FString :=
  match FindField heap o FieldName with
  | Some v => TryGetString v OutString
  | None => (false, OutString)
  end.

(** [FJsonObject::GetField<JsonType>]: an absent field, or one of another
    type than the one asked for, reads as a JSON null. *)
Definition GetField (JsonType : EJson.t) (heap : Heap) (o : oid) (FieldName : FString) : FJsonValue :=
  match FindField heap o FieldName with
  | Some v =>
      if decide (JsonType = EJson.None \/ FJsonValue_Type v = JsonType) then v else FJsonValueNull
  | None => FJsonValueNull
  end.

Definition GetStringField (heap : Heap) (o : oid) (FieldName : FString) : FString :=
  AsString (GetField EJson.None heap o FieldName).

Definition GetObjectField (heap : Heap) (o : oid) (FieldName : FString) : option oid :=
  AsObject (GetField EJson.Object heap o FieldName).

(** The tree below a value: what following every array element and every
    object pointer finds, a null object pointer included.  [fuel] bounds the
    depth; [None] means the tree is not exhausted at that depth, which is the
    case at every depth when a pointer leads back to an object above it.
    This is what the printing functions walk through, and how a structure is
    said to be finite; the serializer is [Serialize] below. *)
Fixpoint document (fuel : nat) (heap : Heap) (v : FJsonValue) : option JsonDoc :=
  match fuel with
  | O => None
  | S fuel' =>
      match v with
      | FJsonValueNone => Some DNone
      | FJsonValueNull => Some DNull
      | FJsonValueString s => Some (DString s)
      | FJsonValueNumber d => Some (DNumber d)
      | FJsonValueBoolean b => Some (DBoolean b)
      | FJsonValueArray a => DArray <$> mapM (document fuel' heap) a
      | FJsonValueObject None => Some (DObject None)
      | FJsonValueObject (Some o) =>
          Values ← heap !! o;
          fields ← mapM (fun kv : string * FJsonValue =>
                           pair kv.1 <$> document fuel' heap kv.2)
                        (map_to_list (Values : gmap string FJsonValue));
          Some (DObject (Some fields))
      end
  end.

(** [FJsonSerializer::Serialize] on a value: the document it hands to the
    writer.  Array elements are taken in order and the members of an object
    in the order [GenerateKeyArray] lists its keys.  The serializer asks a
    value of type [Object] for its object and goes through the pointer, which
    aborts when the pointer is null, and it has no case for a value of type
    [None].  [fuel] bounds the depth; [None] means the traversal has not
    ended at that depth. *)
Fixpoint Serialize (fuel : nat) (heap : Heap) (v : FJsonValue) : Run JsonDoc :=
  match fuel with
  | O => None
  | S fuel' =>
      match v with
      | FJsonValueNone => Some (Aborts UnrecognizedJsonType)
      | FJsonValueNull => Some (Returns DNull)
      | FJsonValueString s => Some (Returns (DString s))
      | FJsonValueNumber d => Some (Returns (DNumber d))
      | FJsonValueBoolean b => Some (Returns (DBoolean b))
      | FJsonValueArray a =>
          Run_bind (in_order (Serialize fuel' heap) a) (fun elems =>
          Some (Returns (DArray elems)))
      | FJsonValueObject None => Some (Aborts NullSharedPtrDereference)
      | FJsonValueObject (Some o) =>
          match heap !! o with
          | Some Values =>
              Run_bind (in_order (fun Key : FString =>
                                    match (Values : gmap string FJsonValue) !! Key with
                                    | Some Field =>
                                        Run_bind (Serialize fuel' heap Field) (fun d =>
                                        Some (Returns (Key, d)))
                                    | None => None
                                    end)
                                 (GenerateKeyArray o Values)) (fun fields =>
              Some (Returns (DObject (Some fields))))
          | None => None
          end
      end
  end.

(** ** The Blueprint library: JSON functions *)

Definition NewJSONValue : UJSONValue := {| JSONValue := None |}.

Definition EvenniaNewJSONObject (heap : Heap) : Heap * UJSONHandle :=
  let o := fresh (dom heap) in
  (<[o := ∅]> heap, {| JSONObject := Some o |}).

Definition EvenniaNewJSONObjectArray : UJSONHandleArray := {| JSONObjectArray := [] |}.

Definition EvenniaAddJSONElement (heap : Heap) (JSONHandle : option UJSONHandle)
    (Name Value : FString) : Heap :=
  match JSONHandle with
  | Some {| JSONObject := Some o |} =>
      let NewName := Name in
      if negb (String.eqb NewName "") then SetStringField heap o NewName Value
      else heap
  | _ => heap
  end.

Definition EvenniaAddJSONNumericElement (heap : Heap) (JSONHandle : option UJSONHandle)
    (Name : FString) (Value : float32) : Heap :=
  match JSONHandle with
  | Some {| JSONObject := Some o |} =>
      let NewName := ReplaceEscapedCharWithChar Name in
      SetNumberField heap o NewName (double_of_float Value)
  | _ => heap
  end.

(** [NewName] is computed and then not used: the field is set under [Name]. *)
Definition EvenniaAddJSONObject (heap : Heap) (JSONHandle : option UJSONHandle)
    (Name : FString) (Value : option UJSONHandle) : Heap :=
  match JSONHandle, Value with
  | Some {| JSONObject := Some o |}, Some Value =>
      let NewName := ReplaceEscapedCharWithChar Name in
      SetObjectField heap o Name (JSONObject Value)
  | _, _ => heap
  end.

(** The array handle is a [UObject] mutated in place; the function returns
    what the handle holds afterwards. *)
Definition EvenniaAddJSONObjectToArray (JSONHandleArray : option UJSONHandleArray)
    (Value : option UJSONHandle) : option UJSONHandleArray :=
  match JSONHandleArray, Value with
  | Some arr, Some Value =>
      let JsonValue := FJsonValueObject (JSONObject Value) in
      Some {| JSONObjectArray := JSONObjectArray arr ++ [JsonValue] |}
  | _, _ => JSONHandleArray
  end.

Definition EvenniaAddJSONArrayToObject (heap : Heap) (JSONHandle : option UJSONHandle)
    (Name : FString) (Value : option UJSONHandleArray) : Heap :=
  match JSONHandle, Value with
  | Some {| JSONObject := Some o |}, Some Value =>
      SetArrayField heap o Name (JSONObjectArray Value)
  | _, _ => heap
  end.

(** The intermediate handle comes from [NewObject<UJSONHandle>()], whose
    [JSONObject] is null. *)
Definition EvenniaAddJSONArrayToArray (heap : Heap) (JSONHandleArray : option UJSONHandleArray)
    (Name : FString) (Value : option UJSONHandleArray) : Heap * option UJSONHandleArray :=
  match JSONHandleArray, Value with
  | Some arr, Some _ =>
      let JSONHandle := {| JSONObject := None |} in
      let heap := EvenniaAddJSONArrayToObject heap (Some JSONHandle) Name Value in
      let JsonValue := FJsonValueObject (JSONObject JSONHandle) in
      (heap, Some {| JSONObjectArray := JSONObjectArray arr ++ [JsonValue] |})
  | _, _ => (heap, JSONHandleArray)
  end.

(** The result of [TryGetStringField] is dropped; only [Value] leaves. *)
Definition EvenniaGetJSONElement (heap : Heap) (JSONHandle : option UJSONHandle)
    (Name : FString) (Value : FString) : FString :=
  match JSONHandle with
  | Some {| JSONObject := Some o |} =>
      let NewName := ReplaceEscapedCharWithChar Name in
      let Value := "" in
      snd (TryGetStringField heap o NewName Value)
  | _ => Value
  end.

Definition EvenniaGetJSONNumericElement (heap : Heap) (JSONHandle : option UJSONHandle)
    (Name : FString) (Value : float32) : float32 :=
  match JSONHandle with
  | Some {| JSONObject := Some o |} =>
      let NewName := ReplaceEscapedCharWithChar Name in
      let Temp := 0%float in
      let Temp := default Temp (FindField heap o NewName ≫= TryGetNumber) in
      float_of_double Temp
  | _ => Value
  end.

Definition EvenniaGetJSONObject (heap : Heap) (JSONHandle : option UJSONHandle)
    (Name : FString) : option UJSONHandle :=
  let OutHandle := {| JSONObject := None |} in
  match JSONHandle with
  | Some {| JSONObject := Some o |} =>
      let NewName := ReplaceEscapedCharWithChar Name in
      Some {| JSONObject := GetObjectField heap o NewName |}
  | _ => Some OutHandle
  end.

(** [->] on the shared pointer [AsObject] returns. *)
Definition arrow (p : option oid) : Outcome oid :=
  match p with
  | Some o => Returns o
  | None => Aborts NullSharedPtrDereference
  end.

Definition EvenniaGetJSONElementMultiple (heap : Heap) (JSONHandleArray : option UJSONHandleArray)
    (Index : Z) (Name : FString) (Value : FString) : Outcome FString :=
  match JSONHandleArray with
  | Some arr =>
      let Value := "" in
      if (Index <=? Num (JSONObjectArray arr) - 1)%Z then
        match TArray_at (JSONObjectArray arr) Index with
        | Returns elem =>
            match arrow (AsObject elem) with
            | Returns o => Returns (GetStringField heap o Name)
            | Aborts f => Aborts f
            end
        | Aborts f => Aborts f
        end
      else Returns Value
  | None => Returns Value
  end.

(** Returns [Value] and [Success]; the call aborts where the serializer
    does, and [None] stands for a traversal that has not ended at the depth
    given. *)
Definition EvenniaSerializeJSONObject (fuel : nat) (heap : Heap) (JSONHandle : option UJSONHandle)
    (Value : FString) (Success : bool) : Run (FString * bool) :=
  match JSONHandle with
  | Some {| JSONObject := Some o |} =>
      Run_bind (Serialize fuel heap (FJsonValueObject (Some o))) (fun d =>
      let OutputString := Writer d in
      Some (Returns (OutputString, true)))
  | _ => Some (Returns (Value, Success))
  end.

Definition EvenniaSerializeJSONObjectArray (fuel : nat) (heap : Heap)
    (JSONHandleArray : option UJSONHandleArray)
    (Value : FString) (Success : bool) : Run (FString * bool) :=
  match JSONHandleArray with
  | Some arr =>
      Run_bind (Serialize fuel heap (FJsonValueArray (JSONObjectArray arr))) (fun d =>
      let OutputString := Writer d in
      Some (Returns (OutputString, true)))
  | None => Some (Returns (Value, Success))
  end.

(** Returns the handle array, [ElementCount] and [Success]. *)
Definition EvenniaParseMultiple (heap : Heap) (JSONString : FString)
  : Heap * option UJSONHandleArray * Z * bool :=
  match DeserializeArray JSONString heap with
  | Some (heap', Array) =>
      (heap', Some {| JSONObjectArray := Array |}, Num Array, true)
  | None => (heap, Some {| JSONObjectArray := [] |}, 0%Z, false)
  end.

(** Returns the handle (a null pointer on the failure paths) and [Success]. *)
Definition EvenniaGetJSONObjectFromArray (JSONHandleArray : option UJSONHandleArray)
    (Index : Z) (Success : bool) : Outcome (option UJSONHandle * bool) :=
  match JSONHandleArray with
  | Some arr =>
      if (Index <=? Num (JSONObjectArray arr))%Z then
        let Success := true in
        match TArray_at (JSONObjectArray arr) Index with
        | Returns elem => Returns (Some {| JSONObject := AsObject elem |}, Success)
        | Aborts f => Aborts f
        end
      else Returns (None, false)
  | None => Returns (None, Success)
  end.

(** The handle is a [UObject] whose pointer member is overwritten; the
    function returns the heap, what the handle holds afterwards, and
    [Success]. *)
Definition EvenniaParseString (heap : Heap) (JSONHandle : option UJSONHandle)
    (JSONString : FString) (Success : bool) : Heap * option UJSONHandle * bool :=
  let Success := false in
  match JSONHandle with
  | Some {| JSONObject := Some o |} =>
      match Deserialize JSONString heap with
      | Some (heap', o') => (heap', Some {| JSONObject := Some o' |}, true)
      | None => (heap, JSONHandle, Success)
      end
  | _ => (heap, JSONHandle, Success)
  end.

Definition EvenniaGetJSONValueType (JSONValue_ : option UJSONValue) (JsonType : EJsonType.t)
  : EJsonType.t :=
  match JSONValue_ with
  | Some {| JSONValue := Some v |} =>
      let EType := FJsonValue_Type v in
      let NewEnum := static_cast_EJsonType EType in
      NewEnum
  | _ => JsonType
  end.

Definition EvenniaJSONValueAsObject (JSONValue_ : option UJSONValue) : option UJSONHandle :=
  match JSONValue_ with
  | Some {| JSONValue := Some v |} => Some {| JSONObject := AsObject v |}
  | _ => None
  end.

Definition EvenniaJSONValueAsArray (JSONValue_ : option UJSONValue) : option UJSONHandleArray :=
  match JSONValue_ with
  | Some {| JSONValue := Some v |} => Some {| JSONObjectArray := AsArray v |}
  | _ => None
  end.

Definition EvenniaJSONValueAsString (JSONValue_ : option UJSONValue) (Value : FString) : FString :=
  match JSONValue_ with
  | Some {| JSONValue := Some v |} => AsString v
  | _ => Value
  end.

(** Returns [JSONValueArray] and [ElementCount]. *)
Definition EvenniaGetJSONArrayHandleAsArray (JSONHandleArray : option UJSONHandleArray)
  : list UJSONValue * Z :=
  let JSONValueArray :=
    match JSONHandleArray with
    | Some arr => (fun v => {| JSONValue := Some v |}) <$> JSONObjectArray arr
    | None => []
    end in
  (JSONValueArray, Num JSONValueArray).

(** Returns [KeysAndTypes] and [ElementCount]. *)
Definition EvenniaGetJSONObjectKeysAndTypes (heap : Heap) (JSONHandle : option UJSONHandle)
  : gmap string EJsonType.t * Z :=
  let KeysAndTypes : gmap string EJsonType.t :=
    match JSONHandle with
    | Some {| JSONObject := Some o |} =>
        (fun v => static_cast_EJsonType (FJsonValue_Type v)) <$> default ∅ (heap !! o)
    | _ => ∅
    end in
  (KeysAndTypes, Z.of_nat (size KeysAndTypes)).

(** Returns [TypesAndValues] and [ElementCount].  The loop body, for the
    element at hand: [TMap::Add] replaces the value of a key already there. *)
Definition TypesAndValues_step (TypesAndValues : gmap EJsonType.t UJSONValue) (elem : FJsonValue)
  : gmap EJsonType.t UJSONValue :=
  let JSONValue_ := {| JSONValue := Some elem |} in
  let NewEnum := static_cast_EJsonType (FJsonValue_Type elem) in
  <[NewEnum := JSONValue_]> TypesAndValues.

Definition EvenniaGetJSONArrayTypesAndValues (JSONHandleArray : option UJSONHandleArray)
  : gmap EJsonType.t UJSONValue * Z :=
  let TypesAndValues : gmap EJsonType.t UJSONValue :=
    match JSONHandleArray with
    | Some arr => foldl TypesAndValues_step ∅ (JSONObjectArray arr)
    | None => ∅
    end in
  (TypesAndValues, Z.of_nat (size TypesAndValues)).

Definition EvenniaGetJSONObjectType (JSONHandleArray : option UJSONHandleArray)
    (Index : Z) (JsonType : EJsonType.t) : Outcome EJsonType.t :=
  match JSONHandleArray with
  | Some arr =>
      match TArray_at (JSONObjectArray arr) Index with
      | Returns elem => Returns (static_cast_EJsonType (FJsonValue_Type elem))
      | Aborts f => Aborts f
      end
  | None => Returns JsonType
  end.

End Engine.

(** ** The Blueprint library: printing a structure to the log *)

(** One [UE_LOG] call: its format text and the arguments given for the
    conversions, in order.  [ArgAnsi] is a narrow string literal.  Every call
    of the library logs to [LogTemp], and the printing functions log at
    [Warning]. *)
Inductive LogArg :=
| ArgInt (n : Z)
| ArgText (s : FString)
| ArgDouble (d : double)
| ArgAnsi (s : string).

Record LogLine := { Format : string; Args : list LogArg }.

Definition UE_LOG (Format : string) (Args : list LogArg) : LogLine :=
  {| Format := Format; Args := Args |}.

(** [level++] in argument position: the value handed to the callee is the one
    before the increment; the incremented variable is not read again. *)
Definition post_increment (level : Z) : Z * Z := (level, (level + 1)%Z).

(** The [for] loop of [EvenniaPrintJSONArray(TArray, int)] from index [x] on.
    [PrintValue] is [EvenniaPrintJSONValue]; [None] stands for a traversal that
    does not come back. *)
Fixpoint EvenniaPrintJSONArray_loop (PrintValue : FJsonValue -> Z -> option (list LogLine))
    (x : Z) (JSONValueArray : list FJsonValue) (level : Z) : option (list LogLine) :=
  match JSONValueArray with
  | [] => Some []
  | Value :: rest =>
      printed ← PrintValue Value level;
      others ← EvenniaPrintJSONArray_loop PrintValue (x + 1)%Z rest level;
      Some (UE_LOG "UEvenniaPluginBPLibrary::Printing element number: %d" [ArgInt x]
              :: printed ++ others)
  end.

(** [EvenniaPrintJSONArray(TArray<TSharedPtr<FJsonValue>>, int)]. *)
Definition EvenniaPrintJSONArray_level (PrintValue : FJsonValue -> Z -> option (list LogLine))
    (JSONValueArray : list FJsonValue) (level : Z) : option (list LogLine) :=
  if (0 <? Num JSONValueArray)%Z then
    let heading :=
      if (level =? 0)%Z
      then UE_LOG "UEvenniaPluginBPLibrary::PrintJSONArray: Starting" []
      else UE_LOG "UEvenniaPluginBPLibrary::PrintJSONArray: Nested element:" [] in
    let Num_ := Num JSONValueArray in
    elements ← EvenniaPrintJSONArray_loop PrintValue 0 JSONValueArray level;
    Some (heading
            :: UE_LOG "UEvenniaPluginBPLibrary::Number of elements: %d" [ArgInt Num_]
            :: elements)
  else Some [UE_LOG "UEvenniaPluginBPLibrary::EvenniaParseString: null pointer detected" []].

(** The loop of [EvenniaPrintJSONObject] over the keys: [Values.Find(Key)] is
    the value the key is paired with. *)
Fixpoint EvenniaPrintJSONObject_loop (PrintValue : FJsonValue -> Z -> option (list LogLine))
    (Keys : list (FString * FJsonValue)) (level : Z) : option (list LogLine) :=
  match Keys with
  | [] => Some []
  | (Key, Field) :: rest =>
      printed ← PrintValue Field level;
      others ← EvenniaPrintJSONObject_loop PrintValue rest level;
      Some (UE_LOG "UEvenniaPluginBPLibrary::PrintJSONObject: Processing Key: %s" [ArgText Key]
              :: printed ++ others)
  end.

(** [EvenniaPrintJSONObject(TSharedPtr<FJsonObject>, int)]. *)
Definition EvenniaPrintJSONObject_level (PrintValue : FJsonValue -> Z -> option (list LogLine))
    (heap : Heap) (JSONObject_ : option oid) (level : Z) : option (list LogLine) :=
  match JSONObject_ with
  | Some o =>
      Values ← heap !! o;
      EvenniaPrintJSONObject_loop PrintValue (map_to_list (Values : gmap string FJsonValue)) level
  | None =>
      Some [UE_LOG "UEvenniaPluginBPLibrary::EvenniaPrintJSONObject: null pointer detected" []]
  end.

(** [EvenniaPrintJSONValue].  The [switch] is over [Value->Type], which the
    constructor of the value fixes, and in each case [AsString], [AsNumber],
    [AsBool], [AsArray] and [AsObject] hand out what the constructor holds.
    Elements and fields are values here, never null pointers to a value (the
    setters and the reader store none), so the branch for a null [Value] and
    the [default] of the [switch] have no case.  [fuel] bounds the depth of
    the recursion through arrays and objects. *)
Fixpoint EvenniaPrintJSONValue (fuel : nat) (heap : Heap) (Value : FJsonValue) (level : Z)
  : option (list LogLine) :=
  match fuel with
  | O => None
  | S fuel' =>
      match Value with
      | FJsonValueNone =>
          Some [UE_LOG "UEvenniaPluginBPLibrary::Element type: %s." [ArgText "None"]]
      | FJsonValueNull =>
          Some [UE_LOG "UEvenniaPluginBPLibrary::Element type: %s." [ArgText "Null"]]
      | FJsonValueString s =>
          Some [UE_LOG "UEvenniaPluginBPLibrary::Element type: %s. Element value: %s"
                  [ArgText "String"; ArgText s]]
      | FJsonValueNumber d =>
          Some [UE_LOG "UEvenniaPluginBPLibrary::Element value: %d"
                  [ArgText "Number"; ArgDouble d]]
      | FJsonValueBoolean b =>
          Some [UE_LOG "UEvenniaPluginBPLibrary::Element value: %d"
                  [ArgText "Boolean"; ArgAnsi (if b then "true" else "false")]]
      | FJsonValueArray ChildArray =>
          let '(argument, level) := post_increment level in
          printed ← EvenniaPrintJSONArray_level (EvenniaPrintJSONValue fuel' heap)
                      ChildArray argument;
          Some (UE_LOG "UEvenniaPluginBPLibrary::Element type: %s." [ArgText "Array"] :: printed)
      | FJsonValueObject p =>
          let '(argument, level) := post_increment level in
          printed ← EvenniaPrintJSONObject_level (EvenniaPrintJSONValue fuel' heap)
                      heap p argument;
          Some (UE_LOG "UEvenniaPluginBPLibrary::Element type: %s." [ArgText "Object"] :: printed)
      end
  end.

(** [EvenniaPrintJSONArray] on an array handle, the function Blueprints call:
    the lines it logs. *)
Definition EvenniaPrintJSONArray (fuel : nat) (heap : Heap)
    (HandleArray : option UJSONHandleArray) : option (list LogLine) :=
  match HandleArray with
  | Some arr =>
      EvenniaPrintJSONArray_level (EvenniaPrintJSONValue fuel heap) (JSONObjectArray arr) 0
  | None => Some []
  end.

(** ** The socket layer *)

(** Modelled from the spec: the engine's [FSocket] (not in this repository), a
    blocking TCP descriptor.  [Pending] are the bytes that have arrived and
    were not read yet, [Sent] the bytes written so far, [SendSucceeds] the
    platform's answer to a write, [IsOpen] whether the descriptor is live.
    Nothing arrives while a call is running: during [GetMessage] the pending
    bytes only shrink. *)
Record FSocket := {
  Pending : list byte;
  Sent : list byte;
  SendSucceeds : bool;
  IsOpen : bool
}.

(** [HasPendingData(Size)]: whether unread bytes are available, and how many. *)
Definition FSocket_HasPendingData (s : FSocket) : bool * Z :=
  let PendingDataSize := Z.of_nat (length (Pending s)) in
  ((0 <? PendingDataSize)%Z, PendingDataSize).

(** [Recv(Data, BufferSize, BytesRead)]: the bytes read, and the socket after
    the read. *)
Definition Recv_data (s : FSocket) (BufferSize : Z) : list byte :=
  take (Z.to_nat BufferSize) (Pending s).

Definition Recv_socket (s : FSocket) (BufferSize : Z) : FSocket :=
  {| Pending := drop (Z.to_nat BufferSize) (Pending s); Sent := Sent s;
     SendSucceeds := SendSucceeds s; IsOpen := IsOpen s |}.

(** [Send(Data, Count, BytesSent)]. *)
Definition FSocket_Send (s : FSocket) (Data : list byte) (Count : Z) : bool * FSocket :=
  if SendSucceeds s
  then (true, {| Pending := Pending s; Sent := Sent s ++ take (Z.to_nat Count) Data;
                 SendSucceeds := SendSucceeds s; IsOpen := IsOpen s |})
  else (false, s).

(** [Close]: true when a live descriptor was closed. *)
Definition FSocket_Close (s : FSocket) : bool * FSocket :=
  (IsOpen s, {| Pending := Pending s; Sent := Sent s;
                SendSucceeds := SendSucceeds s; IsOpen := false |}).

(** What [Connect] takes from the platform.
    - [FIPv4Address_Parse]: the 32-bit address read from the text, [None]
      when [FIPv4Address::Parse] returns false (it then leaves its output
      argument as it was);
    - [FIPv4Address_default]: what a default-constructed [FIPv4Address] holds;
    - [Build]: the socket [FTcpSocketBuilder::Build] returns for a blocking,
      reusable socket bound to the given address, [None] for a null pointer;
    - [FSocket_Connect]: whether the handshake with the address and port
      completed. *)
Class SocketSubsystem := {
  FIPv4Address_Parse : FString -> option Z;
  FIPv4Address_default : Z;
  Build : Z -> option FSocket;
  FSocket_Connect : FSocket -> Z -> Z -> bool
}.

(** [USocket]: the handle class around the descriptor pointer. *)
Record USocket := { _Socket : option FSocket }.

Definition SetSocket (this : USocket) (Socket : option FSocket) : USocket * bool :=
  ({| _Socket := Socket |}, false).

Definition GetSocket (this : USocket) : option FSocket := _Socket this.

Definition Z_of_byte (b : byte) : Z := Z.of_N (Byte.to_N b).

Definition byte_of_Z (z : Z) : byte := default x00 (Byte.of_N (Z.to_N (z mod 256))).

(** [TArray<uint8>::Init(Element, Number)]. *)
Definition Init (Element : byte) (Number : Z) : list byte :=
  replicate (Z.to_nat Number) Element.

(** The buffer after [Recv] wrote the bytes it read at its start. *)
Definition received (Data Buffer : list byte) : list byte :=
  Data ++ drop (length Data) Buffer.

(** The characters a [const char*] denotes: everything before the first zero
    byte. *)
Fixpoint c_str (Data : list byte) : list byte :=
  match Data with
  | [] => []
  | b :: rest => if Byte.eqb b x00 then [] else b :: c_str rest
  end.

(** [ANSI_TO_TCHAR] on one character: a byte up to 0x7F is the character of
    that code, a byte above it is no ANSI character and is replaced by a
    question mark. *)
Definition ANSI_TO_TCHAR (b : byte) : ascii :=
  if (Z_of_byte b <? 128)%Z then ascii_of_byte b else ascii_of_nat 63.

(** [FString(ANSI_TO_TCHAR(ptr))]: one character per byte. *)
Definition FString_of_ANSI (Data : list byte) : FString :=
  string_of_list_ascii (ANSI_TO_TCHAR <$> c_str Data).

(** The code units of a string. *)
Definition code_units (s : FString) : list Z :=
  (fun c => Z.of_N (N_of_ascii c)) <$> list_ascii_of_string s.

(** [TCHAR_TO_UTF8]: the UTF-8 bytes of a code point, and of a string. *)
Definition utf8_encode_char (c : Z) : list byte :=
  if (c <? 128)%Z then [byte_of_Z c]
  else if (c <? 2048)%Z then
    [byte_of_Z (Z.lor 192 (Z.shiftr c 6)); byte_of_Z (Z.lor 128 (Z.land c 63))]
  else if (c <? 65536)%Z then
    [byte_of_Z (Z.lor 224 (Z.shiftr c 12));
     byte_of_Z (Z.lor 128 (Z.land (Z.shiftr c 6) 63));
     byte_of_Z (Z.lor 128 (Z.land c 63))]
  else
    [byte_of_Z (Z.lor 240 (Z.shiftr c 18));
     byte_of_Z (Z.lor 128 (Z.land (Z.shiftr c 12) 63));
     byte_of_Z (Z.lor 128 (Z.land (Z.shiftr c 6) 63));
     byte_of_Z (Z.lor 128 (Z.land c 63))].

Definition TCHAR_TO_UTF8 (s : FString) : list byte :=
  concat (utf8_encode_char <$> code_units s).

(** The reading of the spec's words "decodes the buffer as UTF-8 text": the
    code points a byte sequence encodes, [None] when it is not UTF-8. *)
Definition continuation (b : byte) : option Z :=
  let z := Z_of_byte b in
  if ((128 <=? z) && (z <? 192))%Z then Some (Z.land z 63) else None.

Fixpoint utf8_decode (Data : list byte) : option (list Z) :=
  match Data with
  | [] => Some []
  | b0 :: rest =>
      let z0 := Z_of_byte b0 in
      if (z0 <? 128)%Z then cons z0 <$> utf8_decode rest
      else if (z0 <? 192)%Z then None
      else if (z0 <? 224)%Z then
        match rest with
        | b1 :: rest =>
            c1 ← continuation b1;
            cons (Z.lor (Z.shiftl (Z.land z0 31) 6) c1) <$> utf8_decode rest
        | _ => None
        end
      else if (z0 <? 240)%Z then
        match rest with
        | b1 :: b2 :: rest =>
            c1 ← continuation b1; c2 ← continuation b2;
            cons (Z.lor (Z.shiftl (Z.land z0 15) 12) (Z.lor (Z.shiftl c1 6) c2))
              <$> utf8_decode rest
        | _ => None
        end
      else if (z0 <? 248)%Z then
        match rest with
        | b1 :: b2 :: b3 :: rest =>
            c1 ← continuation b1; c2 ← continuation b2; c3 ← continuation b3;
            cons (Z.lor (Z.shiftl (Z.land z0 7) 18)
                    (Z.lor (Z.shiftl c1 12) (Z.lor (Z.shiftl c2 6) c3)))
              <$> utf8_decode rest
        | _ => None
        end
      else None
  end.

(** ** The Blueprint library: socket functions *)

Section Sockets.
Context {platform : SocketSubsystem}.

(** Returns the connection (a null pointer on failure) and [success].  The
    result of [FIPv4Address::Parse] is not looked at. *)
Definition Connect (IP : FString) (port : Z) : option USocket * bool :=
  let NetSock := {| _Socket := None |} in
  let ipv4ip := default FIPv4Address_default (FIPv4Address_Parse IP) in
  let TCPSocket := Build ipv4ip in
  let didConnect :=
    match TCPSocket with
    | Some sock => FSocket_Connect sock ipv4ip port
    | None => false
    end in
  if negb didConnect then (None, false)
  else (Some (fst (SetSocket NetSock TCPSocket)), true).

End Sockets.

(** Returns the result and the connection after the call.  An empty [FString]
    has no character array, so [GetData] is null for it. *)
Definition SendMessage (Connection : option USocket) (Message : FString)
  : bool * option USocket :=
  match Connection with
  | Some conn =>
      match GetSocket conn with
      | Some MySocket =>
          if String.eqb Message "" then (false, Connection)
          else
            let size := Z.of_nat (String.length Message) in
            let '(successful, MySocket) := FSocket_Send MySocket (TCHAR_TO_UTF8 Message) size in
            (successful, Some {| _Socket := Some MySocket |})
      | None => (false, Connection)
      end
  | None => (false, Connection)
  end.

Definition inspect {A} (a : A) : {b : A | a = b} := exist _ a eq_refl.

(** The [while (MySocket->HasPendingData(Size))] loop of [GetMessage]: each
    round sizes [BinaryData] anew and reads into it.  Returns the socket and
    [BinaryData] after the loop. *)
Equations? GetMessage_loop (MySocket : FSocket) (BinaryData : list byte) : FSocket * list byte
  by wf (length (Pending MySocket)) lt :=
GetMessage_loop MySocket BinaryData with inspect (FSocket_HasPendingData MySocket) := {
  | exist _ (true, Size) _ =>
      GetMessage_loop (Recv_socket MySocket (Z.min Size 65507))
        (received (Recv_data MySocket (Z.min Size 65507)) (Init x00 (Z.min Size 65507)))
  | exist _ (false, _) _ => (MySocket, BinaryData) }.
Proof.
  match goal with H : (0 <? _)%Z = true |- _ => apply Z.ltb_lt in H end.
  rewrite length_drop. lia.
Qed.

(** Returns the result, [Message], and the connection after the call. *)
Definition GetMessage (Connection : option USocket) (Message : FString)
  : bool * FString * option USocket :=
  match Connection with
  | Some conn =>
      match GetSocket conn with
      | Some MySocket =>
          let '(MySocket, BinaryData) := GetMessage_loop MySocket [] in
          let Connection := Some {| _Socket := Some MySocket |} in
          if (Num BinaryData <=? 0)%Z then (false, Message, Connection)
          else
            let BinaryData := BinaryData ++ [x00] in
            (true, FString_of_ANSI BinaryData, Connection)
      | None => (false, Message, Connection)
      end
  | None => (false, Message, Connection)
  end.

Definition HasPendingData (Connection : option USocket) : bool :=
  match Connection with
  | Some conn =>
      match GetSocket conn with
      | Some MySocket => fst (FSocket_HasPendingData MySocket)
      | None => false
      end
  | None => false
  end.

(** Returns the result and the connection after the call. *)
Definition CloseConnection (Connection : option USocket) : bool * option USocket :=
  match Connection with
  | Some conn =>
      match GetSocket conn with
      | Some MySocket =>
          let '(closed, MySocket) := FSocket_Close MySocket in
          (closed, Some {| _Socket := Some MySocket |})
      | None => (false, Connection)
      end
  | None => (false, Connection)
  end.

(** ** Notions the properties are stated with *)

(** The enumerator of [EJsonType] that carries the same name as a tag of
    [EJson]. *)
Definition same_name (e : EJson.t) : EJsonType.t :=
  match e with
  | EJson.None => EJsonType.None
  | EJson.Null => EJsonType.Null
  | EJson.String => EJsonType.String
  | EJson.Number => EJsonType.Number
  | EJson.Boolean => EJsonType.Boolean
  | EJson.Array => EJsonType.Array
  | EJson.Object => EJsonType.Object
  end.


(** The [EJsonType] tag under which [EvenniaGetJSONArrayTypesAndValues] files
    an element, and the tags of an array's elements in order. *)
Definition tag_of (elem : FJsonValue) : EJsonType.t :=
  static_cast_EJsonType (FJsonValue_Type elem).

Definition tags (Array : list FJsonValue) : list EJsonType.t := tag_of <$> Array.

(** The cap of one read in [GetMessage], as a length. *)
Definition MaxRead : nat := Z.to_nat 65507.

(** The last of the reads [GetMessage] makes when [Data] is pending: the
    reads take [MaxRead] bytes each until at most [MaxRead] are left. *)
Definition final_chunk (Data : list byte) : list byte :=
  drop (MaxRead * ((length Data - 1) / MaxRead)) Data.

(** A socket with the given bytes pending, and the socket once they are read. *)
Definition socket_with (Data : list byte) : FSocket :=
  {| Pending := Data; Sent := []; SendSucceeds := true; IsOpen := true |}.

Definition drained (s : FSocket) : FSocket :=
  {| Pending := []; Sent := Sent s; SendSucceeds := SendSucceeds s; IsOpen := IsOpen s |}.

(** A platform for the examples: only the text 127.0.0.1 parses as an
    address, a default-constructed address holds 0, every bind succeeds, and
    a listener answers on port 4000 of every address. *)
Definition example_platform : SocketSubsystem :=
  {| FIPv4Address_Parse := fun IP => if String.eqb IP "127.0.0.1" then Some 2130706433%Z else None;
     FIPv4Address_default := 0%Z;
     Build := fun _ => Some (socket_with []);
     FSocket_Connect := fun _ _ port => (port =? 4000)%Z |}.

(** A handle whose resource is absent: the pointer to the handle is null, or
    the handle's own pointer is. *)
Definition invalid_handle (JSONHandle : option UJSONHandle) : Prop :=
  JSONHandle = None \/ JSONHandle = Some {| JSONObject := None |}.

Definition invalid_value (JSONValue_ : option UJSONValue) : Prop :=
  JSONValue_ = None \/ JSONValue_ = Some {| JSONValue := None |}.

Definition invalid_connection (Connection : option USocket) : Prop :=
  Connection = None \/ Connection = Some {| _Socket := None |}.

(** [w] sits directly below [v]: it is an element of the array [v], or the
    value of a field of the object [v] points to.  [tc (directly_below heap)]
    is then "somewhere below". *)
Definition directly_below (heap : Heap) (v w : FJsonValue) : Prop :=
  match v with
  | FJsonValueArray a => w ∈ a
  | FJsonValueObject (Some o) =>
      exists (Values : gmap string FJsonValue) k, heap !! o = Some Values /\ Values !! k = Some w
  | _ => False
  end.






(** The heading [EvenniaPrintJSONArray] has for an array below the top level,
    and the line it logs for an array without elements. *)
Definition Nested_element_heading : LogLine :=
  UE_LOG "UEvenniaPluginBPLibrary::PrintJSONArray: Nested element:" [].

Definition empty_array_line : LogLine :=
  UE_LOG "UEvenniaPluginBPLibrary::EvenniaParseString: null pointer detected" [].

(** A text all of whose characters are ASCII characters other than NUL, and a
    text without a NUL that has a character outside ASCII. *)
Definition ascii_text (s : FString) : Prop :=
  Forall (fun c => (0 < c < 128)%Z) (code_units s).

Definition wide_text (s : FString) : Prop :=
  Forall (fun c => (0 < c)%Z) (code_units s) /\ Exists (fun c => (128 <= c)%Z) (code_units s).

(** A valid handle to the object at an address. *)
Definition handle_to (o : oid) : option UJSONHandle := Some {| JSONObject := Some o |}.

(** No object and no field of [heap] is missing from [heap']. *)
Definition fields_kept (heap heap' : Heap) : Prop :=
  forall o (Values : gmap string FJsonValue),
    heap !! o = Some Values ->
    exists Values' : gmap string FJsonValue,
      heap' !! o = Some Values' /\ dom Values ⊆ dom Values'.

(** ** An engine to run the model on examples

    A small engine that fills the [JsonEngine] interface: escape sequences
    are replaced one kind after the other, documents are written as compact
    JSON text, and texts are read back by a recursive-descent reader that
    creates every object it reads at a fresh address.  It is used by the
    examples below; the properties are proved for every engine. *)

Definition dquote : ascii := ascii_of_nat 34.

Definition char (c : ascii) : string := String c EmptyString.

(** [FString::ReplaceInline] over a string of at most [fuel] characters. *)
Fixpoint replace_all (fuel : nat) (From To Source : string) : string :=
  match fuel with
  | O => Source
  | S fuel' =>
      match Source with
      | EmptyString => EmptyString
      | String c rest =>
          if String.prefix From Source
          then To +:+ replace_all fuel' From To
                        (String.substring (String.length From) (String.length Source) Source)
          else String c (replace_all fuel' From To rest)
      end
  end.

Definition ReplaceInline (From To Source : string) : string :=
  replace_all (String.length Source) From To Source.

Definition replace_escapes (s : FString) : FString :=
  let s := ReplaceInline (String backslash (char dquote)) (char dquote) s in
  let s := ReplaceInline (String backslash "'") "'" s in
  let s := ReplaceInline (String backslash "t") (char (ascii_of_nat 9)) s in
  let s := ReplaceInline (String backslash "r") (char (ascii_of_nat 13)) s in
  let s := ReplaceInline (String backslash "n") (char (ascii_of_nat 10)) s in
  ReplaceInline (String backslash (char backslash)) (char backslash) s.

(** Numbers as exact decimal text: a finite binary64 value is [m * 2^e], which
    for a negative [e] is [(m * 5^(-e)) * 10^e]. *)
Fixpoint trailing_zero_bits (p : positive) : Z :=
  match p with
  | xO p' => (1 + trailing_zero_bits p')%Z
  | _ => 0%Z
  end.

Definition decimal (z : Z) : string := NilZero.string_of_int (Z.to_int z).

Definition decimal_of_float (d : double) : string :=
  match Prim2SF d with
  | S754_zero _ => "0"
  | S754_finite s m e =>
      let k := Z.min (trailing_zero_bits m) (Z.max 0 (- e)) in
      let m := (Z.pos m / 2 ^ k)%Z in
      let e := (e + k)%Z in
      let sign := if s then "-" else "" in
      if (0 <=? e)%Z then sign +:+ decimal (m * 2 ^ e)
      else sign +:+ decimal (m * 5 ^ (- e)) +:+ "e" +:+ decimal e
  | _ => "null"
  end.

(** The binary64 value nearest to [M * 10^E]; exact whenever a binary64 value
    equals it. *)
Definition float_of_Z (z : Z) : double := SF2Prim (binary_normalize 53 1024 z 0 false).

Definition float_of_decimal (M E : Z) : double :=
  if (0 <=? E)%Z then float_of_Z (M * 10 ^ E)
  else if (M mod 5 ^ (- E) =? 0)%Z
       then SF2Prim (binary_normalize 53 1024 (M / 5 ^ (- E)) E false)
       else PrimFloat.div (float_of_Z M) (float_of_Z (10 ^ (- E))).

(** The narrowing conversion: round to 24 bits of precision. *)
Definition round_to_float (d : double) : float32 :=
  match Prim2SF d with
  | S754_finite s m e =>
      SF2Prim (binary_normalize 24 128 (if s then Z.neg m else Z.pos m) e s)
  | _ => d
  end.

Definition number_of_value (v : FJsonValue) : option double :=
  match v with
  | FJsonValueNumber d => Some d
  | FJsonValueBoolean b => Some (if b then 1%float else 0%float)
  | _ => None
  end.

(** *** Writing *)

Definition hex_digit (n : nat) : ascii :=
  nth n (list_ascii_of_string "0123456789abcdef") "0"%char.

Fixpoint escaped (s : string) : string :=
  match s with
  | EmptyString => EmptyString
  | String c rest =>
      let n := nat_of_ascii c in
      (if Ascii.eqb c dquote then String backslash (char dquote)
       else if Ascii.eqb c backslash then String backslash (char backslash)
       else if Nat.ltb n 32 then
         String backslash "u00" +:+ String (hex_digit (n / 16)) (char (hex_digit (n mod 16)))
       else char c) +:+ escaped rest
  end.

Definition write_string (s : string) : string :=
  String dquote (escaped s) +:+ char dquote.

Fixpoint write (d : JsonDoc) : string :=
  match d with
  | DNone => "null"
  | DNull => "null"
  | DString s => write_string s
  | DNumber x => decimal_of_float x
  | DBoolean b => if b then "true" else "false"
  | DArray elems =>
      "[" +:+ (fix elements (l : list JsonDoc) : string :=
                 match l with
                 | [] => ""
                 | [e] => write e
                 | e :: l' => write e +:+ "," +:+ elements l'
                 end) elems +:+ "]"
  | DObject None => "null"
  | DObject (Some fields) =>
      "{" +:+ (fix members (l : list (string * JsonDoc)) : string :=
                 match l with
                 | [] => ""
                 | [(k, e)] => write_string k +:+ ":" +:+ write e
                 | (k, e) :: l' => write_string k +:+ ":" +:+ write e +:+ "," +:+ members l'
                 end) fields +:+ "}"
  end.

(** *** Reading *)

Definition is_space (c : ascii) : bool :=
  let n := nat_of_ascii c in
  Nat.eqb n 32 || Nat.eqb n 9 || Nat.eqb n 10 || Nat.eqb n 13.

Fixpoint skip_space (s : string) : string :=
  match s with
  | String c rest => if is_space c then skip_space rest else s
  | EmptyString => EmptyString
  end.

Definition hex_value (c : ascii) : option nat :=
  let n := nat_of_ascii c in
  if Nat.leb 48 n && Nat.leb n 57 then Some (n - 48)
  else if Nat.leb 97 n && Nat.leb n 102 then Some (n - 87)
  else if Nat.leb 65 n && Nat.leb n 70 then Some (n - 55)
  else None.

(** The characters of a string literal after its opening quote, and the rest
    of the text after its closing quote. *)
Fixpoint read_string (s : string) : option (string * string) :=
  match s with
  | EmptyString => None
  | String c rest =>
      if Ascii.eqb c dquote then Some (EmptyString, rest)
      else if Ascii.eqb c backslash then
        match rest with
        | String e rest =>
            if Ascii.eqb e "u" then
              match rest with
              | String h1 (String h2 (String h3 (String h4 rest))) =>
                  a ← hex_value h1; b ← hex_value h2; c ← hex_value h3; d ← hex_value h4;
                  let code := ((a * 16 + b) * 16 + c) * 16 + d in
                  '(body, rest) ← read_string rest;
                  Some (String (if Nat.ltb code 256 then ascii_of_nat code else "?"%char) body, rest)
              | _ => None
              end
            else
              let plain :=
                if Ascii.eqb e "n" then Some (ascii_of_nat 10)
                else if Ascii.eqb e "r" then Some (ascii_of_nat 13)
                else if Ascii.eqb e "t" then Some (ascii_of_nat 9)
                else if Ascii.eqb e "b" then Some (ascii_of_nat 8)
                else if Ascii.eqb e "f" then Some (ascii_of_nat 12)
                else if Ascii.eqb e dquote || Ascii.eqb e backslash || Ascii.eqb e "/" then Some e
                else None in
              x ← plain;
              '(body, rest) ← read_string rest;
              Some (String x body, rest)
        | EmptyString => None
        end
      else
        '(body, rest) ← read_string rest;
        Some (String c body, rest)
  end.

Definition is_digit (c : ascii) : bool :=
  let n := nat_of_ascii c in Nat.leb 48 n && Nat.leb n 57.

(** The digits a text starts with: their value, their number, and the rest. *)
Fixpoint read_digits (s : string) (value : Z) (count : Z) : Z * Z * string :=
  match s with
  | String c rest =>
      if is_digit c
      then read_digits rest (value * 10 + Z.of_nat (nat_of_ascii c - 48))%Z (count + 1)%Z
      else (value, count, s)
  | EmptyString => (value, count, s)
  end.

Definition read_sign (s : string) : bool * string :=
  match s with
  | String c rest =>
      if Ascii.eqb c "-" then (true, rest)
      else if Ascii.eqb c "+" then (false, rest)
      else (false, s)
  | EmptyString => (false, s)
  end.

Definition read_number (s : string) : option (double * string) :=
  let '(negative, s) := read_sign s in
  let '(whole, n, s) := read_digits s 0%Z 0%Z in
  if (n =? 0)%Z then None
  else
    let '(mantissa, fraction, s) :=
      match s with
      | String "."%char rest => let '(m, k, rest) := read_digits rest whole 0%Z in (m, k, rest)
      | _ => (whole, 0%Z, s)
      end in
    let '(exponent, s) :=
      match s with
      | String c rest =>
          if Ascii.eqb c "e" || Ascii.eqb c "E" then
            let '(minus, rest) := read_sign rest in
            let '(e, _, rest) := read_digits rest 0%Z 0%Z in
            ((if minus then - e else e)%Z, rest)
          else (0%Z, s)
      | EmptyString => (0%Z, s)
      end in
    let x := float_of_decimal mantissa (exponent - fraction) in
    Some (if negative then PrimFloat.opp x else x, s).

Definition after (Prefix s : string) : option string :=
  if String.prefix Prefix s
  then Some (String.substring (String.length Prefix) (String.length s) s)
  else None.

(** One value, the elements of an array after its bracket, the members of an
    object after its brace. *)
Fixpoint read_value (fuel : nat) (s : string) : option (JsonDoc * string) :=
  match fuel with
  | O => None
  | S fuel =>
      let s := skip_space s in
      match s with
      | EmptyString => None
      | String c rest =>
          if Ascii.eqb c "{" then
            match skip_space rest with
            | String "}"%char rest => Some (DObject (Some []), rest)
            | rest => '(fields, rest) ← read_members fuel rest; Some (DObject (Some fields), rest)
            end
          else if Ascii.eqb c "[" then
            match skip_space rest with
            | String "]"%char rest => Some (DArray [], rest)
            | rest => '(elems, rest) ← read_elements fuel rest; Some (DArray elems, rest)
            end
          else if Ascii.eqb c dquote then
            '(body, rest) ← read_string rest; Some (DString body, rest)
          else
            match after "true" s, after "false" s, after "null" s with
            | Some rest, _, _ => Some (DBoolean true, rest)
            | _, Some rest, _ => Some (DBoolean false, rest)
            | _, _, Some rest => Some (DNull, rest)
            | _, _, _ => '(x, rest) ← read_number s; Some (DNumber x, rest)
            end
      end
  end
with read_elements (fuel : nat) (s : string) : option (list JsonDoc * string) :=
  match fuel with
  | O => None
  | S fuel =>
      '(e, rest) ← read_value fuel s;
      match skip_space rest with
      | String ","%char rest => '(es, rest) ← read_elements fuel rest; Some (e :: es, rest)
      | String "]"%char rest => Some ([e], rest)
      | _ => None
      end
  end
with read_members (fuel : nat) (s : string) : option (list (string * JsonDoc) * string) :=
  match fuel with
  | O => None
  | S fuel =>
      match skip_space s with
      | String c rest =>
          if Ascii.eqb c dquote then
            '(k, rest) ← read_string rest;
            match skip_space rest with
            | String ":"%char rest =>
                '(e, rest) ← read_value fuel rest;
                match skip_space rest with
                | String ","%char rest =>
                    '(ms, rest) ← read_members fuel rest; Some ((k, e) :: ms, rest)
                | String "}"%char rest => Some ([(k, e)], rest)
                | _ => None
                end
            | _ => None
            end
          else None
      | EmptyString => None
      end
  end.

(** A whole text: one value and nothing but space after it. *)
Definition read (s : string) : option JsonDoc :=
  '(d, rest) ← read_value (2 * String.length s + 2) s;
  match skip_space rest with
  | EmptyString => Some d
  | _ => None
  end.

(** The tree of a document on the heap: every object of the document becomes
    a new object at a fresh address; a key written twice keeps the later
    value. *)
Fixpoint build (d : JsonDoc) (heap : Heap) : Heap * FJsonValue :=
  match d with
  | DNone => (heap, FJsonValueNone)
  | DNull => (heap, FJsonValueNull)
  | DString s => (heap, FJsonValueString s)
  | DNumber x => (heap, FJsonValueNumber x)
  | DBoolean b => (heap, FJsonValueBoolean b)
  | DArray elems =>
      let '(heap, Array) :=
        (fix elements (l : list JsonDoc) (heap : Heap) : Heap * list FJsonValue :=
           match l with
           | [] => (heap, [])
           | e :: l' =>
               let '(heap, v) := build e heap in
               let '(heap, vs) := elements l' heap in
               (heap, v :: vs)
           end) elems heap in
      (heap, FJsonValueArray Array)
  | DObject None => (heap, FJsonValueObject None)
  | DObject (Some fields) =>
      let '(heap, Values) :=
        (fix members (l : list (string * JsonDoc)) (heap : Heap) (Values : gmap string FJsonValue)
           : Heap * gmap string FJsonValue :=
           match l with
           | [] => (heap, Values)
           | (k, e) :: l' =>
               let '(heap, v) := build e heap in
               members l' heap (<[k := v]> Values)
           end) fields heap ∅ in
      let o := fresh (dom heap) in
      (<[o := Values]> heap, FJsonValueObject (Some o))
  end.

Definition read_object (text : FString) (heap : Heap) : option (Heap * positive) :=
  d ← read text;
  match d with
  | DObject (Some _) =>
      match build d heap with
      | (heap, FJsonValueObject (Some o)) => Some (heap, o)
      | _ => None
      end
  | _ => None
  end.

Definition read_array (text : FString) (heap : Heap) : option (Heap * list FJsonValue) :=
  d ← read text;
  match d with
  | DArray _ =>
      match build d heap with
      | (heap, FJsonValueArray Array) => Some (heap, Array)
      | _ => None
      end
  | _ => None
  end.

Lemma replace_all_plain (fuel : nat) (From' To s : string) :
  has_backslash s = false -> replace_all fuel (String backslash From') To s = s.
Proof.
  revert s. induction fuel as [|fuel IH]; intros s Hs; [reflexivity|].
  destruct s as [|c rest]; [reflexivity|].
  assert (Hc : Ascii.eqb backslash c = false /\ has_backslash rest = false).
  { apply orb_false_elim. exact Hs. }
  destruct Hc as [Hc Hrest].
  change (replace_all (S fuel) (String backslash From') To (String c rest))
    with (if (if ascii_dec backslash c then String.prefix From' rest else false)
          then To +:+ replace_all fuel (String backslash From') To
                        (String.substring (String.length (String backslash From'))
                           (String.length (String c rest)) (String c rest))
          else String c (replace_all fuel (String backslash From') To rest)).
  destruct (ascii_dec backslash c) as [Heq|Hne].
  - rewrite Heq, Ascii.eqb_refl in Hc. discriminate.
  - rewrite IH by exact Hrest. reflexivity.
Qed.

Lemma replace_escapes_plain (s : string) :
  has_backslash s = false -> replace_escapes s = s.
Proof.
  intros Hs. unfold replace_escapes, ReplaceInline.
  repeat rewrite (replace_all_plain _ _ _ s Hs). reflexivity.
Qed.

#[local] Instance example_engine : JsonEngine :=
  {| EMPTY_OBJECT := None;
     SanitizeFloat := decimal_of_float;
     TryGetNumber := number_of_value;
     float_of_double := round_to_float;
     ReplaceEscapedCharWithChar := replace_escapes;
     GenerateKeyArray := fun _ Values => (map_to_list Values).*1;
     Writer := write;
     Deserialize := read_object;
     DeserializeArray := read_array;
     ReplaceEscapedCharWithChar_plain := replace_escapes_plain;
     GenerateKeyArray_keys := fun _ _ => reflexivity _ |}.

(** A structure built with the construction functions: a player with a name
    and hit points, a bag object with an item, and a list that holds the bag.
    The player is the first object made, at address 1, the bag the second,
    at address 2. *)
Definition player : UJSONHandle := snd (EvenniaNewJSONObject ∅).

Definition bag : UJSONHandle := snd (EvenniaNewJSONObject (fst (EvenniaNewJSONObject ∅))).

Definition heap_objects : Heap := fst (EvenniaNewJSONObject (fst (EvenniaNewJSONObject ∅))).

Definition heap_fields : Heap :=
  let heap := EvenniaAddJSONElement heap_objects (Some player) "name" "Ann" in
  let heap := EvenniaAddJSONNumericElement heap (Some player) "hp" 10.5%float in
  EvenniaAddJSONElement heap (Some bag) "item" "sword".

Definition heap_bag : Heap := EvenniaAddJSONObject heap_fields (Some player) "bag" (Some bag).

Definition bag_list : option UJSONHandleArray :=
  EvenniaAddJSONObjectToArray (Some EvenniaNewJSONObjectArray) (Some bag).

Definition player_heap : Heap :=
  EvenniaAddJSONArrayToObject heap_bag (Some player) "list" bag_list.

(** * Properties *)

(** ** Type tags *)

Lemma static_cast_EJsonType_value (e : EJson.t) :
  EJsonType.value (static_cast_EJsonType e) = EJson.value e.
Proof. destruct e; reflexivity. Qed.

Lemma static_cast_EJsonType_same_name (e : EJson.t) :
  static_cast_EJsonType e = same_name e.
Proof. destruct e; reflexivity. Qed.

Lemma EJsonType_value_inj (a b : EJsonType.t) :
  EJsonType.value a = EJsonType.value b -> a = b.
Proof. destruct a, b; simpl; intros H; first [reflexivity | discriminate H]. Qed.

(** C7.  On a valid value handle, whatever the caller's variable held,
    [EvenniaGetJSONValueType] outputs the enumerator of [EJsonType] named like
    the tag of the value held; spelled out for one value of each of the seven
    tags. *)
Theorem EvenniaGetJSONValueType_tag :
  (forall (v : FJsonValue) (JsonType : EJsonType.t),
      EvenniaGetJSONValueType (Some {| JSONValue := Some v |}) JsonType
      = same_name (FJsonValue_Type v))
  /\ (forall (JsonType : EJsonType.t) s d b a o,
        let get v := EvenniaGetJSONValueType (Some {| JSONValue := Some v |}) JsonType in
        get FJsonValueNone = EJsonType.None
        /\ get FJsonValueNull = EJsonType.Null
        /\ get (FJsonValueString s) = EJsonType.String
        /\ get (FJsonValueNumber d) = EJsonType.Number
        /\ get (FJsonValueBoolean b) = EJsonType.Boolean
        /\ get (FJsonValueArray a) = EJsonType.Array
        /\ get (FJsonValueObject o) = EJsonType.Object).
Proof.
  split.
  - intros v JsonType. unfold EvenniaGetJSONValueType.
    apply static_cast_EJsonType_same_name.
  - intros; repeat split; reflexivity.
Qed.

(** ** Indexed access into an array handle *)

Lemma TArray_at_in_range {A} (Array : list A) (Index : Z) :
  (0 <= Index < Num Array)%Z ->
  exists x, Array !! Z.to_nat Index = Some x /\ TArray_at Array Index = Returns x.
Proof.
  unfold Num, TArray_at. intros [Hlo Hhi].
  destruct (Array !! Z.to_nat Index) as [x|] eqn:Hx.
  - exists x. split; [reflexivity|].
    destruct (0 <=? Index)%Z eqn:H0; [reflexivity|]. apply Z.leb_gt in H0. lia.
  - apply lookup_ge_None in Hx. lia.
Qed.

Lemma TArray_at_negative {A} (Array : list A) (p : positive) :
  TArray_at Array (Z.neg p) = Aborts ArrayIndexOutOfBounds.
Proof. reflexivity. Qed.

Lemma TArray_at_beyond {A} (Array : list A) (n : nat) :
  TArray_at Array (Num Array + Z.of_nat n) = Aborts ArrayIndexOutOfBounds.
Proof.
  unfold TArray_at, Num.
  destruct (0 <=? _)%Z; [|reflexivity].
  replace (Z.to_nat (Z.of_nat (length Array) + Z.of_nat n)) with (length Array + n) by lia.
  rewrite (proj2 (lookup_ge_None Array (length Array + n))); [reflexivity | lia].
Qed.

Section IndexedAccess.
Context {engine : JsonEngine}.

(** C2.  What the three indexed readers do at indices outside the array:
    [EvenniaGetJSONObjectFromArray] lets the index equal to the length through
    its test and reaches the element access, which aborts; none of the three
    rejects a negative index; [EvenniaGetJSONObjectType] tests nothing, so it
    aborts at every index from the length on as well. *)
Theorem indexed_access_out_of_range (arr : UJSONHandleArray) :
  (forall Success,
      EvenniaGetJSONObjectFromArray (Some arr) (Num (JSONObjectArray arr)) Success
      = Aborts ArrayIndexOutOfBounds)
  /\ (forall p Success,
        EvenniaGetJSONObjectFromArray (Some arr) (Z.neg p) Success
        = Aborts ArrayIndexOutOfBounds)
  /\ (forall heap p Name Value,
        EvenniaGetJSONElementMultiple heap (Some arr) (Z.neg p) Name Value
        = Aborts ArrayIndexOutOfBounds)
  /\ (forall p JsonType,
        EvenniaGetJSONObjectType (Some arr) (Z.neg p) JsonType
        = Aborts ArrayIndexOutOfBounds)
  /\ (forall n JsonType,
        EvenniaGetJSONObjectType (Some arr) (Num (JSONObjectArray arr) + Z.of_nat n) JsonType
        = Aborts ArrayIndexOutOfBounds).
Proof.
  split; [|split; [|split; [|split]]].
  - intros Success. unfold EvenniaGetJSONObjectFromArray.
    rewrite Z.leb_refl.
    replace (Num (JSONObjectArray arr)) with (Num (JSONObjectArray arr) + Z.of_nat 0)%Z at 1
      by (simpl; lia).
    rewrite TArray_at_beyond. reflexivity.
  - intros p Success. unfold EvenniaGetJSONObjectFromArray.
    destruct (Z.neg p <=? Num (JSONObjectArray arr))%Z eqn:Hle.
    + reflexivity.
    + apply Z.leb_gt in Hle. unfold Num in Hle. lia.
  - intros heap p Name Value. unfold EvenniaGetJSONElementMultiple.
    destruct (Z.neg p <=? Num (JSONObjectArray arr) - 1)%Z eqn:Hle.
    + reflexivity.
    + apply Z.leb_gt in Hle. unfold Num in Hle. lia.
  - intros p JsonType. reflexivity.
  - intros n JsonType. unfold EvenniaGetJSONObjectType.
    rewrite TArray_at_beyond. reflexivity.
Qed.

(** The smallest instance: a handle fresh from [EvenniaNewJSONObjectArray]
    read at index 0. *)
Example EvenniaGetJSONObjectFromArray_empty_at_0 :
  EvenniaGetJSONObjectFromArray (Some EvenniaNewJSONObjectArray) 0 false
  = Aborts ArrayIndexOutOfBounds.
Proof. reflexivity. Qed.

(** Inside the array the three readers return. *)
Lemma EvenniaGetJSONObjectFromArray_in_range (arr : UJSONHandleArray) (Index : Z) (Success : bool) :
  (0 <= Index < Num (JSONObjectArray arr))%Z ->
  exists elem, JSONObjectArray arr !! Z.to_nat Index = Some elem
    /\ EvenniaGetJSONObjectFromArray (Some arr) Index Success
       = Returns (Some {| JSONObject := AsObject elem |}, true).
Proof.
  intros Hin. destruct (TArray_at_in_range _ _ Hin) as (elem & Hel & Hat).
  exists elem. split; [exact Hel|].
  unfold EvenniaGetJSONObjectFromArray. rewrite Hat.
  destruct (Index <=? Num (JSONObjectArray arr))%Z eqn:Hle; [reflexivity|].
  apply Z.leb_gt in Hle. lia.
Qed.

Lemma EvenniaGetJSONObjectType_in_range (arr : UJSONHandleArray) (Index : Z) (JsonType : EJsonType.t) :
  (0 <= Index < Num (JSONObjectArray arr))%Z ->
  exists elem, JSONObjectArray arr !! Z.to_nat Index = Some elem
    /\ EvenniaGetJSONObjectType (Some arr) Index JsonType
       = Returns (same_name (FJsonValue_Type elem)).
Proof.
  intros Hin. destruct (TArray_at_in_range _ _ Hin) as (elem & Hel & Hat).
  exists elem. split; [exact Hel|].
  unfold EvenniaGetJSONObjectType. rewrite Hat, static_cast_EJsonType_same_name. reflexivity.
Qed.

(** [EvenniaGetJSONElementMultiple] is the one reader whose test keeps every
    index from the length on away from the element access. *)
Lemma EvenniaGetJSONElementMultiple_beyond heap (arr : UJSONHandleArray) (Index : Z) Name Value :
  (Num (JSONObjectArray arr) <= Index)%Z ->
  EvenniaGetJSONElementMultiple heap (Some arr) Index Name Value = Returns "".
Proof.
  intros Hge. unfold EvenniaGetJSONElementMultiple.
  destruct (Index <=? Num (JSONObjectArray arr) - 1)%Z eqn:Hle; [|reflexivity].
  apply Z.leb_le in Hle. lia.
Qed.

End IndexedAccess.

(** ** The type-keyed view of an array *)

Lemma length_remove_dups_le `{EqDecision A} (l : list A) :
  length (remove_dups l) <= length l.
Proof.
  induction l as [|x l IH]; simpl; [lia|].
  destruct (decide_rel elem_of x l); simpl; lia.
Qed.

Lemma length_remove_dups_lt `{EqDecision A} (l : list A) :
  ~ NoDup l -> length (remove_dups l) < length l.
Proof.
  induction l as [|x l IH]; intros Hdup.
  - destruct Hdup. constructor.
  - simpl. destruct (decide_rel elem_of x l) as [Hin|Hnin].
    + pose proof (length_remove_dups_le l). lia.
    + simpl. apply Nat.succ_lt_mono with (n := length (remove_dups l)) (m := length l).
      apply IH. intros Hnd. apply Hdup. constructor; assumption.
Qed.

Lemma size_list_to_set_remove_dups (l : list EJsonType.t) :
  size (list_to_set l : gset EJsonType.t) = length (remove_dups l).
Proof.
  rewrite <- (size_list_to_set (C := gset EJsonType.t) (remove_dups l))
    by apply NoDup_remove_dups.
  f_equal. apply set_eq. intros x.
  rewrite !elem_of_list_to_set, elem_of_remove_dups. reflexivity.
Qed.

Lemma EJsonType_all_complete (e : EJsonType.t) : e ∈ EJsonType.all.
Proof. unfold EJsonType.all. destruct e; set_solver. Qed.

Lemma distinct_tags_le_7 (l : list EJsonType.t) : length (remove_dups l) <= 7.
Proof.
  change 7 with (length EJsonType.all).
  apply submseteq_length, NoDup_submseteq.
  - apply NoDup_remove_dups.
  - intros x _. apply EJsonType_all_complete.
Qed.

Lemma TypesAndValues_dom (m : gmap EJsonType.t UJSONValue) (l : list FJsonValue) :
  dom (foldl TypesAndValues_step m l) = dom m ∪ list_to_set (tags l).
Proof.
  revert m. induction l as [|x l IH]; intros m.
  - simpl. rewrite (right_id_L ∅ (∪)). reflexivity.
  - change (foldl TypesAndValues_step m (x :: l))
      with (foldl TypesAndValues_step (TypesAndValues_step m x) l).
    rewrite IH. unfold TypesAndValues_step. rewrite dom_insert_L.
    change (tags (x :: l)) with (tag_of x :: tags l).
    rewrite list_to_set_cons. fold (tag_of x).
    rewrite (comm_L (∪) {[tag_of x]} (dom m)), (assoc_L (∪)). reflexivity.
Qed.

Lemma TypesAndValues_lookup (l : list FJsonValue) (tag : EJsonType.t) :
  foldl TypesAndValues_step ∅ l !! tag
  = (fun v => {| JSONValue := Some v |}) <$> last (filter (fun v => tag_of v = tag) l).
Proof.
  induction l as [|x l IH] using rev_ind; [reflexivity|].
  rewrite foldl_snoc, filter_app. unfold TypesAndValues_step at 1.
  fold (tag_of x).
  destruct (decide (tag_of x = tag)) as [Heq|Hne].
  - rewrite Heq, lookup_insert_eq.
    rewrite filter_cons_True by exact Heq. rewrite filter_nil, last_snoc. reflexivity.
  - rewrite lookup_insert_ne by exact Hne.
    rewrite filter_cons_False by exact Hne. rewrite filter_nil, app_nil_r. exact IH.
Qed.

Lemma length_tags (l : list FJsonValue) : length (tags l) = length l.
Proof. unfold tags. apply length_fmap. Qed.

Lemma shared_tag_not_NoDup (l : list FJsonValue) i j a b :
  i <> j -> l !! i = Some a -> l !! j = Some b -> tag_of a = tag_of b -> ~ NoDup (tags l).
Proof.
  intros Hij Ha Hb Hab Hnd. apply Hij.
  apply (proj1 (NoDup_alt (tags l)) Hnd i j (tag_of a)); unfold tags.
  - rewrite list_lookup_fmap, Ha. reflexivity.
  - rewrite list_lookup_fmap, Hb, Hab. reflexivity.
Qed.

(** C10.  [EvenniaGetJSONArrayTypesAndValues] keys its output by type tag: under
    each tag the map holds the last element of the array that has this tag
    and nothing else; [ElementCount] is the number of distinct tags in the
    array, at most 7 and at most the length, and strictly below the length as
    soon as two positions hold elements of one tag; a null handle gives the
    empty map and 0. *)
Theorem EvenniaGetJSONArrayTypesAndValues_by_tag (arr : UJSONHandleArray) :
  let TypesAndValues := fst (EvenniaGetJSONArrayTypesAndValues (Some arr)) in
  let ElementCount := snd (EvenniaGetJSONArrayTypesAndValues (Some arr)) in
  (forall tag,
      TypesAndValues !! tag
      = (fun v => {| JSONValue := Some v |})
          <$> last (filter (fun v => tag_of v = tag) (JSONObjectArray arr)))
  /\ ElementCount = Z.of_nat (length (remove_dups (tags (JSONObjectArray arr))))
  /\ (0 <= ElementCount <= 7)%Z
  /\ (ElementCount <= Num (JSONObjectArray arr))%Z
  /\ (forall i j a b,
        i <> j ->
        JSONObjectArray arr !! i = Some a -> JSONObjectArray arr !! j = Some b ->
        tag_of a = tag_of b ->
        (ElementCount < Num (JSONObjectArray arr))%Z)
  /\ EvenniaGetJSONArrayTypesAndValues None = (∅, 0%Z).
Proof.
  set (l := JSONObjectArray arr).
  assert (Hcount : snd (EvenniaGetJSONArrayTypesAndValues (Some arr))
                   = Z.of_nat (length (remove_dups (tags l)))).
  { unfold EvenniaGetJSONArrayTypesAndValues. simpl. fold l.
    rewrite <- size_dom, TypesAndValues_dom, dom_empty_L, (left_id_L ∅ (∪)).
    rewrite size_list_to_set_remove_dups. reflexivity. }
  cbv zeta. rewrite Hcount.
  split; [|split; [|split; [|split; [|split]]]].
  - intros tag. apply TypesAndValues_lookup.
  - reflexivity.
  - generalize (distinct_tags_le_7 (tags l)). lia.
  - generalize (length_remove_dups_le (tags l)). rewrite length_tags.
    unfold Num. fold l. lia.
  - intros i j a b Hij Ha Hb Hab.
    generalize (length_remove_dups_lt (tags l)
                  (shared_tag_not_NoDup l i j a b Hij Ha Hb Hab)).
    rewrite length_tags. unfold Num. fold l. lia.
  - reflexivity.
Qed.

(** C10 at an array of three elements, two of them strings: two tags are
    counted and the later string is the one kept. *)
Lemma EvenniaGetJSONArrayTypesAndValues_by_tag_witness :
  let arr := {| JSONObjectArray :=
                 [FJsonValueString "a"; FJsonValueNull; FJsonValueString "b"] |} in
  snd (EvenniaGetJSONArrayTypesAndValues (Some arr)) = 2%Z
  /\ fst (EvenniaGetJSONArrayTypesAndValues (Some arr)) !! EJsonType.String
     = Some {| JSONValue := Some (FJsonValueString "b") |}
  /\ (snd (EvenniaGetJSONArrayTypesAndValues (Some arr)) < 3)%Z.
Proof.
  intros arr.
  destruct (EvenniaGetJSONArrayTypesAndValues_by_tag arr)
    as (Hlookup & Hcount & _ & _ & Hshare & _).
  split; [|split].
  - rewrite Hcount. reflexivity.
  - rewrite Hlookup. reflexivity.
  - apply (Hshare 0 2 (FJsonValueString "a") (FJsonValueString "b")).
    + discriminate.
    + reflexivity.
    + reflexivity.
    + reflexivity.
Defined.

(** ** Connect *)

Section ConnectProperties.
Context {platform : SocketSubsystem}.

(** C3 (amended).  [Connect] fails, with a null connection, exactly when the
    socket cannot be built or its handshake does not complete; otherwise it
    succeeds with a connection around the socket built.  Whether the text
    parsed as an address only decides which address is used: the parsed one,
    or what a default-constructed address holds. *)
Theorem Connect_outcome (IP : FString) (port : Z) :
  let ipv4ip := default FIPv4Address_default (FIPv4Address_Parse IP) in
  (Connect IP port = (None, false)
   <-> (Build ipv4ip = None
        \/ exists sock, Build ipv4ip = Some sock /\ FSocket_Connect sock ipv4ip port = false))
  /\ (forall sock,
        Build ipv4ip = Some sock -> FSocket_Connect sock ipv4ip port = true ->
        Connect IP port = (Some {| _Socket := Some sock |}, true))
  /\ (Connect IP port = (None, false)
      \/ exists sock, Build ipv4ip = Some sock
                      /\ Connect IP port = (Some {| _Socket := Some sock |}, true)).
Proof.
  intros ipv4ip. unfold Connect. fold ipv4ip.
  destruct (Build ipv4ip) as [sock|] eqn:HB.
  - destruct (FSocket_Connect sock ipv4ip port) eqn:HC; simpl.
    + split; [split|split].
      * discriminate.
      * intros [Hnone | (sock' & Hs & Hf)]; [discriminate|].
        injection Hs as <-. congruence.
      * intros sock' Hs _. injection Hs as <-. reflexivity.
      * right. exists sock. split; reflexivity.
    + split; [split|split].
      * intros _. right. exists sock. split; [reflexivity | exact HC].
      * reflexivity.
      * intros sock' Hs Ht. injection Hs as <-. congruence.
      * left. reflexivity.
  - simpl. split; [split|split].
    + intros _. left. reflexivity.
    + reflexivity.
    + intros sock Hs. discriminate.
    + left. reflexivity.
Qed.

End ConnectProperties.

(** C3 on the example platform: the address 127.0.0.1 with the listening
    port connects, with any other port it does not. *)
Lemma Connect_outcome_witness :
  @Connect example_platform "127.0.0.1" 4000 = (Some {| _Socket := Some (socket_with []) |}, true)
  /\ @Connect example_platform "127.0.0.1" 4001 = (None, false).
Proof.
  split.
  - apply (proj1 (proj2 (@Connect_outcome example_platform "127.0.0.1" 4000))); reflexivity.
  - apply (proj1 (@Connect_outcome example_platform "127.0.0.1" 4001)).
    right. exists (socket_with []). split; reflexivity.
Defined.

(** C3 as stated fails: a text that does not parse as an address does not
    make [Connect] fail.  On the example platform the connection is then made
    to the address 0. *)
Lemma Connect_unparsed_address_succeeds :
  @FIPv4Address_Parse example_platform "not an address" = None
  /\ @Connect example_platform "not an address" 4000
     = (Some {| _Socket := Some (socket_with []) |}, true).
Proof. split; reflexivity. Qed.

(** ** GetMessage *)

Lemma GetMessage_loop_empty (s : FSocket) (buf : list byte) :
  Pending s = [] -> GetMessage_loop s buf = (s, buf).
Proof.
  intros He. rewrite GetMessage_loop_equation_1.
  destruct s as [pending sent ok open]. simpl in He. subst pending. reflexivity.
Qed.

Lemma GetMessage_loop_step (s : FSocket) (buf : list byte) :
  Pending s <> [] ->
  let Size := Z.of_nat (length (Pending s)) in
  GetMessage_loop s buf
  = GetMessage_loop (Recv_socket s (Z.min Size 65507))
      (received (Recv_data s (Z.min Size 65507)) (Init x00 (Z.min Size 65507))).
Proof.
  intros Hne Size. rewrite GetMessage_loop_equation_1. subst Size.
  destruct s as [pending sent ok open]. simpl in Hne.
  destruct pending as [|b rest]; [congruence|]. reflexivity.
Qed.

(** One round reads [min (length Pending) MaxRead] bytes and the buffer ends up
    holding exactly these. *)
Lemma one_read (s : FSocket) :
  let Size := Z.of_nat (length (Pending s)) in
  Z.to_nat (Z.min Size 65507) = Nat.min (length (Pending s)) MaxRead
  /\ received (Recv_data s (Z.min Size 65507)) (Init x00 (Z.min Size 65507))
     = take (Nat.min (length (Pending s)) MaxRead) (Pending s).
Proof.
  intros Size.
  assert (Hk : Z.to_nat (Z.min Size 65507) = Nat.min (length (Pending s)) MaxRead)
    by (unfold Size, MaxRead; lia).
  split; [exact Hk|].
  unfold received, Recv_data, Init. rewrite Hk.
  rewrite drop_ge, app_nil_r; [reflexivity|].
  rewrite length_replicate, length_take. lia.
Qed.

Lemma MaxRead_pos : 0 < MaxRead.
Proof. unfold MaxRead. lia. Qed.

Lemma final_chunk_short (Data : list byte) :
  length Data <= MaxRead -> final_chunk Data = Data.
Proof.
  intros Hle. unfold final_chunk.
  rewrite Nat.div_small; [rewrite Nat.mul_0_r; reflexivity|].
  pose proof MaxRead_pos. destruct Data; simpl in *; lia.
Qed.

Lemma final_chunk_long (Data : list byte) :
  MaxRead < length Data -> final_chunk Data = final_chunk (drop MaxRead Data).
Proof.
  intros Hlt. unfold final_chunk. rewrite drop_drop, length_drop.
  f_equal.
  pose proof MaxRead_pos as Hpos.
  replace (length Data - 1) with ((length Data - MaxRead - 1) + 1 * MaxRead) by lia.
  rewrite Nat.div_add by lia. lia.
Qed.

(** The loop leaves the last read in the buffer and nothing pending. *)
Lemma GetMessage_loop_final_chunk (n : nat) : forall (s : FSocket) (buf : list byte),
  length (Pending s) = n -> Pending s <> [] ->
  GetMessage_loop s buf = (drained s, final_chunk (Pending s)).
Proof.
  induction n as [n IH] using lt_wf_ind. intros s buf Hn Hne.
  rewrite GetMessage_loop_step by exact Hne. cbv zeta.
  destruct (one_read s) as [Hk Hbuf]. rewrite Hbuf.
  pose proof MaxRead_pos as Hpos.
  destruct (le_lt_dec (length (Pending s)) MaxRead) as [Hshort|Hlong].
  - rewrite GetMessage_loop_empty.
    + rewrite final_chunk_short by exact Hshort.
      rewrite Nat.min_l by exact Hshort. rewrite firstn_all.
      unfold Recv_socket, drained. rewrite Hk, Nat.min_l by exact Hshort.
      rewrite drop_all. reflexivity.
    + unfold Recv_socket. simpl. rewrite Hk, Nat.min_l by exact Hshort.
      apply drop_all.
  - assert (Hrest : Pending (Recv_socket s (Z.min (Z.of_nat (length (Pending s))) 65507))
                    = drop MaxRead (Pending s)).
    { unfold Recv_socket. simpl. rewrite Hk, Nat.min_r by lia. reflexivity. }
    rewrite (IH (length (drop MaxRead (Pending s)))).
    + rewrite Hrest, <- final_chunk_long by exact Hlong. reflexivity.
    + rewrite length_drop. lia.
    + rewrite Hrest. reflexivity.
    + rewrite Hrest. intros Hnil.
      apply (f_equal (@length byte)) in Hnil. rewrite length_drop in Hnil. simpl in Hnil. lia.
Qed.

Lemma c_str_terminated (Data : list byte) : c_str (Data ++ [x00]) = c_str Data.
Proof.
  induction Data as [|b Data IH]; [reflexivity|].
  simpl. destruct (Byte.eqb b x00); [reflexivity|]. rewrite IH. reflexivity.
Qed.

Lemma final_chunk_nonempty (Data : list byte) :
  Data <> [] -> 1 <= length (final_chunk Data) <= MaxRead.
Proof.
  intros Hne. unfold final_chunk. rewrite length_drop.
  pose proof MaxRead_pos as Hpos.
  assert (Hlen : 1 <= length Data) by (destruct Data; [congruence | simpl; lia]).
  pose proof (Nat.div_mod_eq (length Data - 1) MaxRead) as Hdm.
  pose proof (Nat.mod_upper_bound (length Data - 1) MaxRead ltac:(lia)) as Hmod.
  lia.
Qed.

(** The characters of a converted buffer: the code of each byte before the
    first zero byte, 63 (the question mark) for a byte above 0x7F. *)
Lemma code_unit_ANSI_TO_TCHAR (b : byte) :
  Z.of_N (N_of_ascii (ANSI_TO_TCHAR b))
  = if (Z_of_byte b <? 128)%Z then Z_of_byte b else 63%Z.
Proof. destruct b; reflexivity. Qed.

Lemma code_units_FString_of_ANSI (Data : list byte) :
  code_units (FString_of_ANSI Data)
  = (fun b => if (Z_of_byte b <? 128)%Z then Z_of_byte b else 63%Z) <$> c_str Data.
Proof.
  unfold code_units, FString_of_ANSI. rewrite list_ascii_of_string_of_list_ascii.
  induction (c_str Data) as [|b l IH]; [reflexivity|].
  cbn [fmap list_fmap] in IH |- *. rewrite IH, code_unit_ANSI_TO_TCHAR. reflexivity.
Qed.

(** What [GetMessage] returns on a connection with a socket. *)
Lemma GetMessage_connected (MySocket : FSocket) (Message : FString) :
  GetMessage (Some {| _Socket := Some MySocket |}) Message
  = match Pending MySocket with
    | [] => (false, Message, Some {| _Socket := Some MySocket |})
    | _ => (true, FString_of_ANSI (final_chunk (Pending MySocket)),
            Some {| _Socket := Some (drained MySocket) |})
    end.
Proof.
  unfold GetMessage. simpl.
  destruct (Pending MySocket) as [|b rest] eqn:HP.
  - rewrite GetMessage_loop_empty by exact HP. reflexivity.
  - rewrite (GetMessage_loop_final_chunk (length (Pending MySocket))) by (rewrite ?HP; congruence).
    rewrite HP.
    destruct (final_chunk_nonempty (b :: rest)) as [Hlo _]; [congruence|].
    destruct (Num (final_chunk (b :: rest)) <=? 0)%Z eqn:Hz.
    + apply Z.leb_le in Hz. unfold Num in Hz. lia.
    + unfold FString_of_ANSI. rewrite c_str_terminated. reflexivity.
Qed.

(** C5 (amended).  On a connection with a socket, [GetMessage] fails exactly
    when nothing is pending on entry, and then leaves [Message] alone.  When
    bytes are pending it succeeds, every read overwrites the buffer, and
    [Message] is made from the final read only: one character per byte up to
    the first zero byte of that read, the character being the one of the
    byte's code for a byte up to 0x7F and a question mark for a byte above
    it.  The final read is what is left of the pending bytes after whole
    reads of [MaxRead] bytes, between 1 and [MaxRead] bytes long. *)
Theorem GetMessage_final_chunk_only (MySocket : FSocket) (Message : FString) :
  let r := GetMessage (Some {| _Socket := Some MySocket |}) Message in
  (fst (fst r) = false <-> Pending MySocket = [])
  /\ (Pending MySocket = [] -> snd (fst r) = Message)
  /\ (Pending MySocket <> [] ->
      fst (fst r) = true
      /\ snd (fst r) = FString_of_ANSI (final_chunk (Pending MySocket))
      /\ code_units (snd (fst r))
         = (fun b => if (Z_of_byte b <? 128)%Z then Z_of_byte b else 63%Z)
             <$> c_str (final_chunk (Pending MySocket))
      /\ final_chunk (Pending MySocket)
         = drop (MaxRead * ((length (Pending MySocket) - 1) / MaxRead)) (Pending MySocket)
      /\ 1 <= length (final_chunk (Pending MySocket)) <= MaxRead).
Proof.
  cbv zeta. rewrite GetMessage_connected.
  destruct (Pending MySocket) as [|b rest] eqn:HP; simpl fst; simpl snd.
  - split; [tauto|]. split; [reflexivity|]. congruence.
  - split; [split; discriminate|]. split; [discriminate|].
    intros _. split; [reflexivity|]. split; [reflexivity|].
    split; [apply code_units_FString_of_ANSI|]. split; [reflexivity|].
    apply final_chunk_nonempty. discriminate.
Qed.

(** C5 on two pending bytes: they come back as the message. *)
Lemma GetMessage_final_chunk_only_witness :
  fst (GetMessage (Some {| _Socket := Some (socket_with [x68; x69]) |}) "")
  = (true, "hi").
Proof.
  pose proof (GetMessage_final_chunk_only (socket_with [x68; x69]) "") as H.
  cbv zeta in H. destruct H as (_ & _ & H).
  destruct H as (Hres & Hmsg & _); [discriminate|].
  apply injective_projections; [exact Hres | rewrite Hmsg; reflexivity].
Defined.

(** With more than [MaxRead] bytes pending, only what the last read took
    is returned: here 65507 bytes are read and dropped, and the message is
    made of the two bytes after them. *)
Example GetMessage_two_reads :
  fst (GetMessage (Some {| _Socket := Some (socket_with (replicate MaxRead x61 ++ [x62; x63])) |}) "")
  = (true, "bc").
Proof. vm_compute. reflexivity. Qed.

(** C5 as stated fails: the message is not the UTF-8 decoding of the final
    read.  A zero byte in the read ends the message (the read below decodes
    to three code points, the message has one), and the two bytes that are
    one character in UTF-8 become two question marks. *)
Lemma GetMessage_not_the_UTF8_decoding :
  final_chunk [x61; x00; x62] = [x61; x00; x62]
  /\ utf8_decode [x61; x00; x62] = Some [97; 0; 98]%Z
  /\ fst (GetMessage (Some {| _Socket := Some (socket_with [x61; x00; x62]) |}) "") = (true, "a")
  /\ code_units "a" = [97]%Z
  /\ final_chunk [xc3; xa9] = [xc3; xa9]
  /\ utf8_decode [xc3; xa9] = Some [233]%Z
  /\ code_units (snd (fst (GetMessage (Some {| _Socket := Some (socket_with [xc3; xa9]) |}) "")))
     = [63; 63]%Z.
Proof. vm_compute. repeat split; reflexivity. Qed.

(** ** Objects on the heap *)

Section HeapProperties.
Context {engine : JsonEngine}.

Lemma SetField_insert (heap : Heap) (o : oid) (Values : gmap string FJsonValue) k v :
  heap !! o = Some Values ->
  SetField heap o k v = <[o := <[k := v]> Values]> heap.
Proof.
  intros Ho. unfold SetField. apply map_eq. intros o'.
  destruct (decide (o = o')) as [<-|Hne].
  - rewrite lookup_alter_eq, lookup_insert_eq, Ho. reflexivity.
  - rewrite lookup_alter_ne, lookup_insert_ne by exact Hne. reflexivity.
Qed.

Lemma SetField_absent (heap : Heap) (o : oid) k v :
  heap !! o = None -> SetField heap o k v = heap.
Proof.
  intros Ho. unfold SetField. apply map_eq. intros o'.
  destruct (decide (o = o')) as [<-|Hne].
  - rewrite lookup_alter_eq, Ho. reflexivity.
  - rewrite lookup_alter_ne by exact Hne. reflexivity.
Qed.

Lemma FindField_SetField (heap : Heap) (o : oid) k v :
  is_Some (heap !! o) -> FindField (SetField heap o k v) o k = Some v.
Proof.
  intros [Values Ho]. rewrite (SetField_insert _ _ _ _ _ Ho).
  unfold FindField. rewrite lookup_insert_eq. simpl. apply lookup_insert_eq.
Qed.

Lemma FindField_SetField_other_key (heap : Heap) (o : oid) k k' v :
  k <> k' -> FindField (SetField heap o k v) o k' = FindField heap o k'.
Proof.
  intros Hne. unfold FindField.
  destruct (heap !! o) as [Values|] eqn:Ho.
  - rewrite (SetField_insert _ _ _ _ _ Ho), lookup_insert_eq. simpl.
    apply lookup_insert_ne. exact Hne.
  - rewrite (SetField_absent _ _ _ _ Ho), Ho. reflexivity.
Qed.

Lemma FindField_SetField_other_object (heap : Heap) (o o' : oid) k k' v :
  o <> o' -> FindField (SetField heap o k v) o' k' = FindField heap o' k'.
Proof.
  intros Hne. unfold FindField, SetField. rewrite lookup_alter_ne by exact Hne. reflexivity.
Qed.

Lemma ReplaceEscapedCharWithChar_empty : ReplaceEscapedCharWithChar "" = "".
Proof. apply ReplaceEscapedCharWithChar_plain. reflexivity. Qed.

(** ** Empty keys *)

(** C6.  On a valid object handle the string setter does nothing when the key
    is empty, whatever the value; the numeric, object and array setters store
    their value under the empty key (the object setter a JSON null when the
    handle it is given has no object). *)
Theorem empty_key_rejected_by_string_setter_only
    (heap : Heap) (o : oid) (Values : gmap string FJsonValue) :
  heap !! o = Some Values ->
  let JSONHandle := Some {| JSONObject := Some o |} in
  (forall Value, EvenniaAddJSONElement heap JSONHandle "" Value = heap)
  /\ (forall Value,
        EvenniaAddJSONNumericElement heap JSONHandle "" Value
        = <[o := <["" := FJsonValueNumber (double_of_float Value)]> Values]> heap)
  /\ (forall child,
        EvenniaAddJSONObject heap JSONHandle "" (Some {| JSONObject := Some child |})
        = <[o := <["" := FJsonValueObject (Some child)]> Values]> heap)
  /\ EvenniaAddJSONObject heap JSONHandle "" (Some {| JSONObject := None |})
     = <[o := <["" := FJsonValueNull]> Values]> heap
  /\ (forall arr,
        EvenniaAddJSONArrayToObject heap JSONHandle "" (Some arr)
        = <[o := <["" := FJsonValueArray (JSONObjectArray arr)]> Values]> heap).
Proof.
  intros Ho JSONHandle. split; [|split; [|split; [|split]]].
  - intros Value. reflexivity.
  - intros Value. unfold JSONHandle, EvenniaAddJSONNumericElement.
    rewrite ReplaceEscapedCharWithChar_empty.
    apply SetField_insert. exact Ho.
  - intros child. unfold JSONHandle, EvenniaAddJSONObject, SetObjectField. simpl.
    apply SetField_insert. exact Ho.
  - unfold JSONHandle, EvenniaAddJSONObject, SetObjectField. simpl.
    apply SetField_insert. exact Ho.
  - intros arr. unfold JSONHandle, EvenniaAddJSONArrayToObject.
    apply SetField_insert. exact Ho.
Qed.

(** ** Reading a string field *)

(** C9 (amended).  On a valid handle of an object whose only key is hp,
    [EvenniaGetJSONElement] yields the empty string for the key mana.  Nothing
    else leaves the function: the flag [TryGetStringField] computes (false
    here) is dropped, and the result is the same once mana is present and
    holds the empty string. *)
Theorem EvenniaGetJSONElement_missing_key
    (heap : Heap) (o : oid) (Values : gmap string FJsonValue) (Value : FString) :
  heap !! o = Some Values ->
  (forall k, is_Some (Values !! k) <-> k = "hp") ->
  let JSONHandle := Some {| JSONObject := Some o |} in
  EvenniaGetJSONElement heap JSONHandle "mana" Value = ""
  /\ fst (TryGetStringField heap o "mana" "") = false
  /\ EvenniaGetJSONElement (SetStringField heap o "mana" "") JSONHandle "mana" Value = "".
Proof.
  intros Ho Honly JSONHandle.
  assert (Hname : ReplaceEscapedCharWithChar "mana" = "mana")
    by (apply ReplaceEscapedCharWithChar_plain; reflexivity).
  assert (Hmana : FindField heap o "mana" = None).
  { unfold FindField. rewrite Ho. simpl.
    destruct (Values !! "mana") as [v|] eqn:Hv; [|reflexivity].
    assert (Habs : "mana" = "hp") by (apply Honly; eauto). discriminate Habs. }
  unfold JSONHandle, EvenniaGetJSONElement, TryGetStringField.
  rewrite Hname, Hmana. split; [reflexivity|]. split; [reflexivity|].
  unfold SetStringField. rewrite FindField_SetField by eauto. reflexivity.
Qed.

End HeapProperties.

(** C6 on an empty object at address 1, with the example engine. *)
Lemma empty_key_rejected_by_string_setter_only_witness :
  let heap : Heap := {[ 1%positive := ∅ ]} in
  let JSONHandle := Some {| JSONObject := Some 1%positive |} in
  EvenniaAddJSONElement heap JSONHandle "" "v" = heap
  /\ EvenniaAddJSONNumericElement heap JSONHandle "" 1%float
     = <[1%positive := <["" := FJsonValueNumber 1%float]> ∅]> heap.
Proof.
  intros heap JSONHandle.
  destruct (empty_key_rejected_by_string_setter_only heap 1%positive ∅)
    as (Hstring & Hnumber & _); [reflexivity|].
  split; [apply Hstring | apply Hnumber].
Defined.

(** C9 on the object with hp = 10 at address 1, with the example engine. *)
Lemma EvenniaGetJSONElement_missing_key_witness :
  let heap : Heap := {[ 1%positive := {[ "hp" := FJsonValueString "10" ]} ]} in
  EvenniaGetJSONElement heap (Some {| JSONObject := Some 1%positive |}) "mana" "old" = "".
Proof.
  intros heap.
  refine (proj1 (EvenniaGetJSONElement_missing_key heap 1%positive
                   {[ "hp" := FJsonValueString "10" ]} "old" _ _)).
  - reflexivity.
  - intros k. split.
    + intros [v Hv]. apply lookup_singleton_Some in Hv as [Hk _]. symmetry. exact Hk.
    + intros ->. exists (FJsonValueString "10"). apply lookup_singleton_eq.
Defined.

(** C9 as stated fails: the function reports no found flag.  Its only output
    is the same for an object without mana and for one where mana holds the
    empty string, so the two are not told apart. *)
Lemma EvenniaGetJSONElement_reports_no_found_flag :
  let JSONHandle := Some {| JSONObject := Some 1%positive |} in
  let without : Heap := {[ 1%positive := {[ "hp" := FJsonValueString "10" ]} ]} in
  let with_empty : Heap :=
    {[ 1%positive := <[ "mana" := FJsonValueString "" ]> {[ "hp" := FJsonValueString "10" ]} ]} in
  FindField without 1%positive "mana" = None
  /\ FindField with_empty 1%positive "mana" = Some (FJsonValueString "")
  /\ EvenniaGetJSONElement without JSONHandle "mana" "old" = ""
  /\ EvenniaGetJSONElement with_empty JSONHandle "mana" "old" = "".
Proof. vm_compute. repeat split; reflexivity. Qed.

(** ** Attaching handles to containers *)

Lemma TArray_at_last {A} (Array : list A) (x : A) :
  TArray_at (Array ++ [x]) (Num Array) = Returns x.
Proof.
  unfold TArray_at, Num.
  destruct (0 <=? Z.of_nat (length Array))%Z eqn:H0; [|apply Z.leb_gt in H0; lia].
  rewrite Nat2Z.id, list_lookup_middle by reflexivity. reflexivity.
Qed.

Section Attachment.
Context {engine : JsonEngine}.

(** C8 (amended).  An object appended with [EvenniaAddJSONObjectToArray] is
    attached by reference: a string field set through the original handle
    after the attachment is read back through the handle
    [EvenniaGetJSONObjectFromArray] makes for the new element.  An array
    attached with [EvenniaAddJSONArrayToObject] is attached as a copy of its
    element sequence: an element appended to the array handle afterwards
    leaves the field as it was, while an object (other than the receiving one)
    that was an element when the array was attached is still shared, so a
    field set on it afterwards is found behind the stored element. *)
Theorem attachment_by_reference_and_by_copy
    (heap : Heap) (o : oid) (Values : gmap string FJsonValue) (arr : UJSONHandleArray) :
  heap !! o = Some Values ->
  let obj := Some {| JSONObject := Some o |} in
  (forall Name Value Success,
      Name <> "" -> has_backslash Name = false ->
      let attached := EvenniaAddJSONObjectToArray (Some arr) obj in
      let heap' := EvenniaAddJSONElement heap obj Name Value in
      exists element,
        EvenniaGetJSONObjectFromArray attached (Num (JSONObjectArray arr)) Success
        = Returns (Some element, true)
        /\ JSONObject element = Some o
        /\ EvenniaGetJSONElement heap' (Some element) Name "" = Value)
  /\ (forall Name later,
        let heap1 := EvenniaAddJSONArrayToObject heap obj Name (Some arr) in
        let grown := EvenniaAddJSONObjectToArray (Some arr) (Some later) in
        FindField heap1 o Name = Some (FJsonValueArray (JSONObjectArray arr))
        /\ grown = Some {| JSONObjectArray :=
                             JSONObjectArray arr ++ [FJsonValueObject (JSONObject later)] |})
  /\ (forall Name i member Key Value,
        JSONObjectArray arr !! i = Some (FJsonValueObject (Some member)) ->
        is_Some (heap !! member) -> Key <> "" -> member <> o ->
        let heap1 := EvenniaAddJSONArrayToObject heap obj Name (Some arr) in
        let heap2 := EvenniaAddJSONElement heap1 (Some {| JSONObject := Some member |}) Key Value in
        exists stored,
          FindField heap2 o Name = Some (FJsonValueArray stored)
          /\ stored !! i = Some (FJsonValueObject (Some member))
          /\ FindField heap2 member Key = Some (FJsonValueString Value)).
Proof.
  intros Ho obj. split; [|split].
  - intros Name Value Success Hname Hplain attached heap'.
    exists {| JSONObject := Some o |}.
    split; [|split; [reflexivity|]].
    + unfold attached, obj, EvenniaAddJSONObjectToArray, EvenniaGetJSONObjectFromArray. simpl.
      rewrite TArray_at_last.
      destruct (Num (JSONObjectArray arr)
                <=? Num (JSONObjectArray arr ++ [FJsonValueObject (Some o)]))%Z eqn:Hle;
        [reflexivity|].
      apply Z.leb_gt in Hle. unfold Num in Hle. rewrite length_app in Hle. simpl in Hle. lia.
    + unfold heap', obj, EvenniaAddJSONElement, EvenniaGetJSONElement.
      apply String.eqb_neq in Hname. rewrite Hname. simpl.
      rewrite ReplaceEscapedCharWithChar_plain by exact Hplain.
      unfold TryGetStringField, SetStringField.
      rewrite FindField_SetField by eauto. reflexivity.
  - intros Name later heap1 grown. split; [|reflexivity].
    unfold heap1, obj, EvenniaAddJSONArrayToObject, SetArrayField.
    apply FindField_SetField. eauto.
  - intros Name i member Key Value Hi Hmember Hkey Hother heap1 heap2.
    assert (Hfield : FindField heap1 o Name = Some (FJsonValueArray (JSONObjectArray arr))).
    { unfold heap1, obj, EvenniaAddJSONArrayToObject, SetArrayField.
      apply FindField_SetField. eauto. }
    assert (Hmember1 : is_Some (heap1 !! member)).
    { unfold heap1, obj, EvenniaAddJSONArrayToObject, SetArrayField, SetField.
      apply lookup_alter_is_Some. exact Hmember. }
    apply String.eqb_neq in Hkey.
    assert (Hheap2 : heap2 = SetField heap1 member Key (FJsonValueString Value)).
    { unfold heap2, EvenniaAddJSONElement. rewrite Hkey. reflexivity. }
    rewrite Hheap2. exists (JSONObjectArray arr).
    rewrite FindField_SetField by exact Hmember1.
    split; [|split; [exact Hi | reflexivity]].
    rewrite <- Hfield.
    apply FindField_SetField_other_object. exact Hother.
Qed.

(** [EvenniaAddJSONArrayToArray] goes through a handle that has no object:
    the array it was given is stored nowhere, and the element appended is an
    object value around a null pointer. *)
Lemma EvenniaAddJSONArrayToArray_appends_null_object
    (heap : Heap) (arr nested : UJSONHandleArray) (Name : FString) :
  EvenniaAddJSONArrayToArray heap (Some arr) Name (Some nested)
  = (heap, Some {| JSONObjectArray := JSONObjectArray arr ++ [FJsonValueObject None] |}).
Proof. reflexivity. Qed.

End Attachment.

(** C8 on a new object appended to a new array and then given a name: the
    name is read back through the array element. *)
Lemma attachment_by_reference_and_by_copy_witness :
  let heap := fst (EvenniaNewJSONObject ∅) in
  let obj := Some (snd (EvenniaNewJSONObject ∅)) in
  let attached := EvenniaAddJSONObjectToArray (Some EvenniaNewJSONObjectArray) obj in
  let heap' := EvenniaAddJSONElement heap obj "name" "Ann" in
  exists element,
    EvenniaGetJSONObjectFromArray attached 0 false = Returns (Some element, true)
    /\ JSONObject element = Some 1%positive
    /\ EvenniaGetJSONElement heap' (Some element) "name" "" = "Ann".
Proof.
  intros heap obj attached heap'.
  destruct (attachment_by_reference_and_by_copy heap 1%positive ∅
              EvenniaNewJSONObjectArray eq_refl) as (Href & _ & _).
  apply (Href "name" "Ann" false); [discriminate | reflexivity].
Defined.

(** C8 as stated fails for an array attached to an object: the object is
    given the array's elements as they are at that moment.  After an object
    is appended through the array handle the handle holds one element, and
    the field, and with it the document of the object, still has none. *)
Lemma array_attached_to_object_is_a_copy :
  let heap0 := fst (EvenniaNewJSONObject ∅) in
  let A := snd (EvenniaNewJSONObject ∅) in
  let heap1 := fst (EvenniaNewJSONObject heap0) in
  let B := snd (EvenniaNewJSONObject heap0) in
  let arr := EvenniaNewJSONObjectArray in
  let heap2 := EvenniaAddJSONArrayToObject heap1 (Some A) "items" (Some arr) in
  let grown := EvenniaAddJSONObjectToArray (Some arr) (Some B) in
  A = {| JSONObject := Some 1%positive |}
  /\ grown = Some {| JSONObjectArray := [FJsonValueObject (Some 2%positive)] |}
  /\ FindField heap2 1%positive "items" = Some (FJsonValueArray [])
  /\ document 3 heap2 (FJsonValueObject (JSONObject A))
     = Some (DObject (Some [("items", DArray [])])).
Proof. vm_compute. repeat split; reflexivity. Qed.

(** ** Invalid handles *)

Lemma IsValid_iff_resource :
  (forall h, UJSONHandle_IsValid h = false <-> JSONObject h = None)
  /\ (forall v, UJSONValue_IsValid v = false <-> JSONValue v = None).
Proof.
  split.
  - intros [[o|]]; simpl; split; (reflexivity || discriminate).
  - intros [[v|]]; simpl; split; (reflexivity || discriminate).
Qed.

Section InvalidHandles.
Context {engine : JsonEngine}.

Lemma invalid_object_handle_writes (JSONHandle : option UJSONHandle) :
  invalid_handle JSONHandle ->
  forall heap Name,
    (forall Value, EvenniaAddJSONElement heap JSONHandle Name Value = heap)
    /\ (forall Value, EvenniaAddJSONNumericElement heap JSONHandle Name Value = heap)
    /\ (forall Value, EvenniaAddJSONObject heap JSONHandle Name Value = heap)
    /\ (forall Value, EvenniaAddJSONArrayToObject heap JSONHandle Name Value = heap)
    /\ (forall JSONString Success,
          EvenniaParseString heap JSONHandle JSONString Success = (heap, JSONHandle, false)).
Proof. intros [-> | ->] heap Name; repeat split; reflexivity. Qed.

Lemma invalid_object_handle_reads (JSONHandle : option UJSONHandle) :
  invalid_handle JSONHandle ->
  forall heap Name,
    (forall Value, EvenniaGetJSONElement heap JSONHandle Name Value = Value)
    /\ (forall Value, EvenniaGetJSONNumericElement heap JSONHandle Name Value = Value)
    /\ EvenniaGetJSONObject heap JSONHandle Name = Some {| JSONObject := None |}
    /\ (forall fuel Value Success,
          EvenniaSerializeJSONObject fuel heap JSONHandle Value Success
          = Some (Returns (Value, Success)))
    /\ EvenniaGetJSONObjectKeysAndTypes heap JSONHandle = (∅, 0%Z).
Proof. intros [-> | ->] heap Name; repeat split; reflexivity. Qed.

Lemma null_array_handle heap Name Index :
  (forall Value, EvenniaAddJSONObjectToArray None Value = None)
  /\ (forall Value, EvenniaAddJSONArrayToArray heap None Name Value = (heap, None))
  /\ (forall Value, EvenniaGetJSONElementMultiple heap None Index Name Value = Returns Value)
  /\ (forall fuel Value Success,
        EvenniaSerializeJSONObjectArray fuel heap None Value Success
        = Some (Returns (Value, Success)))
  /\ (forall Success, EvenniaGetJSONObjectFromArray None Index Success = Returns (None, Success))
  /\ EvenniaGetJSONArrayHandleAsArray None = ([], 0%Z)
  /\ EvenniaGetJSONArrayTypesAndValues None = (∅, 0%Z)
  /\ (forall JsonType, EvenniaGetJSONObjectType None Index JsonType = Returns JsonType).
Proof. repeat split; reflexivity. Qed.

Lemma invalid_value_handle (JSONValue_ : option UJSONValue) :
  invalid_value JSONValue_ ->
  (forall JsonType, EvenniaGetJSONValueType JSONValue_ JsonType = JsonType)
  /\ EvenniaJSONValueAsObject JSONValue_ = None
  /\ EvenniaJSONValueAsArray JSONValue_ = None
  /\ (forall Value, EvenniaJSONValueAsString JSONValue_ Value = Value).
Proof. intros [-> | ->]; repeat split; reflexivity. Qed.

Lemma invalid_connection_calls (Connection : option USocket) :
  invalid_connection Connection ->
  (forall Message, SendMessage Connection Message = (false, Connection))
  /\ (forall Message, GetMessage Connection Message = (false, Message, Connection))
  /\ HasPendingData Connection = false
  /\ CloseConnection Connection = (false, Connection).
Proof. intros [-> | ->]; repeat split; reflexivity. Qed.

(** C4 (amended).  [IsValid] is false exactly when the resource is absent.
    On a handle whose resource is absent every function returns, and
    - the functions that write to an object handle leave the heap as it is,
      and [EvenniaParseString] reports false;
    - the functions that read from an object handle leave the caller's
      output variables as they are ([Value], [Success]), or return a handle
      without object, or an empty map with count 0;
    - the functions on a null array handle or an invalid value handle do the
      same (outputs untouched, a null handle, an empty array with count 0);
    - every socket function returns false and leaves the connection alone,
      [CloseConnection] on a null or never-connected connection included. *)
Theorem invalid_handles_are_left_alone :
  ((forall h, UJSONHandle_IsValid h = false <-> JSONObject h = None)
   /\ (forall v, UJSONValue_IsValid v = false <-> JSONValue v = None))
  /\ (forall JSONHandle heap Name,
        invalid_handle JSONHandle ->
        (forall Value, EvenniaAddJSONElement heap JSONHandle Name Value = heap)
        /\ (forall Value, EvenniaAddJSONNumericElement heap JSONHandle Name Value = heap)
        /\ (forall Value, EvenniaAddJSONObject heap JSONHandle Name Value = heap)
        /\ (forall Value, EvenniaAddJSONArrayToObject heap JSONHandle Name Value = heap)
        /\ (forall JSONString Success,
              EvenniaParseString heap JSONHandle JSONString Success = (heap, JSONHandle, false)))
  /\ (forall JSONHandle heap Name,
        invalid_handle JSONHandle ->
        (forall Value, EvenniaGetJSONElement heap JSONHandle Name Value = Value)
        /\ (forall Value, EvenniaGetJSONNumericElement heap JSONHandle Name Value = Value)
        /\ EvenniaGetJSONObject heap JSONHandle Name = Some {| JSONObject := None |}
        /\ (forall fuel Value Success,
              EvenniaSerializeJSONObject fuel heap JSONHandle Value Success
              = Some (Returns (Value, Success)))
        /\ EvenniaGetJSONObjectKeysAndTypes heap JSONHandle = (∅, 0%Z))
  /\ (forall heap Name Index,
        (forall Value, EvenniaAddJSONObjectToArray None Value = None)
        /\ (forall Value, EvenniaAddJSONArrayToArray heap None Name Value = (heap, None))
        /\ (forall Value,
              EvenniaGetJSONElementMultiple heap None Index Name Value = Returns Value)
        /\ (forall fuel Value Success,
              EvenniaSerializeJSONObjectArray fuel heap None Value Success
              = Some (Returns (Value, Success)))
        /\ (forall Success,
              EvenniaGetJSONObjectFromArray None Index Success = Returns (None, Success))
        /\ EvenniaGetJSONArrayHandleAsArray None = ([], 0%Z)
        /\ EvenniaGetJSONArrayTypesAndValues None = (∅, 0%Z)
        /\ (forall JsonType, EvenniaGetJSONObjectType None Index JsonType = Returns JsonType))
  /\ (forall JSONValue_,
        invalid_value JSONValue_ ->
        (forall JsonType, EvenniaGetJSONValueType JSONValue_ JsonType = JsonType)
        /\ EvenniaJSONValueAsObject JSONValue_ = None
        /\ EvenniaJSONValueAsArray JSONValue_ = None
        /\ (forall Value, EvenniaJSONValueAsString JSONValue_ Value = Value))
  /\ (forall Connection,
        invalid_connection Connection ->
        (forall Message, SendMessage Connection Message = (false, Connection))
        /\ (forall Message, GetMessage Connection Message = (false, Message, Connection))
        /\ HasPendingData Connection = false
        /\ CloseConnection Connection = (false, Connection)).
Proof.
  split; [exact IsValid_iff_resource|].
  split; [intros h heap Name Hh; apply invalid_object_handle_writes; exact Hh|].
  split; [intros h heap Name Hh; apply invalid_object_handle_reads; exact Hh|].
  split; [intros heap Name Index; apply null_array_handle|].
  split; [intros v Hv; apply invalid_value_handle; exact Hv|].
  intros c Hc. apply invalid_connection_calls. exact Hc.
Qed.

End InvalidHandles.

(** C4 on a handle fresh from [NewObject<UJSONHandle>()] and on a connection
    that was never connected, with the example engine. *)
Lemma invalid_handles_are_left_alone_witness :
  EvenniaAddJSONElement ∅ (Some {| JSONObject := None |}) "hp" "10" = ∅
  /\ EvenniaGetJSONElement ∅ (Some {| JSONObject := None |}) "hp" "" = ""
  /\ CloseConnection (Some {| _Socket := None |}) = (false, Some {| _Socket := None |})
  /\ CloseConnection None = (false, None).
Proof.
  destruct (@invalid_handles_are_left_alone example_engine)
    as (_ & Hwrite & Hread & _ & _ & Hconn).
  split; [|split; [|split]].
  - apply (Hwrite (Some {| JSONObject := None |}) ∅ "hp"). right. reflexivity.
  - apply (Hread (Some {| JSONObject := None |}) ∅ "hp"). right. reflexivity.
  - apply (Hconn (Some {| _Socket := None |})). right. reflexivity.
  - apply (Hconn None). left. reflexivity.
Defined.

(** C4 as stated fails: on an invalid handle the reading functions neither
    set their failure flag nor empty their outputs.  Called with a null or
    an object-less handle while the caller's variables hold a text and true,
    [EvenniaSerializeJSONObject] leaves the text and leaves [Success] true;
    [EvenniaGetJSONElement] leaves the text; and on a null array handle
    [EvenniaGetJSONObjectFromArray] leaves [Success] true. *)
Lemma invalid_handle_reads_keep_stale_outputs :
  EvenniaSerializeJSONObject 0 ∅ None "stale" true = Some (Returns ("stale", true))
  /\ EvenniaSerializeJSONObject 0 ∅ (Some {| JSONObject := None |}) "stale" true
     = Some (Returns ("stale", true))
  /\ EvenniaGetJSONElement ∅ None "hp" "stale" = "stale"
  /\ EvenniaGetJSONObjectFromArray None 0 true = Returns (None, true).
Proof. repeat split; reflexivity. Qed.

(** ** Finite structures *)

Section FiniteStructures.
Context {engine : JsonEngine}.

Lemma document_object (fuel : nat) (heap : Heap) (o : oid) :
  document (S fuel) heap (FJsonValueObject (Some o))
  = (Values ← heap !! o;
     fields ← mapM (fun kv : string * FJsonValue => pair kv.1 <$> document fuel heap kv.2)
                   (map_to_list (Values : gmap string FJsonValue));
     Some (DObject (Some fields))).
Proof. reflexivity. Qed.

(** More fuel never changes a document that was finished. *)
Lemma document_mono (fuel : nat) : forall fuel' heap v d,
  fuel <= fuel' -> document fuel heap v = Some d -> document fuel' heap v = Some d.
Proof.
  induction fuel as [|fuel IH]; intros fuel' heap v d Hle Hd; [discriminate|].
  destruct fuel' as [|fuel']; [lia|].
  assert (Hle' : fuel <= fuel') by lia.
  destruct v as [| | s | x | b | a | [o|]]; try exact Hd.
  - simpl in Hd |- *.
    destruct (mapM (document fuel heap) a) as [ds|] eqn:Hds; [|discriminate].
    apply mapM_Some in Hds.
    rewrite (proj2 (mapM_Some (document fuel' heap) a ds)); [exact Hd|].
    eapply Forall2_impl; [exact Hds|]. intros v' d' Hv'. eapply IH; eassumption.
  - rewrite document_object in Hd |- *.
    destruct (heap !! o) as [Values|]; [|discriminate]. simpl in Hd |- *.
    destruct (mapM (fun kv : string * FJsonValue => pair kv.1 <$> document fuel heap kv.2)
                   (map_to_list Values)) as [fields|] eqn:Hfs; [|discriminate].
    apply mapM_Some in Hfs.
    rewrite (proj2 (mapM_Some
                      (fun kv : string * FJsonValue => pair kv.1 <$> document fuel' heap kv.2)
                      (map_to_list Values) fields)); [exact Hd|].
    eapply Forall2_impl; [exact Hfs|]. intros [k v'] kd Hkd. simpl in Hkd |- *.
    destruct (document fuel heap v') as [d'|] eqn:Hv'; [|discriminate].
    rewrite (IH fuel' heap v' d' Hle' Hv'). exact Hkd.
Qed.

(** What sits below a value with a finished document has a finished document
    itself, one level earlier. *)
Lemma document_directly_below (fuel : nat) (heap : Heap) (v w : FJsonValue) :
  is_Some (document (S fuel) heap v) -> directly_below heap v w ->
  is_Some (document fuel heap w).
Proof.
  intros Hv Hw. destruct v as [| | s | x | b | a | [o|]]; try contradiction.
  - simpl in Hv, Hw. apply fmap_is_Some, mapM_is_Some in Hv.
    exact (proj1 (Forall_forall _ _) Hv w Hw).
  - destruct Hw as (Values & k & Ho & Hk).
    rewrite document_object, Ho in Hv. simpl in Hv.
    destruct (mapM (fun kv : string * FJsonValue => pair kv.1 <$> document fuel heap kv.2)
                   (map_to_list Values)) as [fields|] eqn:Hfs;
      [|destruct Hv as [? Hv]; discriminate Hv].
    assert (Hall : is_Some (mapM (fun kv : string * FJsonValue =>
                                    pair kv.1 <$> document fuel heap kv.2)
                                 (map_to_list Values))) by (rewrite Hfs; eauto).
    apply mapM_is_Some in Hall.
    pose proof (proj1 (Forall_forall _ _) Hall (k, w)
                  (proj2 (elem_of_map_to_list _ _ _) Hk)) as Hkw.
    simpl in Hkw. apply fmap_is_Some in Hkw. exact Hkw.
Qed.

Lemma document_below (heap : Heap) (v w : FJsonValue) :
  tc (directly_below heap) v w ->
  forall fuel, is_Some (document (S fuel) heap v) -> is_Some (document fuel heap w).
Proof.
  induction 1 as [v w Hvw | v x w Hvx Hxw IH]; intros fuel Hv.
  - eapply document_directly_below; eassumption.
  - pose proof (document_directly_below fuel heap v x Hv Hvx) as Hx.
    destruct fuel as [|fuel]; [destruct Hx as [? Hx]; discriminate Hx|].
    destruct (IH fuel Hx) as [d Hd]. exists d.
    apply (document_mono fuel (S fuel)); [lia | exact Hd].
Qed.

(** A value that sits somewhere below itself has no finished document: its
    traversal never ends. *)
Lemma document_cycle (heap : Heap) (v : FJsonValue) :
  tc (directly_below heap) v v -> forall fuel, document fuel heap v = None.
Proof.
  intros Hcycle fuel. induction fuel as [|fuel IH]; [reflexivity|].
  destruct (document (S fuel) heap v) as [d|] eqn:Hd; [|reflexivity].
  destruct (document_below heap v v Hcycle fuel) as [d' Hd']; [rewrite Hd; eauto|].
  rewrite IH in Hd'. discriminate Hd'.
Qed.

(** *** Structures built as trees *)













End FiniteStructures.



(** ** Serializing *)

Section Serializing.
Context {engine : JsonEngine}.

Lemma in_order_Returns {A B} (f : A -> Run B) (l : list A) (ys : list B) :
  in_order f l = Some (Returns ys) <-> Forall2 (fun x y => f x = Some (Returns y)) l ys.
Proof.
  revert ys. induction l as [|x l IH]; intros ys; simpl.
  - split.
    + intros H. injection H as <-. constructor.
    + intros H. inversion H. reflexivity.
  - split.
    + intros H. destruct (f x) as [[y|fault]|] eqn:Hx; simpl in H; try discriminate H.
      destruct (in_order f l) as [[ys'|fault]|] eqn:Hl; simpl in H; try discriminate H.
      injection H as <-. constructor; [exact Hx|]. apply IH. reflexivity.
    + intros H. inversion H as [|x' y l' ys' Hx Hl]; subst.
      rewrite Hx. simpl. rewrite (proj2 (IH ys') Hl). reflexivity.
Qed.





(** Every key the engine lists has its field. *)
Lemma GenerateKeyArray_field (o : oid) (Values : gmap string FJsonValue) (Key : FString) :
  Key ∈ GenerateKeyArray o Values <-> is_Some (Values !! Key).
Proof.
  rewrite (GenerateKeyArray_keys o Values), list_elem_of_fmap. split.
  - intros [[k v] [-> Hkv]]. apply elem_of_map_to_list in Hkv. simpl. eauto.
  - intros [v Hv]. exists (Key, v). split; [reflexivity|].
    apply elem_of_map_to_list. exact Hv.
Qed.


(** Where the serializer comes back with a document, the tree below the
    value is exhausted. *)
Lemma Serialize_document (fuel : nat) : forall heap v d,
  Serialize fuel heap v = Some (Returns d) -> is_Some (document fuel heap v).
Proof.
  induction fuel as [|fuel IH]; intros heap v d H; [discriminate H|].
  destruct v as [| |s|n|b|a|[o|]]; try discriminate H; try (simpl; eauto; fail).
  - simpl in H |- *.
    destruct (in_order (Serialize fuel heap) a) as [[elems|fault]|] eqn:Hin;
      try discriminate H.
    apply fmap_is_Some, mapM_is_Some. apply in_order_Returns in Hin. clear H.
    induction Hin as [|w e l k Hw _ IHl]; constructor; [|exact IHl].
    apply (IH _ _ _ Hw).
  - rewrite document_object. simpl in H.
    destruct (heap !! o) as [Values|]; [|discriminate H]. simpl.
    match type of H with
    | Run_bind (in_order ?f ?l) _ = _ =>
        destruct (in_order f l) as [[fields|fault]|] eqn:Hin; try discriminate H
    end.
    apply in_order_Returns in Hin.
    assert (Hall : Forall (fun kv : string * FJsonValue =>
                             is_Some (pair kv.1 <$> document fuel heap kv.2))
                     (map_to_list Values)).
    { apply Forall_forall. intros [k w] Hkw. apply elem_of_map_to_list in Hkw. simpl.
      assert (Hkey : k ∈ GenerateKeyArray o Values)
        by (apply GenerateKeyArray_field; eauto).
      apply list_elem_of_lookup in Hkey as [i Hi].
      destruct (Forall2_lookup_l _ _ _ i _ Hin Hi) as (e & _ & He).
      simpl in He. rewrite Hkw in He.
      destruct (Serialize fuel heap w) as [[dw|fault]|] eqn:Hdw; try discriminate He.
      apply fmap_is_Some, (IH _ _ _ Hdw). }
    apply mapM_is_Some in Hall. destruct Hall as [fs Hfs]. rewrite Hfs. simpl. eauto.
Qed.





(** An array that ends in an object value around a null pointer is never
    serialized, and neither is an object with a field the serializer does not
    come back from. *)
Lemma Serialize_null_object_element (fuel : nat) (heap : Heap) (a : list FJsonValue) d :
  Serialize fuel heap (FJsonValueArray (a ++ [FJsonValueObject None])) <> Some (Returns d).
Proof.
  destruct fuel as [|fuel]; [discriminate|]. simpl. intros H.
  destruct (in_order (Serialize fuel heap) (a ++ [FJsonValueObject None]))
    as [[elems|fault]|] eqn:Hin; try discriminate H.
  apply in_order_Returns, Forall2_app_inv_l in Hin as (ds & dn & _ & Hlast & _).
  inversion Hlast as [|x y l k Hnull _]; subst.
  destruct fuel; discriminate Hnull.
Qed.

Lemma Serialize_field_never_returns
    (fuel : nat) (heap : Heap) (o : oid) (Values : gmap string FJsonValue) k w d :
  heap !! o = Some Values -> Values !! k = Some w ->
  (forall fuel' d', Serialize fuel' heap w <> Some (Returns d')) ->
  Serialize fuel heap (FJsonValueObject (Some o)) <> Some (Returns d).
Proof.
  intros Ho Hk Hw H. destruct fuel as [|fuel]; [discriminate H|].
  simpl in H. rewrite Ho in H.
  match type of H with
  | Run_bind (in_order ?f ?l) _ = _ =>
      destruct (in_order f l) as [[fields|fault]|] eqn:Hin; try discriminate H
  end.
  apply in_order_Returns in Hin.
  assert (Hkey : k ∈ GenerateKeyArray o Values) by (apply GenerateKeyArray_field; eauto).
  apply list_elem_of_lookup in Hkey as [i Hi].
  destruct (Forall2_lookup_l _ _ _ i _ Hin Hi) as (e & _ & He).
  simpl in He. rewrite Hk in He.
  destruct (Serialize fuel heap w) as [[dw|fault]|] eqn:Hdw; try discriminate He.
  exact (Hw _ _ Hdw).
Qed.

(** C1 (a defect of the code).  A finite tree built with the construction
    functions alone, on valid handles, need not serialize.
    [EvenniaAddJSONArrayToArray] leaves the heap alone and appends an object
    value around a null pointer, the element [EvenniaAddJSONObjectToArray]
    appends for a handle without an object.  The serializer goes through
    that pointer: neither [EvenniaSerializeJSONObjectArray] on the array nor
    [EvenniaSerializeJSONObject] on an object the array was attached to comes
    back with a text, at any depth and whatever else the heap holds.  Where
    nothing stands before the element (the array was empty, the object had no
    field) the call aborts on the null pointer. *)
Theorem serialization_aborts_on_an_element_without_object
    (heap : Heap) (o : oid) (arr nested : UJSONHandleArray) (Name Key : FString) :
  is_Some (heap !! o) ->
  let JSONHandle := handle_to o in
  let added := EvenniaAddJSONArrayToArray heap (Some arr) Key (Some nested) in
  let outer := snd added in
  let heap' := EvenniaAddJSONArrayToObject heap JSONHandle Name outer in
  (fst added = heap
   /\ outer = Some {| JSONObjectArray := JSONObjectArray arr ++ [FJsonValueObject None] |}
   /\ EvenniaAddJSONObjectToArray (Some arr) (Some {| JSONObject := None |}) = outer)
  /\ (forall fuel Value Success result,
        EvenniaSerializeJSONObjectArray fuel heap outer Value Success
        <> Some (Returns result))
  /\ (forall fuel Value Success result,
        EvenniaSerializeJSONObject fuel heap' JSONHandle Value Success
        <> Some (Returns result))
  /\ (JSONObjectArray arr = [] ->
      forall fuel Value Success,
        EvenniaSerializeJSONObjectArray (S (S fuel)) heap outer Value Success
        = Some (Aborts NullSharedPtrDereference))
  /\ (JSONObjectArray arr = [] -> heap !! o = Some ∅ ->
      forall fuel Value Success,
        EvenniaSerializeJSONObject (S (S (S fuel))) heap' JSONHandle Value Success
        = Some (Aborts NullSharedPtrDereference)).
Proof.
  intros [Values Ho] JSONHandle added outer heap'.
  assert (Houter : outer = Some {| JSONObjectArray :=
                                     JSONObjectArray arr ++ [FJsonValueObject None] |})
    by reflexivity.
  assert (Hheap' : heap' = <[o := <[Name := FJsonValueArray
                                              (JSONObjectArray arr ++ [FJsonValueObject None])]>
                                    Values]> heap).
  { unfold heap', EvenniaAddJSONArrayToObject, JSONHandle, handle_to, SetArrayField.
    rewrite Houter. cbn [JSONObjectArray]. apply SetField_insert, Ho. }
  split; [split; [reflexivity | split; [exact Houter | reflexivity]]|].
  split; [|split; [|split]].
  - intros fuel Value Success result H. rewrite Houter in H.
    unfold EvenniaSerializeJSONObjectArray in H. cbn [JSONObjectArray] in H.
    destruct (Serialize fuel heap (FJsonValueArray (JSONObjectArray arr ++ [FJsonValueObject None])))
      as [[d|fault]|] eqn:Hd; try discriminate H.
    exact (Serialize_null_object_element _ _ _ _ Hd).
  - intros fuel Value Success result H.
    unfold EvenniaSerializeJSONObject, JSONHandle, handle_to in H.
    destruct (Serialize fuel heap' (FJsonValueObject (Some o))) as [[d|fault]|] eqn:Hd;
      try discriminate H.
    revert Hd. rewrite Hheap'.
    apply (Serialize_field_never_returns _ _ o _ Name _ d (lookup_insert_eq _ _ _)
             (lookup_insert_eq _ _ _)).
    intros fuel' d'. apply Serialize_null_object_element.
  - intros Hempty fuel Value Success. rewrite Houter, Hempty. reflexivity.
  - intros Hempty Hfresh fuel Value Success.
    rewrite Hfresh in Ho. injection Ho as <-. rewrite Hempty in Hheap'.
    unfold EvenniaSerializeJSONObject, JSONHandle, handle_to. rewrite Hheap'.
    cbn [Serialize]. rewrite lookup_insert_eq.
    assert (Hkeys : GenerateKeyArray o (<[Name := FJsonValueArray ([] ++ [FJsonValueObject None])]> ∅)
                    = [Name]).
    { apply Permutation_singleton_r. rewrite GenerateKeyArray_keys.
      rewrite insert_empty, map_to_list_singleton. reflexivity. }
    rewrite Hkeys. cbn [in_order]. rewrite lookup_insert_eq. reflexivity.
Qed.

End Serializing.

(** C1 on an object and two arrays fresh from the library, all handles
    valid: one array is added to the other, which is then attached to the
    object.  What was built is a finite tree, an object with a list of one
    element, and serializing the object or the array aborts. *)
Lemma serialization_aborts_on_an_element_without_object_witness :
  let heap := fst (EvenniaNewJSONObject ∅) in
  let JSONHandle := Some (snd (EvenniaNewJSONObject ∅)) in
  let outer := snd (EvenniaAddJSONArrayToArray heap (Some EvenniaNewJSONObjectArray) "inner"
                      (Some EvenniaNewJSONObjectArray)) in
  let heap' := EvenniaAddJSONArrayToObject heap JSONHandle "list" outer in
  document 3 heap' (FJsonValueObject (Some 1%positive))
  = Some (DObject (Some [("list", DArray [DObject None])]))
  /\ EvenniaSerializeJSONObject 3 heap' JSONHandle "" false
     = Some (Aborts NullSharedPtrDereference)
  /\ EvenniaSerializeJSONObjectArray 2 heap outer "" false
     = Some (Aborts NullSharedPtrDereference).
Proof.
  intros heap JSONHandle outer heap'.
  assert (Hobject : heap !! 1%positive = Some ∅) by (vm_compute; reflexivity).
  destruct (serialization_aborts_on_an_element_without_object heap 1%positive
              EvenniaNewJSONObjectArray EvenniaNewJSONObjectArray "list" "inner"
              (ex_intro _ _ Hobject)) as (_ & _ & _ & Harray & Hobj).
  split; [vm_compute; reflexivity|]. split.
  - exact (Hobj eq_refl Hobject 0 "" false).
  - exact (Harray eq_refl 0 "" false).
Defined.

(** * Further properties of the library *)

(** ** Setting a field and reading it back *)

Section Fields.
Context {engine : JsonEngine}.

Lemma EvenniaGetJSONElement_FindField (heap : Heap) (o : oid) (Name stale : FString) :
  EvenniaGetJSONElement heap (handle_to o) Name stale
  = match FindField heap o (ReplaceEscapedCharWithChar Name) with
    | Some v => snd (TryGetString v "")
    | None => ""
    end.
Proof.
  unfold EvenniaGetJSONElement, handle_to, TryGetStringField.
  destruct (FindField heap o (ReplaceEscapedCharWithChar Name)); reflexivity.
Qed.

Lemma EvenniaAddJSONElement_SetField (heap : Heap) (o : oid) (Name Value : FString) :
  Name <> "" ->
  EvenniaAddJSONElement heap (handle_to o) Name Value
  = SetField heap o Name (FJsonValueString Value).
Proof.
  intros Hname. unfold EvenniaAddJSONElement, handle_to, SetStringField.
  apply String.eqb_neq in Hname. rewrite Hname. reflexivity.
Qed.

Lemma KeysAndTypes_count (heap : Heap) (o : oid) (Values : gmap string FJsonValue) :
  heap !! o = Some Values ->
  snd (EvenniaGetJSONObjectKeysAndTypes heap (handle_to o)) = Z.of_nat (size Values).
Proof.
  intros Ho. unfold EvenniaGetJSONObjectKeysAndTypes, handle_to. simpl.
  rewrite Ho. simpl. rewrite map_size_fmap. reflexivity.
Qed.

Lemma size_insert_present (Values : gmap string FJsonValue) k v :
  is_Some (Values !! k) -> size (<[k := v]> Values) = size Values.
Proof.
  intros [w Hw]. rewrite <- !size_dom, dom_insert_L.
  f_equal. apply subseteq_union_1_L, singleton_subseteq_l.
  apply (elem_of_dom_2 _ _ _ Hw).
Qed.

(** X1.  A string field set with [EvenniaAddJSONElement] under a non-empty
    name free of escape sequences is what [EvenniaGetJSONElement] reads back
    under that name, whatever the caller's variable held.  Setting the name a
    second time replaces the value: the second value is read back and the
    number of fields [EvenniaGetJSONObjectKeysAndTypes] counts stays as it
    was after the first. *)
Theorem string_field_set_then_get (heap : Heap) (o : oid) (Name : FString) :
  is_Some (heap !! o) -> Name <> "" -> ReplaceEscapedCharWithChar Name = Name ->
  (forall Value stale,
      EvenniaGetJSONElement (EvenniaAddJSONElement heap (handle_to o) Name Value)
        (handle_to o) Name stale = Value)
  /\ (forall First Second stale,
        let heap1 := EvenniaAddJSONElement heap (handle_to o) Name First in
        let heap2 := EvenniaAddJSONElement heap1 (handle_to o) Name Second in
        EvenniaGetJSONElement heap2 (handle_to o) Name stale = Second
        /\ snd (EvenniaGetJSONObjectKeysAndTypes heap2 (handle_to o))
           = snd (EvenniaGetJSONObjectKeysAndTypes heap1 (handle_to o))).
Proof.
  intros Ho Hname Hplain.
  assert (Hget : forall heap' Value stale,
             is_Some (heap' !! o) ->
             EvenniaGetJSONElement (EvenniaAddJSONElement heap' (handle_to o) Name Value)
               (handle_to o) Name stale = Value).
  { intros heap' Value stale Ho'.
    rewrite EvenniaGetJSONElement_FindField, Hplain.
    rewrite EvenniaAddJSONElement_SetField by exact Hname.
    rewrite FindField_SetField by exact Ho'. reflexivity. }
  split; [intros Value stale; apply Hget, Ho|].
  intros First Second stale heap1 heap2.
  destruct Ho as [Values Ho].
  assert (H1 : heap1 !! o = Some (<[Name := FJsonValueString First]> Values)).
  { unfold heap1. rewrite EvenniaAddJSONElement_SetField by exact Hname.
    rewrite (SetField_insert _ _ _ _ _ Ho). apply lookup_insert_eq. }
  split; [apply Hget; eauto|].
  assert (H2 : heap2 !! o
               = Some (<[Name := FJsonValueString Second]>
                         (<[Name := FJsonValueString First]> Values))).
  { unfold heap2. rewrite EvenniaAddJSONElement_SetField by exact Hname.
    rewrite (SetField_insert _ _ _ _ _ H1). apply lookup_insert_eq. }
  rewrite (KeysAndTypes_count _ _ _ H1), (KeysAndTypes_count _ _ _ H2).
  rewrite size_insert_present; [reflexivity|].
  rewrite lookup_insert_eq. eauto.
Qed.

(** X2.  The string setter stores the field under the name as given, the
    string getter looks it up under the name with its escape sequences
    replaced.  So when the name has an escape sequence the field is stored
    (the raw lookup of [GetStringField] finds the value) and yet
    [EvenniaGetJSONElement] with the very same name reads what it read before
    the field was set. *)
Theorem string_field_escaped_name_not_read_back
    (heap : Heap) (o : oid) (Name Value stale : FString) :
  is_Some (heap !! o) -> Name <> "" -> ReplaceEscapedCharWithChar Name <> Name ->
  let heap' := EvenniaAddJSONElement heap (handle_to o) Name Value in
  GetStringField heap' o Name = Value
  /\ EvenniaGetJSONElement heap' (handle_to o) Name stale
     = EvenniaGetJSONElement heap (handle_to o) Name stale.
Proof.
  intros Ho Hname Hescape heap'. unfold heap'.
  rewrite EvenniaAddJSONElement_SetField by exact Hname. split.
  - unfold GetStringField, GetField. rewrite FindField_SetField by exact Ho.
    case_decide as Hcase; [reflexivity|]. destruct Hcase. left. reflexivity.
  - rewrite !EvenniaGetJSONElement_FindField.
    rewrite FindField_SetField_other_key; [reflexivity|].
    intros Heq. apply Hescape. symmetry. exact Heq.
Qed.

(** X3.  The numeric setter and the numeric getter both replace the escape
    sequences of the name, so for every name, the empty one included, the
    getter finds the number the setter stored: it returns the value set,
    widened to [double] and narrowed back.  On an object that has no field of
    that name the getter yields the narrowing of zero. *)
Theorem numeric_field_set_then_get
    (heap : Heap) (o : oid) (Name : FString) (Value stale : float32) :
  is_Some (heap !! o) ->
  (forall d, TryGetNumber (FJsonValueNumber d) = Some d) ->
  EvenniaGetJSONNumericElement (EvenniaAddJSONNumericElement heap (handle_to o) Name Value)
    (handle_to o) Name stale
  = float_of_double (double_of_float Value)
  /\ (FindField heap o (ReplaceEscapedCharWithChar Name) = None ->
      EvenniaGetJSONNumericElement heap (handle_to o) Name stale = float_of_double 0).
Proof.
  intros Ho Hnumber. unfold EvenniaGetJSONNumericElement, EvenniaAddJSONNumericElement,
    handle_to, SetNumberField. split.
  - rewrite FindField_SetField by exact Ho. simpl. rewrite Hnumber. reflexivity.
  - intros Hnone. rewrite Hnone. reflexivity.
Qed.

(** X4.  An object attached with [EvenniaAddJSONObject] under a name free of
    escape sequences is the object [EvenniaGetJSONObject] hands out under
    that name: the handle returned points to the very object attached.  The
    attachment is by reference: a string field set on the child afterwards,
    through its own handle, is read through the handle fetched from the
    parent, before or after the field was set. *)
Theorem object_field_set_then_get (heap : Heap) (o child : oid) (Name : FString) :
  is_Some (heap !! o) -> ReplaceEscapedCharWithChar Name = Name ->
  let heap1 := EvenniaAddJSONObject heap (handle_to o) Name (handle_to child) in
  EvenniaGetJSONObject heap1 (handle_to o) Name = handle_to child
  /\ (forall Key Value stale,
        is_Some (heap !! child) -> child <> o ->
        Key <> "" -> ReplaceEscapedCharWithChar Key = Key ->
        let heap2 := EvenniaAddJSONElement heap1 (handle_to child) Key Value in
        EvenniaGetJSONObject heap2 (handle_to o) Name = handle_to child
        /\ EvenniaGetJSONElement heap2 (EvenniaGetJSONObject heap1 (handle_to o) Name) Key stale
           = Value).
Proof.
  intros Ho Hplain heap1.
  assert (Hfield : FindField heap1 o Name = Some (FJsonValueObject (Some child))).
  { unfold heap1, EvenniaAddJSONObject, handle_to, SetObjectField. simpl.
    apply FindField_SetField, Ho. }
  assert (Hget : forall heap', FindField heap' o Name = Some (FJsonValueObject (Some child)) ->
                               EvenniaGetJSONObject heap' (handle_to o) Name = handle_to child).
  { intros heap' Hfield'. unfold EvenniaGetJSONObject, handle_to, GetObjectField, GetField.
    rewrite Hplain, Hfield'.
    case_decide as Hcase; [reflexivity|]. destruct Hcase. right. reflexivity. }
  split; [apply Hget, Hfield|].
  intros Key Value stale Hchild Hne Hkey Hkeyplain heap2.
  assert (Hchild1 : is_Some (heap1 !! child)).
  { unfold heap1, EvenniaAddJSONObject, handle_to, SetObjectField, SetField. simpl.
    rewrite lookup_alter_ne by (intros Heq; apply Hne; symmetry; exact Heq). exact Hchild. }
  split.
  - apply Hget. unfold heap2. rewrite EvenniaAddJSONElement_SetField by exact Hkey.
    rewrite FindField_SetField_other_object by exact Hne. exact Hfield.
  - rewrite (Hget heap1 Hfield). unfold heap2.
    rewrite EvenniaGetJSONElement_FindField, Hkeyplain.
    rewrite EvenniaAddJSONElement_SetField by exact Hkey.
    rewrite FindField_SetField by exact Hchild1. reflexivity.
Qed.

(** X5.  On a valid handle, and for a name free of escape sequences,
    [EvenniaGetJSONObject] returns the handle around the engine's shared
    empty object [EMPTY_OBJECT] in three cases: the object has no field of
    that name; the field holds a string; the field was set by
    [EvenniaAddJSONObject] from a handle without an object, which stored a
    JSON null.  So a handle without an object that was attached is not what
    is fetched back. *)
Theorem EvenniaGetJSONObject_without_an_object_field
    (heap : Heap) (o : oid) (Name : FString) :
  is_Some (heap !! o) -> ReplaceEscapedCharWithChar Name = Name ->
  let empty := Some {| JSONObject := EMPTY_OBJECT |} in
  (FindField heap o Name = None -> EvenniaGetJSONObject heap (handle_to o) Name = empty)
  /\ (forall Value, Name <> "" ->
        EvenniaGetJSONObject (EvenniaAddJSONElement heap (handle_to o) Name Value)
          (handle_to o) Name = empty)
  /\ EvenniaGetJSONObject
       (EvenniaAddJSONObject heap (handle_to o) Name (Some {| JSONObject := None |}))
       (handle_to o) Name = empty.
Proof.
  intros Ho Hplain empty.
  assert (Hget : forall heap' v, FindField heap' o Name = Some v ->
                                 FJsonValue_Type v <> EJson.Object ->
                                 EvenniaGetJSONObject heap' (handle_to o) Name = empty).
  { intros heap' v Hfield Htype.
    unfold EvenniaGetJSONObject, handle_to, GetObjectField, GetField.
    rewrite Hplain, Hfield.
    case_decide as Hcase; [|reflexivity].
    destruct Hcase as [Hnone|Hobj]; [discriminate Hnone | destruct (Htype Hobj)]. }
  split; [|split].
  - intros Hnone. unfold EvenniaGetJSONObject, handle_to, GetObjectField, GetField.
    rewrite Hplain, Hnone. reflexivity.
  - intros Value Hname. apply (Hget _ (FJsonValueString Value)); [|discriminate].
    rewrite EvenniaAddJSONElement_SetField by exact Hname. apply FindField_SetField, Ho.
  - apply (Hget _ FJsonValueNull); [|discriminate].
    unfold EvenniaAddJSONObject, handle_to, SetObjectField. simpl.
    apply FindField_SetField, Ho.
Qed.

(** ** The keys and types of an object *)

Lemma KeysAndTypes_lookup (heap : Heap) (o : oid) (k : FString) :
  fst (EvenniaGetJSONObjectKeysAndTypes heap (handle_to o)) !! k
  = (fun v => same_name (FJsonValue_Type v)) <$> FindField heap o k.
Proof.
  unfold EvenniaGetJSONObjectKeysAndTypes, handle_to, FindField. cbn [fst].
  rewrite lookup_fmap.
  destruct (heap !! o) as [Values|]; unfold default, from_option, id, mbind, option_bind.
  - destruct (Values !! k) as [v|]; [|reflexivity].
    unfold fmap, option_fmap, option_map.
    rewrite static_cast_EJsonType_same_name. reflexivity.
  - rewrite lookup_empty. reflexivity.
Qed.

(** X6.  What [EvenniaGetJSONObjectKeysAndTypes] reports after each setter
    was called on a valid handle: the string setter leaves a [String] field
    under the name given, the numeric setter a [Number] field under the name
    with its escape sequences replaced, the object setter an [Object] field
    for a handle with an object and a [Null] field for a handle without one,
    the array setter an [Array] field; the last three under the name as
    given. *)
Theorem setters_and_reported_types (heap : Heap) (o : oid) :
  is_Some (heap !! o) ->
  let types heap' := fst (EvenniaGetJSONObjectKeysAndTypes heap' (handle_to o)) in
  (forall Name Value,
      Name <> "" ->
      types (EvenniaAddJSONElement heap (handle_to o) Name Value) !! Name
      = Some EJsonType.String)
  /\ (forall Name Value,
        types (EvenniaAddJSONNumericElement heap (handle_to o) Name Value)
          !! ReplaceEscapedCharWithChar Name
        = Some EJsonType.Number)
  /\ (forall Name child,
        types (EvenniaAddJSONObject heap (handle_to o) Name (handle_to child)) !! Name
        = Some EJsonType.Object)
  /\ (forall Name,
        types (EvenniaAddJSONObject heap (handle_to o) Name (Some {| JSONObject := None |}))
          !! Name
        = Some EJsonType.Null)
  /\ (forall Name arr,
        types (EvenniaAddJSONArrayToObject heap (handle_to o) Name (Some arr)) !! Name
        = Some EJsonType.Array).
Proof.
  intros Ho types. unfold types.
  split; [|split; [|split; [|split]]]; intros Name; intros; rewrite KeysAndTypes_lookup.
  - rewrite EvenniaAddJSONElement_SetField by assumption.
    rewrite FindField_SetField by exact Ho. reflexivity.
  - unfold EvenniaAddJSONNumericElement, handle_to, SetNumberField.
    rewrite FindField_SetField by exact Ho. reflexivity.
  - unfold EvenniaAddJSONObject, handle_to, SetObjectField. simpl.
    rewrite FindField_SetField by exact Ho. reflexivity.
  - unfold EvenniaAddJSONObject, handle_to, SetObjectField. simpl.
    rewrite FindField_SetField by exact Ho. reflexivity.
  - unfold EvenniaAddJSONArrayToObject, handle_to, SetArrayField.
    rewrite FindField_SetField by exact Ho. reflexivity.
Qed.

(** X7.  On a valid handle [EvenniaGetJSONObjectKeysAndTypes] lists exactly
    the keys of the object, each with the enumerator named like the tag of
    the value it holds, and [ElementCount] is the number of fields of the
    object, which is also the number of entries of the map returned. *)
Theorem EvenniaGetJSONObjectKeysAndTypes_fields
    (heap : Heap) (o : oid) (Values : gmap string FJsonValue) :
  heap !! o = Some Values ->
  let KeysAndTypes := fst (EvenniaGetJSONObjectKeysAndTypes heap (handle_to o)) in
  let ElementCount := snd (EvenniaGetJSONObjectKeysAndTypes heap (handle_to o)) in
  dom KeysAndTypes = dom Values
  /\ (forall k, KeysAndTypes !! k = (fun v => same_name (FJsonValue_Type v)) <$> Values !! k)
  /\ ElementCount = Z.of_nat (size Values)
  /\ ElementCount = Z.of_nat (size KeysAndTypes).
Proof.
  intros Ho KeysAndTypes ElementCount.
  assert (Hlookup : forall k, KeysAndTypes !! k
                              = (fun v => same_name (FJsonValue_Type v)) <$> Values !! k).
  { intros k. unfold KeysAndTypes. rewrite KeysAndTypes_lookup.
    unfold FindField. rewrite Ho. reflexivity. }
  assert (Hdom : dom KeysAndTypes = dom Values).
  { apply set_eq. intros k. rewrite !elem_of_dom, Hlookup. apply fmap_is_Some. }
  split; [exact Hdom|]. split; [exact Hlookup|].
  unfold ElementCount. rewrite (KeysAndTypes_count _ _ _ Ho).
  split; [reflexivity|]. rewrite <- (size_dom KeysAndTypes), Hdom, size_dom. reflexivity.
Qed.

(** ** New objects *)

Lemma EvenniaNewJSONObject_address (heap : Heap) :
  snd (EvenniaNewJSONObject heap) = {| JSONObject := Some (fresh (dom heap)) |}
  /\ fst (EvenniaNewJSONObject heap) = <[fresh (dom heap) := ∅]> heap
  /\ heap !! fresh (dom heap) = None.
Proof.
  split; [reflexivity|]. split; [reflexivity|].
  apply not_elem_of_dom, is_fresh.
Qed.

(** X8.  [EvenniaNewJSONObject] returns a valid handle to an object that was
    not on the heap before, has no field, and leaves every other object as it
    was.  Two objects made one after the other are different objects: a
    string field set through the handle of one of them is not read through
    the handle of the other. *)
Theorem EvenniaNewJSONObject_fresh_and_empty (heap : Heap) :
  let heap1 := fst (EvenniaNewJSONObject heap) in
  let A := snd (EvenniaNewJSONObject heap) in
  let heap2 := fst (EvenniaNewJSONObject heap1) in
  let B := snd (EvenniaNewJSONObject heap1) in
  (exists a, A = {| JSONObject := Some a |}
             /\ heap !! a = None /\ heap1 !! a = Some ∅
             /\ forall o, o <> a -> heap1 !! o = heap !! o)
  /\ EvenniaGetJSONObjectKeysAndTypes heap1 (Some A) = (∅, 0%Z)
  /\ A <> B
  /\ (forall Name Value Key stale,
        EvenniaGetJSONElement (EvenniaAddJSONElement heap2 (Some A) Name Value)
          (Some B) Key stale = ""
        /\ EvenniaGetJSONElement (EvenniaAddJSONElement heap2 (Some B) Name Value)
             (Some A) Key stale = "").
Proof.
  intros heap1 A heap2 B.
  destruct (EvenniaNewJSONObject_address heap) as (HA & H1 & Hfresh).
  destruct (EvenniaNewJSONObject_address heap1) as (HB & H2 & Hfresh1).
  fold heap1 in H1, HB, H2, Hfresh1. fold A in HA. fold heap2 in H2. fold B in HB.
  set (a := fresh (dom heap)) in *. set (b := fresh (dom heap1)) in *.
  assert (Ha1 : heap1 !! a = Some ∅) by (rewrite H1; apply lookup_insert_eq).
  assert (Hab : a <> b) by (intros Heq; rewrite Heq, Hfresh1 in Ha1; discriminate Ha1).
  assert (Ha2 : heap2 !! a = Some ∅)
    by (rewrite H2, lookup_insert_ne by (intros Heq; apply Hab; symmetry; exact Heq);
        exact Ha1).
  assert (Hb2 : heap2 !! b = Some ∅) by (rewrite H2; apply lookup_insert_eq).
  split; [|split; [|split]].
  - exists a. split; [exact HA|]. split; [exact Hfresh|]. split; [exact Ha1|].
    intros o Ho. rewrite H1. apply lookup_insert_ne. intros Heq. apply Ho. symmetry. exact Heq.
  - rewrite HA. unfold EvenniaGetJSONObjectKeysAndTypes. simpl. rewrite Ha1. simpl.
    rewrite fmap_empty. reflexivity.
  - rewrite HA, HB. intros Heq. apply Hab. congruence.
  - assert (Hother : forall x y Name Value Key stale,
               x <> y -> heap2 !! y = Some ∅ ->
               EvenniaGetJSONElement (EvenniaAddJSONElement heap2 (handle_to x) Name Value)
                 (handle_to y) Key stale = "").
    { intros x y Name Value Key stale Hxy Hy.
      rewrite EvenniaGetJSONElement_FindField.
      assert (Hsame : FindField (EvenniaAddJSONElement heap2 (handle_to x) Name Value) y
                        (ReplaceEscapedCharWithChar Key)
                      = FindField heap2 y (ReplaceEscapedCharWithChar Key)).
      { unfold EvenniaAddJSONElement, handle_to, SetStringField.
        destruct (negb (Name =? "")%string); [|reflexivity].
        apply FindField_SetField_other_object, Hxy. }
      rewrite Hsame. unfold FindField. rewrite Hy. simpl. rewrite lookup_empty. reflexivity. }
    intros Name Value Key stale. rewrite HA, HB. split.
    + apply (Hother a b); [exact Hab | exact Hb2].
    + apply (Hother b a); [intros Heq; apply Hab; symmetry; exact Heq | exact Ha2].
Qed.

(** ** Nothing is ever removed *)

Lemma fields_kept_refl (heap : Heap) : fields_kept heap heap.
Proof. intros o Values Ho. exists Values. split; [exact Ho | reflexivity]. Qed.

Lemma SetField_fields_kept (heap : Heap) (o : oid) k (v : FJsonValue) :
  fields_kept heap (SetField heap o k v).
Proof.
  intros x Values Hx. unfold SetField.
  destruct (decide (o = x)) as [<-|Hne].
  - exists (<[k := v]> Values). rewrite lookup_alter_eq, Hx. split; [reflexivity|].
    rewrite dom_insert_L. apply union_subseteq_r.
  - exists Values. rewrite lookup_alter_ne by exact Hne. split; [exact Hx | reflexivity].
Qed.

(** X9.  The library has no call that removes anything: after any of the
    construction functions, called on any handles, every object that was on
    the heap is still there and still has every key it had (the value under a
    key may have been replaced). *)
Theorem construction_keeps_objects_and_fields
    (heap : Heap) (JSONHandle : option UJSONHandle) (Name : FString) :
  fields_kept heap (fst (EvenniaNewJSONObject heap))
  /\ (forall Value, fields_kept heap (EvenniaAddJSONElement heap JSONHandle Name Value))
  /\ (forall Value, fields_kept heap (EvenniaAddJSONNumericElement heap JSONHandle Name Value))
  /\ (forall Value, fields_kept heap (EvenniaAddJSONObject heap JSONHandle Name Value))
  /\ (forall Value, fields_kept heap (EvenniaAddJSONArrayToObject heap JSONHandle Name Value))
  /\ (forall JSONHandleArray Value,
        fields_kept heap (fst (EvenniaAddJSONArrayToArray heap JSONHandleArray Name Value))).
Proof.
  split; [|split; [|split; [|split; [|split]]]].
  - intros o Values Ho. exists Values. split; [|reflexivity].
    destruct (EvenniaNewJSONObject_address heap) as (_ & -> & Hfresh).
    rewrite lookup_insert_ne; [exact Ho|]. intros Heq. rewrite Heq, Ho in Hfresh.
    discriminate Hfresh.
  - intros Value. unfold EvenniaAddJSONElement, SetStringField.
    destruct JSONHandle as [[[o|]]|]; try apply fields_kept_refl.
    destruct (negb (Name =? "")%string); [apply SetField_fields_kept | apply fields_kept_refl].
  - intros Value. unfold EvenniaAddJSONNumericElement, SetNumberField.
    destruct JSONHandle as [[[o|]]|]; try apply fields_kept_refl. apply SetField_fields_kept.
  - intros Value. unfold EvenniaAddJSONObject, SetObjectField.
    destruct JSONHandle as [[[o|]]|]; try apply fields_kept_refl.
    destruct Value as [[[child|]]|]; simpl;
      first [apply SetField_fields_kept | apply fields_kept_refl].
  - intros Value. unfold EvenniaAddJSONArrayToObject, SetArrayField.
    destruct JSONHandle as [[[o|]]|]; try apply fields_kept_refl.
    destruct Value as [arr|]; [apply SetField_fields_kept | apply fields_kept_refl].
  - intros JSONHandleArray Value. unfold EvenniaAddJSONArrayToArray.
    destruct JSONHandleArray as [arr|], Value as [v|]; apply fields_kept_refl.
Qed.

End Fields.

(** ** Array handles *)

Section Arrays.
Context {engine : JsonEngine}.

(** X10.  [EvenniaGetJSONArrayHandleAsArray] returns one valid value handle
    per element, in order, and [ElementCount] is the length of the array.  In
    range, reading through the value handle at an index agrees with reading
    the array handle at that index: [EvenniaGetJSONValueType] gives the type
    [EvenniaGetJSONObjectType] gives, and [EvenniaJSONValueAsObject] the
    handle [EvenniaGetJSONObjectFromArray] gives. *)
Theorem array_elements_as_values (arr : UJSONHandleArray) :
  let JSONValueArray := fst (EvenniaGetJSONArrayHandleAsArray (Some arr)) in
  let ElementCount := snd (EvenniaGetJSONArrayHandleAsArray (Some arr)) in
  ElementCount = Num (JSONObjectArray arr)
  /\ Num JSONValueArray = ElementCount
  /\ forall Index JsonType Success,
       (0 <= Index < ElementCount)%Z ->
       exists elem,
         JSONObjectArray arr !! Z.to_nat Index = Some elem
         /\ JSONValueArray !! Z.to_nat Index = Some {| JSONValue := Some elem |}
         /\ EvenniaGetJSONObjectType (Some arr) Index JsonType
            = Returns (EvenniaGetJSONValueType (JSONValueArray !! Z.to_nat Index) JsonType)
         /\ EvenniaGetJSONObjectFromArray (Some arr) Index Success
            = Returns (EvenniaJSONValueAsObject (JSONValueArray !! Z.to_nat Index), true).
Proof.
  intros JSONValueArray ElementCount.
  assert (Hcount : ElementCount = Num (JSONObjectArray arr)).
  { unfold ElementCount, EvenniaGetJSONArrayHandleAsArray, Num. simpl.
    rewrite length_fmap. reflexivity. }
  split; [exact Hcount|]. split; [reflexivity|].
  intros Index JsonType Success Hrange. rewrite Hcount in Hrange.
  destruct (TArray_at_in_range (JSONObjectArray arr) Index Hrange) as (elem & Helem & Hat).
  assert (Hvalue : JSONValueArray !! Z.to_nat Index = Some {| JSONValue := Some elem |}).
  { unfold JSONValueArray, EvenniaGetJSONArrayHandleAsArray. simpl.
    rewrite list_lookup_fmap, Helem. reflexivity. }
  exists elem. split; [exact Helem|]. split; [exact Hvalue|]. rewrite Hvalue. split.
  - unfold EvenniaGetJSONObjectType. rewrite Hat. reflexivity.
  - unfold EvenniaGetJSONObjectFromArray. rewrite Hat.
    destruct (Index <=? Num (JSONObjectArray arr))%Z eqn:Hle; [reflexivity|].
    apply Z.leb_gt in Hle. lia.
Qed.

(** X11.  What the three conversions give on a valid value handle, by the
    type [EvenniaGetJSONValueType] reports for it.  [EvenniaJSONValueAsObject]
    hands out the object of an [Object] value and the engine's shared empty
    object for every other type; [EvenniaJSONValueAsArray] the elements of an
    [Array] value and an empty array handle for every other type;
    [EvenniaJSONValueAsString] the text of a [String] value, the words true
    and false for a [Boolean], and the empty string for [None], [Null],
    [Array] and [Object].  None of them returns a null pointer or leaves the
    caller's variable as it was. *)
Theorem value_conversions_by_type (v : FJsonValue) (stale : FString) (JsonType : EJsonType.t) :
  let value := Some {| JSONValue := Some v |} in
  let type := EvenniaGetJSONValueType value JsonType in
  (type <> EJsonType.Object ->
   EvenniaJSONValueAsObject value = Some {| JSONObject := EMPTY_OBJECT |})
  /\ (type = EJsonType.Object ->
      exists p, v = FJsonValueObject p
                /\ EvenniaJSONValueAsObject value = Some {| JSONObject := p |})
  /\ (type <> EJsonType.Array ->
      EvenniaJSONValueAsArray value = Some {| JSONObjectArray := [] |})
  /\ (type = EJsonType.Array ->
      exists a, v = FJsonValueArray a
                /\ EvenniaJSONValueAsArray value = Some {| JSONObjectArray := a |})
  /\ (type = EJsonType.String ->
      exists s, v = FJsonValueString s /\ EvenniaJSONValueAsString value stale = s)
  /\ (type = EJsonType.Boolean ->
      exists b, v = FJsonValueBoolean b
                /\ EvenniaJSONValueAsString value stale = if b then "true" else "false")
  /\ (type ∈ [EJsonType.None; EJsonType.Null; EJsonType.Array; EJsonType.Object] ->
      EvenniaJSONValueAsString value stale = "").
Proof.
  intros value type. unfold type, value.
  destruct v as [| |s|d|b|a|p]; cbn;
    (split; [|split; [|split; [|split; [|split; [|split]]]]]);
    intros Htype; try reflexivity; try discriminate Htype; try (destruct Htype; reflexivity);
    try (eexists; split; reflexivity);
    exfalso; repeat (apply elem_of_cons in Htype as [Htype|Htype]; [discriminate Htype|]);
    apply elem_of_nil in Htype; exact Htype.
Qed.



(** X13.  [EvenniaParseMultiple] always returns an array handle, never a
    null pointer, and [ElementCount] is the number of elements of the handle
    returned, the count [EvenniaGetJSONArrayHandleAsArray] reports for it.
    [Success] is true exactly when the engine's reader accepts the text as an
    array.  When it does not, no object was created, the handle returned is
    empty and the count is 0, and asking [EvenniaGetJSONObjectFromArray] for
    its element 0 passes that function's index test and fails the range check
    of the array. *)
Theorem EvenniaParseMultiple_outcome (heap : Heap) (JSONString : FString) :
  let heap' := fst (fst (fst (EvenniaParseMultiple heap JSONString))) in
  let JSONHandleArray := snd (fst (fst (EvenniaParseMultiple heap JSONString))) in
  let ElementCount := snd (fst (EvenniaParseMultiple heap JSONString)) in
  let Success := snd (EvenniaParseMultiple heap JSONString) in
  (exists arr, JSONHandleArray = Some arr /\ ElementCount = Num (JSONObjectArray arr))
  /\ snd (EvenniaGetJSONArrayHandleAsArray JSONHandleArray) = ElementCount
  /\ (Success = true <-> is_Some (DeserializeArray JSONString heap))
  /\ (Success = false ->
      heap' = heap
      /\ JSONHandleArray = Some EvenniaNewJSONObjectArray
      /\ ElementCount = 0%Z
      /\ forall stale,
           EvenniaGetJSONObjectFromArray JSONHandleArray 0 stale
           = Aborts ArrayIndexOutOfBounds).
Proof.
  unfold EvenniaParseMultiple.
  destruct (DeserializeArray JSONString heap) as [[heap' Array]|]; cbn [fst snd].
  - split; [eexists; split; reflexivity|]. split.
    + unfold EvenniaGetJSONArrayHandleAsArray, Num. simpl. rewrite length_fmap. reflexivity.
    + split; [split; eauto|]. discriminate.
  - split; [eexists; split; reflexivity|]. split; [reflexivity|].
    split; [split; [discriminate | intros [x Hx]; discriminate Hx]|].
    intros _. repeat split.
Qed.

(** X14.  [EvenniaGetJSONElementMultiple] looks the name up as given, without
    replacing escape sequences, as the string setter stores it.  So once an
    object was appended to an array handle, a string field set on the object
    under any non-empty name is read through the array at the index of the
    object, and a name the object does not have reads as the empty string.
    If what was appended is a handle without an object, or the element
    [EvenniaAddJSONArrayToArray] appends, the same call in range dereferences
    a null object pointer. *)
Theorem EvenniaGetJSONElementMultiple_of_appended
    (heap : Heap) (arr : UJSONHandleArray) (o : oid) (Name Value stale : FString) :
  is_Some (heap !! o) -> Name <> "" ->
  let Index := Num (JSONObjectArray arr) in
  let appended := EvenniaAddJSONObjectToArray (Some arr) (handle_to o) in
  let heap' := EvenniaAddJSONElement heap (handle_to o) Name Value in
  EvenniaGetJSONElementMultiple heap' appended Index Name stale = Returns Value
  /\ (forall Key,
        FindField heap' o Key = None ->
        EvenniaGetJSONElementMultiple heap' appended Index Key stale = Returns "")
  /\ EvenniaGetJSONElementMultiple heap'
       (EvenniaAddJSONObjectToArray (Some arr) (Some {| JSONObject := None |}))
       Index Name stale
     = Aborts NullSharedPtrDereference
  /\ (forall Key nested,
        EvenniaGetJSONElementMultiple heap'
          (snd (EvenniaAddJSONArrayToArray heap' (Some arr) Key (Some nested)))
          Index Name stale
        = Aborts NullSharedPtrDereference).
Proof.
  intros Ho Hname Index appended heap'.
  assert (Hin : forall x, (Index <=? Num (JSONObjectArray arr ++ [x]) - 1)%Z = true).
  { intros x. apply Z.leb_le. unfold Index, Num. rewrite length_app. simpl. lia. }
  assert (Hread : forall p Key,
             EvenniaGetJSONElementMultiple heap'
               (Some {| JSONObjectArray := JSONObjectArray arr ++ [FJsonValueObject p] |})
               Index Key stale
             = match p with
               | Some x => Returns (GetStringField heap' x Key)
               | None => Aborts NullSharedPtrDereference
               end).
  { intros p Key. unfold EvenniaGetJSONElementMultiple. cbn [JSONObjectArray].
    rewrite Hin. unfold Index. rewrite TArray_at_last. destruct p; reflexivity. }
  split; [|split; [|split]].
  - unfold appended, EvenniaAddJSONObjectToArray, handle_to. cbn [JSONObject].
    rewrite Hread. f_equal. unfold heap'.
    rewrite EvenniaAddJSONElement_SetField by exact Hname.
    unfold GetStringField, GetField. rewrite FindField_SetField by exact Ho.
    case_decide as Hcase; [reflexivity|]. destruct Hcase. left. reflexivity.
  - intros Key Hnone. unfold appended, EvenniaAddJSONObjectToArray, handle_to.
    cbn [JSONObject]. rewrite Hread. unfold GetStringField, GetField. rewrite Hnone.
    reflexivity.
  - unfold EvenniaAddJSONObjectToArray. cbn [JSONObject]. apply Hread.
  - intros Key nested. unfold EvenniaAddJSONArrayToArray. cbn [snd JSONObject]. apply Hread.
Qed.

(** X15.  [EvenniaAddJSONObjectToArray] appends exactly one element and
    leaves the elements before it where they were.  It does not look at
    whether the handle appended has an object: a handle without one is
    appended all the same, as an element of type [Object] (where the object
    setter stores a [Null] field for such a handle), and
    [EvenniaGetJSONObjectFromArray] hands back a handle without an object for
    it. *)
Theorem EvenniaAddJSONObjectToArray_appends (arr : UJSONHandleArray) (Value : UJSONHandle) :
  exists appended,
    EvenniaAddJSONObjectToArray (Some arr) (Some Value) = Some appended
    /\ Num (JSONObjectArray appended) = (Num (JSONObjectArray arr) + 1)%Z
    /\ (forall i elem,
          JSONObjectArray arr !! i = Some elem -> JSONObjectArray appended !! i = Some elem)
    /\ (forall JsonType,
          EvenniaGetJSONObjectType (Some appended) (Num (JSONObjectArray arr)) JsonType
          = Returns EJsonType.Object)
    /\ (forall Success,
          EvenniaGetJSONObjectFromArray (Some appended) (Num (JSONObjectArray arr)) Success
          = Returns (Some Value, true)).
Proof.
  eexists. split; [reflexivity|]. cbn [JSONObjectArray]. split; [|split; [|split]].
  - unfold Num. rewrite length_app. simpl. lia.
  - intros i elem Hi. apply lookup_app_l_Some. exact Hi.
  - intros JsonType. unfold EvenniaGetJSONObjectType. cbn [JSONObjectArray].
    rewrite TArray_at_last. reflexivity.
  - intros Success. unfold EvenniaGetJSONObjectFromArray. cbn [JSONObjectArray].
    rewrite TArray_at_last.
    destruct (Num (JSONObjectArray arr)
              <=? Num (JSONObjectArray arr ++ [FJsonValueObject (JSONObject Value)]))%Z
      eqn:Hle.
    + destruct Value as [p]. reflexivity.
    + apply Z.leb_gt in Hle. unfold Num in Hle. rewrite length_app in Hle. simpl in Hle. lia.
Qed.

End Arrays.

(** ** Messages on the wire *)

Lemma byte_of_Z_code_unit (c : ascii) : byte_of_Z (Z.of_N (N_of_ascii c)) = byte_of_ascii c.
Proof. destruct c as [[] [] [] [] [] [] [] []]; reflexivity. Qed.

Lemma code_unit_bounded (c : ascii) : (0 <= Z.of_N (N_of_ascii c) < 256)%Z.
Proof. destruct c as [[] [] [] [] [] [] [] []]; vm_compute; split; congruence. Qed.

Lemma code_unit_nonzero (c : ascii) :
  (0 < Z.of_N (N_of_ascii c))%Z -> Byte.eqb (byte_of_ascii c) x00 = false.
Proof.
  destruct c as [[] [] [] [] [] [] [] []]; intros H;
    first [reflexivity | vm_compute in H; discriminate H].
Qed.

Lemma utf8_encode_char_length (c : Z) :
  (0 <= c < 256)%Z ->
  length (utf8_encode_char c) = if (c <? 128)%Z then 1 else 2.
Proof.
  intros Hc. unfold utf8_encode_char.
  destruct (c <? 128)%Z; [reflexivity|].
  destruct (c <? 2048)%Z eqn:H; [reflexivity|]. apply Z.ltb_ge in H. lia.
Qed.

(** The UTF-8 text of an ASCII text has one byte per character: the
    character itself. *)
Lemma TCHAR_TO_UTF8_ascii (s : FString) :
  ascii_text s -> TCHAR_TO_UTF8 s = list_byte_of_string s.
Proof.
  unfold ascii_text, TCHAR_TO_UTF8, code_units, list_byte_of_string.
  induction (list_ascii_of_string s) as [|c l IH]; intros Hs; [reflexivity|].
  apply Forall_cons in Hs as [Hc Hl]. cbn [fmap list_fmap concat].
  rewrite (IH Hl). unfold utf8_encode_char.
  destruct (Z.of_N (N_of_ascii c) <? 128)%Z eqn:Hlt; [|apply Z.ltb_ge in Hlt; lia].
  rewrite byte_of_Z_code_unit. reflexivity.
Qed.

Lemma length_list_byte_of_string (s : string) :
  length (list_byte_of_string s) = String.length s.
Proof.
  unfold list_byte_of_string. rewrite length_map.
  induction s as [|c s IH]; [reflexivity|]. simpl. rewrite IH. reflexivity.
Qed.

(** The UTF-8 text of a text is never shorter than the text, and longer as
    soon as one character is not ASCII. *)
Lemma TCHAR_TO_UTF8_length (s : FString) :
  String.length s <= length (TCHAR_TO_UTF8 s)
  /\ (Exists (fun c => (128 <= c)%Z) (code_units s) ->
      String.length s < length (TCHAR_TO_UTF8 s)).
Proof.
  unfold TCHAR_TO_UTF8, code_units.
  induction s as [|c s [IHle IHlt]]; [split; [reflexivity | intros H; inversion H]|].
  cbn [list_ascii_of_string fmap list_fmap concat String.length].
  rewrite length_app.
  pose proof (utf8_encode_char_length _ (code_unit_bounded c)) as Hc.
  split.
  - destruct (Z.of_N (N_of_ascii c) <? 128)%Z; lia.
  - intros Hwide. apply Exists_cons in Hwide as [Hhere|Hlater].
    + destruct (Z.of_N (N_of_ascii c) <? 128)%Z eqn:Hlt; [apply Z.ltb_lt in Hlt; lia | lia].
    + specialize (IHlt Hlater). destruct (Z.of_N (N_of_ascii c) <? 128)%Z; lia.
Qed.

Lemma c_str_without_NUL (s : string) :
  Forall (fun c => (0 < c)%Z) (code_units s) ->
  c_str (list_byte_of_string s) = list_byte_of_string s.
Proof.
  unfold code_units, list_byte_of_string.
  induction (list_ascii_of_string s) as [|c l IH]; intros Hs; [reflexivity|].
  apply Forall_cons in Hs as [Hc Hl]. cbn [fmap list_fmap] in Hc, Hl |- *. simpl.
  rewrite (code_unit_nonzero c Hc), (IH Hl). reflexivity.
Qed.

Lemma ascii_text_without_NUL (s : FString) :
  ascii_text s -> Forall (fun c => (0 < c)%Z) (code_units s).
Proof.
  unfold ascii_text. intros Hs. apply (Forall_impl _ _ _ Hs). intros c Hc. lia.
Qed.

Lemma ANSI_TO_TCHAR_ascii (c : ascii) :
  (Z.of_N (N_of_ascii c) < 128)%Z -> ANSI_TO_TCHAR (byte_of_ascii c) = c.
Proof.
  destruct c as [[] [] [] [] [] [] [] []]; intros H;
    first [reflexivity | vm_compute in H; discriminate H].
Qed.

(** The bytes of an ASCII text without a NUL are converted back to the
    text. *)
Lemma FString_of_ANSI_ascii (s : FString) :
  ascii_text s -> FString_of_ANSI (list_byte_of_string s) = s.
Proof.
  intros Hascii. unfold FString_of_ANSI.
  rewrite (c_str_without_NUL _ (ascii_text_without_NUL _ Hascii)).
  unfold ascii_text, code_units in Hascii. unfold list_byte_of_string.
  induction s as [|c s IH]; [reflexivity|].
  cbn [list_ascii_of_string fmap list_fmap] in Hascii.
  apply Forall_cons in Hascii as [Hc Hs].
  cbn [list_ascii_of_string map fmap list_fmap string_of_list_ascii].
  rewrite (ANSI_TO_TCHAR_ascii c) by lia. f_equal. apply IH, Hs.
Qed.

Lemma SendMessage_connected (MySocket : FSocket) (Message : FString) :
  Message <> "" -> SendSucceeds MySocket = true ->
  SendMessage (Some {| _Socket := Some MySocket |}) Message
  = (true, Some {| _Socket :=
                     Some {| Pending := Pending MySocket;
                             Sent := Sent MySocket
                                       ++ take (String.length Message) (TCHAR_TO_UTF8 Message);
                             SendSucceeds := SendSucceeds MySocket;
                             IsOpen := IsOpen MySocket |} |}).
Proof.
  intros Hne Hok. unfold SendMessage, GetSocket, FSocket_Send. cbn [_Socket].
  apply String.eqb_neq in Hne. rewrite Hne, Hok, Nat2Z.id. reflexivity.
Qed.

(** X16.  On a connection whose socket accepts the write, [SendMessage] of a
    non-empty text without a NUL character (where [Strlen] is the number of
    characters) returns true, leaves the pending input alone, and hands the
    socket the UTF-8 bytes of the text cut to the number of characters of the
    text.  For an ASCII text these are all its bytes.  For a text with a
    character outside ASCII the UTF-8 text is longer than the character
    count, so its last bytes are never sent. *)
Theorem SendMessage_sends_one_byte_per_character (MySocket : FSocket) (Message : FString) :
  Message <> "" -> Forall (fun c => (0 < c)%Z) (code_units Message) ->
  SendSucceeds MySocket = true ->
  exists after,
    SendMessage (Some {| _Socket := Some MySocket |}) Message
    = (true, Some {| _Socket := Some after |})
    /\ Pending after = Pending MySocket
    /\ Sent after
       = Sent MySocket ++ take (String.length Message) (TCHAR_TO_UTF8 Message)
    /\ (ascii_text Message -> Sent after = Sent MySocket ++ TCHAR_TO_UTF8 Message)
    /\ (wide_text Message ->
        exists unsent,
          unsent <> [] /\ Sent after ++ unsent = Sent MySocket ++ TCHAR_TO_UTF8 Message).
Proof.
  intros Hne _ Hok. eexists. split; [apply SendMessage_connected; assumption|].
  cbn [Pending Sent]. split; [reflexivity|]. split; [reflexivity|]. split.
  - intros Hascii. rewrite (TCHAR_TO_UTF8_ascii _ Hascii).
    rewrite take_ge; [reflexivity|]. rewrite length_list_byte_of_string. lia.
  - intros [_ Hwide]. exists (drop (String.length Message) (TCHAR_TO_UTF8 Message)). split.
    + intros Hnil. apply (f_equal (@length byte)) in Hnil. rewrite length_drop in Hnil.
      destruct (TCHAR_TO_UTF8_length Message) as [_ Hlt]. specialize (Hlt Hwide).
      simpl in Hnil. lia.
    + rewrite <- app_assoc, take_drop. reflexivity.
Qed.

(** X17.  Sending and receiving agree on ASCII: when a non-empty ASCII text
    without a NUL, at most 65507 characters long, is sent with [SendMessage],
    and the bytes handed to the socket are what is pending on a connection,
    [GetMessage] on that connection returns true with the text that was
    sent. *)
Theorem SendMessage_then_GetMessage (MySocket : FSocket) (Message stale : FString) :
  Message <> "" -> ascii_text Message -> String.length Message <= MaxRead ->
  SendSucceeds MySocket = true ->
  exists after sent,
    SendMessage (Some {| _Socket := Some MySocket |}) Message
    = (true, Some {| _Socket := Some after |})
    /\ Sent after = Sent MySocket ++ sent
    /\ forall peer,
         Pending peer = sent ->
         fst (GetMessage (Some {| _Socket := Some peer |}) stale) = (true, Message).
Proof.
  intros Hne Hascii Hlen Hok.
  eexists. exists (list_byte_of_string Message).
  split; [apply SendMessage_connected; assumption|]. cbn [Sent]. split.
  - rewrite (TCHAR_TO_UTF8_ascii _ Hascii).
    rewrite take_ge; [reflexivity|]. rewrite length_list_byte_of_string. lia.
  - intros peer Hpeer. rewrite GetMessage_connected, Hpeer.
    destruct (list_byte_of_string Message) as [|b rest] eqn:Hbytes.
    + apply (f_equal (@length byte)) in Hbytes.
      rewrite length_list_byte_of_string in Hbytes.
      destruct Message; [congruence | discriminate Hbytes].
    + cbn [fst]. rewrite <- Hbytes.
      rewrite final_chunk_short by (rewrite length_list_byte_of_string; exact Hlen).
      rewrite (FString_of_ANSI_ascii _ Hascii). reflexivity.
Qed.

(** X18.  [GetMessage] on a connection with a socket returns what
    [HasPendingData] returned just before it, and reads the socket empty
    whatever the size of the input: afterwards [HasPendingData] is false and
    a second [GetMessage] returns false and leaves the message of the first
    in place.  Reading changes nothing else about the connection: what was
    sent and whether the socket is open stay as they were. *)
Theorem GetMessage_reads_the_socket_empty (MySocket : FSocket) (Message : FString) :
  let before := Some {| _Socket := Some MySocket |} in
  let result := fst (fst (GetMessage before Message)) in
  let received := snd (fst (GetMessage before Message)) in
  let Connection := snd (GetMessage before Message) in
  result = HasPendingData before
  /\ HasPendingData Connection = false
  /\ GetMessage Connection received = (false, received, Connection)
  /\ exists after,
       Connection = Some {| _Socket := Some after |}
       /\ Pending after = []
       /\ Sent after = Sent MySocket
       /\ SendSucceeds after = SendSucceeds MySocket
       /\ IsOpen after = IsOpen MySocket.
Proof.
  cbv zeta. rewrite GetMessage_connected.
  destruct MySocket as [pending sent ok open]. cbn [Pending].
  destruct pending as [|b rest]; cbn [fst snd].
  - split; [reflexivity|]. split; [reflexivity|].
    split; [rewrite GetMessage_connected; reflexivity|].
    eexists. split; [reflexivity|]. repeat split.
  - split; [reflexivity|]. split; [reflexivity|].
    split; [rewrite GetMessage_connected; reflexivity|].
    eexists. split; [reflexivity|]. repeat split.
Qed.

(** ** The life of a connection *)

Section ConnectionLifetime.
Context {platform : SocketSubsystem}.

(** X19.  A connection [Connect] returns with success is valid and holds the
    socket the builder made: [HasPendingData] on it is what that socket
    reports.  [CloseConnection] on it returns what the socket's [Close]
    returns and does not let go of the socket: the connection still holds
    the socket, now closed, and is still valid, so the validity tests of the
    socket functions do not stop a call made after the connection was
    closed. *)
Theorem Connect_then_CloseConnection (IP : FString) (port : Z) (conn : USocket) :
  Connect IP port = (Some conn, true) ->
  exists sock,
    Build (default FIPv4Address_default (FIPv4Address_Parse IP)) = Some sock
    /\ GetSocket conn = Some sock
    /\ ~ invalid_connection (Some conn)
    /\ HasPendingData (Some conn) = fst (FSocket_HasPendingData sock)
    /\ exists closed,
         CloseConnection (Some conn) = (fst (FSocket_Close sock), Some closed)
         /\ GetSocket closed = Some (snd (FSocket_Close sock))
         /\ ~ invalid_connection (Some closed).
Proof.
  unfold Connect. intros Hconnect.
  destruct (Build (default FIPv4Address_default (FIPv4Address_Parse IP))) as [sock|];
    [|discriminate Hconnect].
  destruct (FSocket_Connect sock _ port); [|discriminate Hconnect].
  simpl in Hconnect. injection Hconnect as <-.
  exists sock. split; [reflexivity|]. split; [reflexivity|]. split.
  - intros [Hnull | Hnone]; [discriminate Hnull | discriminate Hnone].
  - split; [reflexivity|]. eexists. split; [reflexivity|]. split; [reflexivity|].
    intros [Hnull | Hnone]; [discriminate Hnull | discriminate Hnone].
Qed.

End ConnectionLifetime.

(** ** Printing a structure *)

Section Printing.

Implicit Types PrintValue : FJsonValue -> Z -> option (list LogLine).

Lemma EvenniaPrintJSONArray_loop_ext PrintValue PrintValue' (level : Z) :
  forall (JSONValueArray : list FJsonValue) (x : Z) (log : list LogLine),
    Forall (fun Value => forall l, PrintValue Value level = Some l ->
                                   PrintValue' Value level = Some l) JSONValueArray ->
    EvenniaPrintJSONArray_loop PrintValue x JSONValueArray level = Some log ->
    EvenniaPrintJSONArray_loop PrintValue' x JSONValueArray level = Some log.
Proof.
  induction JSONValueArray as [|Value rest IH]; intros x log Hall Hlog; [exact Hlog|].
  apply Forall_cons in Hall as [Hhere Hrest]. simpl in Hlog |- *.
  destruct (PrintValue Value level) as [printed|] eqn:Hprinted; [|discriminate Hlog].
  rewrite (Hhere printed eq_refl). simpl in Hlog |- *.
  destruct (EvenniaPrintJSONArray_loop PrintValue (x + 1) rest level) as [others|] eqn:Hothers;
    [|discriminate Hlog].
  rewrite (IH _ _ Hrest Hothers). exact Hlog.
Qed.

Lemma EvenniaPrintJSONObject_loop_ext PrintValue PrintValue' (level : Z) :
  forall (Keys : list (FString * FJsonValue)) (log : list LogLine),
    Forall (fun kv => forall l, PrintValue kv.2 level = Some l ->
                                PrintValue' kv.2 level = Some l) Keys ->
    EvenniaPrintJSONObject_loop PrintValue Keys level = Some log ->
    EvenniaPrintJSONObject_loop PrintValue' Keys level = Some log.
Proof.
  induction Keys as [|[Key Field] rest IH]; intros log Hall Hlog; [exact Hlog|].
  apply Forall_cons in Hall as [Hhere Hrest]. simpl in Hlog, Hhere |- *.
  destruct (PrintValue Field level) as [printed|] eqn:Hprinted; [|discriminate Hlog].
  rewrite (Hhere printed eq_refl). simpl in Hlog |- *.
  destruct (EvenniaPrintJSONObject_loop PrintValue rest level) as [others|] eqn:Hothers;
    [|discriminate Hlog].
  rewrite (IH _ Hrest eq_refl). exact Hlog.
Qed.

(** Going deeper than needed does not change what is printed. *)
Lemma EvenniaPrintJSONValue_mono (fuel : nat) : forall fuel' heap Value level log,
  fuel <= fuel' ->
  EvenniaPrintJSONValue fuel heap Value level = Some log ->
  EvenniaPrintJSONValue fuel' heap Value level = Some log.
Proof.
  induction fuel as [|fuel IH]; intros fuel' heap Value level log Hle Hlog;
    [discriminate Hlog|].
  destruct fuel' as [|fuel']; [lia|].
  assert (Hdeeper : forall v l, EvenniaPrintJSONValue fuel heap v level = Some l ->
                                EvenniaPrintJSONValue fuel' heap v level = Some l)
    by (intros v l; apply IH; lia).
  destruct Value as [| |s|d|b|ChildArray|p]; try exact Hlog.
  - simpl in Hlog |- *. unfold EvenniaPrintJSONArray_level in Hlog |- *.
    destruct (0 <? Num ChildArray)%Z; [|exact Hlog].
    destruct (EvenniaPrintJSONArray_loop (EvenniaPrintJSONValue fuel heap) 0 ChildArray level)
      as [elements|] eqn:Helements; [|discriminate Hlog].
    rewrite (EvenniaPrintJSONArray_loop_ext _ (EvenniaPrintJSONValue fuel' heap)
               _ _ _ _ (proj2 (Forall_forall _ _) (fun v _ => Hdeeper v)) Helements).
    exact Hlog.
  - simpl in Hlog |- *. unfold EvenniaPrintJSONObject_level in Hlog |- *.
    destruct p as [o|]; [|exact Hlog].
    destruct (heap !! o) as [Values|]; [|discriminate Hlog]. simpl in Hlog |- *.
    destruct (EvenniaPrintJSONObject_loop (EvenniaPrintJSONValue fuel heap)
                (map_to_list Values) level) as [fields|] eqn:Hfields; [|discriminate Hlog].
    rewrite (EvenniaPrintJSONObject_loop_ext _ (EvenniaPrintJSONValue fuel' heap)
               _ _ _ (proj2 (Forall_forall _ _) (fun kv _ => Hdeeper kv.2)) Hfields).
    exact Hlog.
Qed.

Lemma EvenniaPrintJSONArray_loop_is_Some PrintValue (level : Z) :
  forall (JSONValueArray : list FJsonValue) (x : Z),
    Forall (fun Value => is_Some (PrintValue Value level)) JSONValueArray ->
    is_Some (EvenniaPrintJSONArray_loop PrintValue x JSONValueArray level).
Proof.
  induction JSONValueArray as [|Value rest IH]; intros x Hall; [simpl; eauto|].
  apply Forall_cons in Hall as [[printed Hprinted] Hrest].
  destruct (IH (x + 1)%Z Hrest) as [others Hothers].
  simpl. rewrite Hprinted. simpl. rewrite Hothers. simpl. eauto.
Qed.

Lemma EvenniaPrintJSONObject_loop_is_Some PrintValue (level : Z) :
  forall Keys : list (FString * FJsonValue),
    Forall (fun kv => is_Some (PrintValue kv.2 level)) Keys ->
    is_Some (EvenniaPrintJSONObject_loop PrintValue Keys level).
Proof.
  induction Keys as [|[Key Field] rest IH]; intros Hall; [simpl; eauto|].
  apply Forall_cons in Hall as [[printed Hprinted] Hrest].
  destruct (IH Hrest) as [others Hothers]. simpl in Hprinted.
  simpl. rewrite Hprinted. simpl. rewrite Hothers. simpl. eauto.
Qed.

(** Printing follows the pointers the serializer follows: where the
    traversal of the serializer ends, printing ends. *)
Lemma EvenniaPrintJSONValue_finished (fuel : nat) : forall heap Value level d,
  document fuel heap Value = Some d ->
  is_Some (EvenniaPrintJSONValue fuel heap Value level).
Proof.
  induction fuel as [|fuel IH]; intros heap Value level d Hd; [discriminate Hd|].
  destruct Value as [| |s|n|b|ChildArray|p]; try (simpl; eauto; fail).
  - simpl in Hd |- *.
    destruct (mapM (document fuel heap) ChildArray) as [elems|] eqn:Helems;
      [|discriminate Hd].
    assert (Hall : Forall (fun Value => is_Some (EvenniaPrintJSONValue fuel heap Value level))
                     ChildArray).
    { apply mapM_Some_1 in Helems. clear Hd.
      induction Helems as [|v e l k Hv _ IHl]; constructor; [|exact IHl].
      apply (IH _ _ _ _ Hv). }
    unfold EvenniaPrintJSONArray_level.
    destruct (0 <? Num ChildArray)%Z; [|simpl; eauto].
    destruct (EvenniaPrintJSONArray_loop_is_Some _ level ChildArray 0%Z Hall) as [log Hlog].
    rewrite Hlog. simpl. eauto.
  - destruct p as [o|]; [|simpl; eauto].
    rewrite document_object in Hd. simpl. unfold EvenniaPrintJSONObject_level.
    destruct (heap !! o) as [Values|]; [|discriminate Hd]. simpl in Hd |- *.
    destruct (mapM (fun kv : string * FJsonValue => pair kv.1 <$> document fuel heap kv.2)
                (map_to_list Values)) as [fields|] eqn:Hfields; [|discriminate Hd].
    assert (Hall : Forall (fun kv : string * FJsonValue =>
                             is_Some (EvenniaPrintJSONValue fuel heap kv.2 level))
                     (map_to_list Values)).
    { apply mapM_Some_1 in Hfields. clear Hd.
      induction Hfields as [|kv e l k Hkv _ IHl]; constructor; [|exact IHl].
      destruct (document fuel heap kv.2) as [dv|] eqn:Hdv; [|discriminate Hkv].
      apply (IH _ _ _ _ Hdv). }
    destruct (EvenniaPrintJSONObject_loop_is_Some _ level _ Hall) as [log Hlog].
    rewrite Hlog. simpl. eauto.
Qed.

Ltac other_line :=
  let H := fresh in intros H; apply (f_equal Format) in H; vm_compute in H; discriminate H.

Lemma EvenniaPrintJSONArray_loop_lines PrintValue (P : LogLine -> Prop) (level : Z) :
  (forall Value l, PrintValue Value level = Some l -> Forall P l) ->
  (forall x, P (UE_LOG "UEvenniaPluginBPLibrary::Printing element number: %d" [ArgInt x])) ->
  forall (JSONValueArray : list FJsonValue) (x : Z) (log : list LogLine),
    EvenniaPrintJSONArray_loop PrintValue x JSONValueArray level = Some log -> Forall P log.
Proof.
  intros Hvalue Hline.
  induction JSONValueArray as [|Value rest IH]; intros x log Hlog.
  - injection Hlog as <-. constructor.
  - simpl in Hlog.
    destruct (PrintValue Value level) as [printed|] eqn:Hprinted; [|discriminate Hlog].
    simpl in Hlog.
    destruct (EvenniaPrintJSONArray_loop PrintValue (x + 1) rest level) as [others|] eqn:Hothers;
      [|discriminate Hlog].
    injection Hlog as <-. constructor; [apply Hline|].
    apply Forall_app. split; [apply (Hvalue _ _ Hprinted) | apply (IH _ _ Hothers)].
Qed.

Lemma EvenniaPrintJSONObject_loop_lines PrintValue (P : LogLine -> Prop) (level : Z) :
  (forall Value l, PrintValue Value level = Some l -> Forall P l) ->
  (forall Key,
      P (UE_LOG "UEvenniaPluginBPLibrary::PrintJSONObject: Processing Key: %s" [ArgText Key])) ->
  forall (Keys : list (FString * FJsonValue)) (log : list LogLine),
    EvenniaPrintJSONObject_loop PrintValue Keys level = Some log -> Forall P log.
Proof.
  intros Hvalue Hline.
  induction Keys as [|[Key Field] rest IH]; intros log Hlog.
  - injection Hlog as <-. constructor.
  - simpl in Hlog.
    destruct (PrintValue Field level) as [printed|] eqn:Hprinted; [|discriminate Hlog].
    simpl in Hlog.
    destruct (EvenniaPrintJSONObject_loop PrintValue rest level) as [others|] eqn:Hothers;
      [|discriminate Hlog].
    injection Hlog as <-. constructor; [apply Hline|].
    apply Forall_app. split; [apply (Hvalue _ _ Hprinted) | apply (IH _ eq_refl)].
Qed.

Lemma EvenniaPrintJSONArray_level_0_lines PrintValue :
  (forall Value l, PrintValue Value 0%Z = Some l ->
                   Forall (fun line => line <> Nested_element_heading) l) ->
  forall (JSONValueArray : list FJsonValue) (log : list LogLine),
    EvenniaPrintJSONArray_level PrintValue JSONValueArray 0 = Some log ->
    Forall (fun line => line <> Nested_element_heading) log.
Proof.
  intros Hvalue JSONValueArray log Hlog. unfold EvenniaPrintJSONArray_level in Hlog.
  destruct (0 <? Num JSONValueArray)%Z.
  - destruct (EvenniaPrintJSONArray_loop PrintValue 0 JSONValueArray 0) as [elements|] eqn:Hel;
      [|discriminate Hlog].
    simpl in Hlog. injection Hlog as <-.
    constructor; [other_line|]. constructor; [other_line|].
    apply (EvenniaPrintJSONArray_loop_lines PrintValue _ 0%Z Hvalue) in Hel; [exact Hel|].
    intros x. other_line.
  - injection Hlog as <-. constructor; [other_line | constructor].
Qed.

(** From level 0 every call below is made at level 0 again: [level++] hands
    the callee the value before the increment. *)
Lemma EvenniaPrintJSONValue_level_0_lines (fuel : nat) : forall heap Value log,
  EvenniaPrintJSONValue fuel heap Value 0 = Some log ->
  Forall (fun line => line <> Nested_element_heading) log.
Proof.
  induction fuel as [|fuel IH]; intros heap Value log Hlog; [discriminate Hlog|].
  destruct Value as [| |s|d|b|ChildArray|p]; simpl in Hlog;
    try (injection Hlog as <-; constructor; [other_line | constructor]).
  - destruct (EvenniaPrintJSONArray_level (EvenniaPrintJSONValue fuel heap) ChildArray 0)
      as [printed|] eqn:Hprinted; [|discriminate Hlog].
    simpl in Hlog. injection Hlog as <-. constructor; [other_line|].
    apply (EvenniaPrintJSONArray_level_0_lines _ (IH heap) _ _ Hprinted).
  - destruct (EvenniaPrintJSONObject_level (EvenniaPrintJSONValue fuel heap) heap p 0)
      as [printed|] eqn:Hprinted; [|discriminate Hlog].
    simpl in Hlog. injection Hlog as <-. constructor; [other_line|].
    unfold EvenniaPrintJSONObject_level in Hprinted. destruct p as [o|].
    + destruct (heap !! o) as [Values|]; [|discriminate Hprinted]. simpl in Hprinted.
      apply (EvenniaPrintJSONObject_loop_lines _ _ 0%Z (IH heap)) in Hprinted;
        [exact Hprinted|].
      intros Key. other_line.
    + injection Hprinted as <-. constructor; [other_line | constructor].
Qed.

(** X20.  [EvenniaPrintJSONArray] comes back wherever serializing the array
    does, with the same log however far beyond the depth needed it may go.
    The log of an array with elements starts with the Starting heading and the
    number of elements; an array without elements is reported with a single
    line that speaks of a null pointer in EvenniaParseString.  The heading for
    nested arrays is never logged, however deeply arrays are nested: every
    recursive call passes [level++], the level before the increment, so the
    level is 0 throughout. *)
Theorem EvenniaPrintJSONArray_log
    (fuel : nat) (heap : Heap) (arr : UJSONHandleArray) (d : JsonDoc) :
  document fuel heap (FJsonValueArray (JSONObjectArray arr)) = Some d ->
  exists log,
    (forall fuel', fuel <= fuel' -> EvenniaPrintJSONArray fuel' heap (Some arr) = Some log)
    /\ Forall (fun line => line <> Nested_element_heading) log
    /\ (JSONObjectArray arr = [] -> log = [empty_array_line])
    /\ (JSONObjectArray arr <> [] ->
        exists elements,
          log = UE_LOG "UEvenniaPluginBPLibrary::PrintJSONArray: Starting" []
                  :: UE_LOG "UEvenniaPluginBPLibrary::Number of elements: %d"
                       [ArgInt (Num (JSONObjectArray arr))]
                  :: elements).
Proof.
  intros Hd.
  destruct (EvenniaPrintJSONValue_finished fuel heap _ 0%Z d Hd) as [whole Hwhole].
  destruct fuel as [|fuel]; [discriminate Hd|]. simpl in Hwhole.
  destruct (EvenniaPrintJSONArray_level (EvenniaPrintJSONValue fuel heap)
              (JSONObjectArray arr) 0) as [log|] eqn:Hlog; [|discriminate Hwhole].
  exists log. split; [|split; [|split]].
  - intros fuel' Hle. unfold EvenniaPrintJSONArray.
    unfold EvenniaPrintJSONArray_level in Hlog |- *.
    destruct (0 <? Num (JSONObjectArray arr))%Z; [|exact Hlog].
    destruct (EvenniaPrintJSONArray_loop (EvenniaPrintJSONValue fuel heap) 0
                (JSONObjectArray arr) 0) as [elements|] eqn:Helements; [|discriminate Hlog].
    rewrite (EvenniaPrintJSONArray_loop_ext _ (EvenniaPrintJSONValue fuel' heap) 0%Z
               _ _ _ (proj2 (Forall_forall _ _)
                        (fun v _ l => EvenniaPrintJSONValue_mono fuel fuel' heap v 0%Z l
                                        ltac:(lia))) Helements).
    exact Hlog.
  - apply (EvenniaPrintJSONArray_level_0_lines _ (EvenniaPrintJSONValue_level_0_lines fuel heap)
             _ _ Hlog).
  - intros Hempty. rewrite Hempty in Hlog. injection Hlog as <-. reflexivity.
  - intros Hne. unfold EvenniaPrintJSONArray_level in Hlog.
    destruct (JSONObjectArray arr) as [|Value rest] eqn:Harr; [congruence|].
    change (0 <? Num (Value :: rest))%Z with (0 <? Z.pos (Pos.of_succ_nat (length rest)))%Z
      in Hlog.
    cbn [Z.ltb Z.compare] in Hlog.
    destruct (EvenniaPrintJSONArray_loop (EvenniaPrintJSONValue fuel heap) 0 (Value :: rest) 0)
      as [elements|]; [|discriminate Hlog].
    exists elements. simpl in Hlog. injection Hlog as <-. reflexivity.
Qed.

End Printing.

(** ** The further properties on examples *)

(** X1 on the player: the name set is the name read. *)
Lemma string_field_set_then_get_witness :
  EvenniaGetJSONElement (EvenniaAddJSONElement heap_objects (handle_to 1) "name" "Ann")
    (handle_to 1) "name" "stale" = "Ann".
Proof.
  assert (Hplayer : is_Some (heap_objects !! 1%positive)) by (vm_compute; eauto).
  assert (Hname : "name" <> "") by discriminate.
  assert (Hplain : ReplaceEscapedCharWithChar "name" = "name") by reflexivity.
  exact (proj1 (string_field_set_then_get heap_objects 1%positive "name" Hplayer Hname Hplain)
           "Ann" "stale").
Defined.

(** X2 on a name that ends in the escape sequence for a line feed: the field
    is stored and the getter, asked for the same name, does not see it. *)
Lemma string_field_escaped_name_not_read_back_witness :
  let heap' := EvenniaAddJSONElement heap_objects (handle_to 1) "a\n" "x" in
  GetStringField heap' 1%positive "a\n" = "x"
  /\ EvenniaGetJSONElement heap' (handle_to 1) "a\n" "stale" = "".
Proof.
  assert (Hplayer : is_Some (heap_objects !! 1%positive)) by (vm_compute; eauto).
  assert (Hname : "a\n" <> "") by discriminate.
  assert (Hescape : ReplaceEscapedCharWithChar "a\n" <> "a\n")
    by (intros H; vm_compute in H; discriminate H).
  destruct (string_field_escaped_name_not_read_back heap_objects 1%positive "a\n" "x" "stale"
              Hplayer Hname Hescape) as [Hraw Hget].
  split; [exact Hraw|]. rewrite Hget. reflexivity.
Defined.

(** X3 on the hit points of the player. *)
Lemma numeric_field_set_then_get_witness :
  EvenniaGetJSONNumericElement
    (EvenniaAddJSONNumericElement heap_objects (handle_to 1) "hp" 10.5%float)
    (handle_to 1) "hp" 0%float
  = 10.5%float.
Proof.
  assert (Hplayer : is_Some (heap_objects !! 1%positive)) by (vm_compute; eauto).
  assert (Hnumber : forall d, TryGetNumber (FJsonValueNumber d) = Some d)
    by (intros d; reflexivity).
  rewrite (proj1 (numeric_field_set_then_get heap_objects 1%positive "hp" 10.5%float 0%float
                    Hplayer Hnumber)).
  vm_compute. reflexivity.
Defined.

(** X4 on the player and the bag. *)
Lemma object_field_set_then_get_witness :
  EvenniaGetJSONObject (EvenniaAddJSONObject heap_objects (handle_to 1) "bag" (handle_to 2))
    (handle_to 1) "bag"
  = handle_to 2.
Proof.
  assert (Hplayer : is_Some (heap_objects !! 1%positive)) by (vm_compute; eauto).
  assert (Hplain : ReplaceEscapedCharWithChar "bag" = "bag") by reflexivity.
  exact (proj1 (object_field_set_then_get heap_objects 1%positive 2%positive "bag"
                  Hplayer Hplain)).
Defined.

(** X5 on the player: a handle without an object goes in, the handle around
    the engine's empty object comes out. *)
Lemma EvenniaGetJSONObject_without_an_object_field_witness :
  EvenniaGetJSONObject
    (EvenniaAddJSONObject heap_objects (handle_to 1) "bag" (Some {| JSONObject := None |}))
    (handle_to 1) "bag"
  = Some {| JSONObject := EMPTY_OBJECT |}.
Proof.
  assert (Hplayer : is_Some (heap_objects !! 1%positive)) by (vm_compute; eauto).
  assert (Hplain : ReplaceEscapedCharWithChar "bag" = "bag") by reflexivity.
  exact (proj2 (proj2 (EvenniaGetJSONObject_without_an_object_field heap_objects 1%positive
                         "bag" Hplayer Hplain))).
Defined.

(** X6 on the player. *)
Lemma setters_and_reported_types_witness :
  fst (EvenniaGetJSONObjectKeysAndTypes
         (EvenniaAddJSONNumericElement heap_objects (handle_to 1) "hp" 10.5%float)
         (handle_to 1)) !! "hp"
  = Some EJsonType.Number.
Proof.
  assert (Hplayer : is_Some (heap_objects !! 1%positive)) by (vm_compute; eauto).
  exact (proj1 (proj2 (setters_and_reported_types heap_objects 1%positive Hplayer))
           "hp" 10.5%float).
Defined.

(** X7 on the player with its four fields. *)
Lemma EvenniaGetJSONObjectKeysAndTypes_fields_witness :
  exists Values : gmap string FJsonValue,
    player_heap !! 1%positive = Some Values
    /\ snd (EvenniaGetJSONObjectKeysAndTypes player_heap (handle_to 1)) = 4%Z
    /\ fst (EvenniaGetJSONObjectKeysAndTypes player_heap (handle_to 1)) !! "list"
       = Some EJsonType.Array.
Proof.
  destruct (player_heap !! 1%positive) as [Values|] eqn:Hplayer;
    [|vm_compute in Hplayer; discriminate Hplayer].
  exists Values. split; [reflexivity|].
  destruct (EvenniaGetJSONObjectKeysAndTypes_fields player_heap 1%positive Values Hplayer)
    as (_ & Hlookup & Hcount & _).
  rewrite Hcount, Hlookup.
  vm_compute in Hplayer. injection Hplayer as <-. split; vm_compute; reflexivity.
Defined.



(** X14 on an array that holds the bag. *)
Lemma EvenniaGetJSONElementMultiple_of_appended_witness :
  EvenniaGetJSONElementMultiple
    (EvenniaAddJSONElement heap_objects (handle_to 2) "item" "sword")
    (EvenniaAddJSONObjectToArray (Some EvenniaNewJSONObjectArray) (handle_to 2))
    0 "item" "stale"
  = Returns "sword".
Proof.
  assert (Hbag : is_Some (heap_objects !! 2%positive)) by (vm_compute; eauto).
  assert (Hname : "item" <> "") by discriminate.
  exact (proj1 (EvenniaGetJSONElementMultiple_of_appended heap_objects
                  EvenniaNewJSONObjectArray 2%positive "item" "sword" "stale" Hbag Hname)).
Defined.

Lemma look_is_ascii_text : ascii_text "look".
Proof. repeat constructor. Defined.

(** X16 on a command of four letters: four bytes are handed to the socket. *)
Lemma SendMessage_sends_one_byte_per_character_witness :
  exists after,
    SendMessage (Some {| _Socket := Some (socket_with []) |}) "look"
    = (true, Some {| _Socket := Some after |})
    /\ Sent after = [x6c; x6f; x6f; x6b].
Proof.
  assert (Hne : "look" <> "") by discriminate.
  assert (Hok : SendSucceeds (socket_with []) = true) by reflexivity.
  destruct (SendMessage_sends_one_byte_per_character (socket_with []) "look" Hne
              (ascii_text_without_NUL _ look_is_ascii_text) Hok)
    as (after & Hsend & _ & Hsent & _).
  exists after. split; [exact Hsend|]. rewrite Hsent. reflexivity.
Defined.

(** A text with a character outside ASCII: the two bytes of the character
    count as one, and the last byte of the text is not sent. *)
Example SendMessage_drops_the_last_byte :
  code_units "caf" ++ [233%Z] = code_units (String.append "caf" (String (ascii_of_nat 233) ""))
  /\ TCHAR_TO_UTF8 (String.append "caf" (String (ascii_of_nat 233) ""))
     = [x63; x61; x66; xc3; xa9]
  /\ exists after,
       SendMessage (Some {| _Socket := Some (socket_with []) |})
         (String.append "caf" (String (ascii_of_nat 233) ""))
       = (true, Some {| _Socket := Some after |})
       /\ Sent after = [x63; x61; x66; xc3].
Proof.
  split; [reflexivity|]. split; [reflexivity|]. eexists. split; reflexivity.
Qed.

(** X17 on the same command: what is sent is what is received. *)
Lemma SendMessage_then_GetMessage_witness :
  fst (GetMessage (Some {| _Socket := Some (socket_with [x6c; x6f; x6f; x6b]) |}) "stale")
  = (true, "look").
Proof.
  assert (Hne : "look" <> "") by discriminate.
  assert (Hlen : String.length "look" <= MaxRead) by (unfold MaxRead; simpl; lia).
  assert (Hok : SendSucceeds (socket_with []) = true) by reflexivity.
  destruct (SendMessage_then_GetMessage (socket_with []) "look" "stale" Hne
              look_is_ascii_text Hlen Hok) as (after & sent & Hsend & Hsent & Hget).
  apply Hget.
  assert (Hafter : Sent after = [x6c; x6f; x6f; x6b]).
  { vm_compute in Hsend. injection Hsend as <-. reflexivity. }
  rewrite Hafter in Hsent. simpl in Hsent. rewrite <- Hsent. reflexivity.
Defined.

(** X19 on the example platform: the connection made to the listening port
    is closed, and still holds its socket. *)
Lemma Connect_then_CloseConnection_witness :
  exists closed,
    CloseConnection (fst (@Connect example_platform "127.0.0.1" 4000)) = (true, Some closed)
    /\ GetSocket closed
       = Some {| Pending := []; Sent := []; SendSucceeds := true; IsOpen := false |}.
Proof.
  assert (Hconnect : @Connect example_platform "127.0.0.1" 4000
                     = (Some {| _Socket := Some (socket_with []) |}, true)) by reflexivity.
  destruct (@Connect_then_CloseConnection example_platform "127.0.0.1" 4000 _ Hconnect)
    as (sock & Hbuild & _ & _ & _ & closed & Hclose & Hsocket & _).
  injection Hbuild as <-. exists closed. rewrite Hconnect. split; [exact Hclose | exact Hsocket].
Defined.

(** X20 on an array inside an array: both are announced with the Starting
    heading. *)
Lemma EvenniaPrintJSONArray_log_witness :
  exists fuel,
    EvenniaPrintJSONArray fuel ∅
      (Some {| JSONObjectArray := [FJsonValueArray [FJsonValueNull]] |})
    = Some [UE_LOG "UEvenniaPluginBPLibrary::PrintJSONArray: Starting" [];
            UE_LOG "UEvenniaPluginBPLibrary::Number of elements: %d" [ArgInt 1];
            UE_LOG "UEvenniaPluginBPLibrary::Printing element number: %d" [ArgInt 0];
            UE_LOG "UEvenniaPluginBPLibrary::Element type: %s." [ArgText "Array"];
            UE_LOG "UEvenniaPluginBPLibrary::PrintJSONArray: Starting" [];
            UE_LOG "UEvenniaPluginBPLibrary::Number of elements: %d" [ArgInt 1];
            UE_LOG "UEvenniaPluginBPLibrary::Printing element number: %d" [ArgInt 0];
            UE_LOG "UEvenniaPluginBPLibrary::Element type: %s." [ArgText "Null"]].
Proof.
  assert (Hd : document 3 ∅ (FJsonValueArray [FJsonValueArray [FJsonValueNull]])
               = Some (DArray [DArray [DNull]])) by reflexivity.
  destruct (EvenniaPrintJSONArray_log 3 ∅
              {| JSONObjectArray := [FJsonValueArray [FJsonValueNull]] |} _ Hd)
    as (log & Hprint & _).
  exists 3. rewrite (Hprint 3 (le_n 3)).
  specialize (Hprint 3 (le_n 3)). vm_compute in Hprint. injection Hprint as <-.
  reflexivity.
Defined.
